(** * rss2hugo / wordpress2hugo: media relocation and Markdown conversion

    A shallow embedding of the content-transformation core of the
    program: the media locator ([pickBestSrc], [toOriginalURL],
    [stripWPSuffixes], [filenameFromURL]), the download coordinator
    ([downloader], [Schedule], [downloadFile]), the document rewriter
    ([rewriteAndDownloadImages]) and the content transformer
    ([toMarkdownPreserveOrder]).

    Go strings are byte strings and are modelled by [string]; the
    library packages the program calls ([strings], [path], [net/url],
    [regexp] for the three patterns the program compiles, goquery and
    html-to-markdown) are modelled in modules of their own, the
    program's functions after them under their Go names. *)

From Stdlib Require Import ZArith NArith Ascii String List Bool Lia.
From Stdlib Require DecimalString.
From stdpp Require Import gmap strings list.

Local Open Scope string_scope.
Local Open Scope Z_scope.
Local Set Warnings "-register-all".

(** ** Bytes and character classes *)

Definition code (c : ascii) : N := N_of_ascii c.

Definition in_range (lo hi : N) (c : ascii) : bool :=
  ((lo <=? code c) && (code c <=? hi))%N.

Definition is_digit (c : ascii) : bool := in_range 48 57 c.
Definition is_lower (c : ascii) : bool := in_range 97 122 c.
Definition is_upper (c : ascii) : bool := in_range 65 90 c.
Definition is_alpha (c : ascii) : bool := is_lower c || is_upper c.
Definition is_alnum (c : ascii) : bool := is_alpha c || is_digit c.
Definition is_hex (c : ascii) : bool :=
  is_digit c || in_range 97 102 c || in_range 65 70 c.

(** [\s] of Go's regexp (RE2): tab, newline, form feed, carriage
    return and space. *)
Definition re_space (c : ascii) : bool :=
  match code c with
  | 9%N | 10%N | 12%N | 13%N | 32%N => true
  | _ => false
  end.

(** The ASCII part of [unicode.IsSpace]. *)
Definition ascii_space (c : ascii) : bool :=
  in_range 9 13 c || (code c =? 32)%N.

Definition chr (n : N) : ascii := ascii_of_N n.

(** ** Package [strings] *)

Module strings.

Fixpoint HasPrefix (s p : string) : bool :=
  match p, s with
  | EmptyString, _ => true
  | String a p', String b s' => Ascii.eqb a b && HasPrefix s' p'
  | String _ _, EmptyString => false
  end.

Fixpoint drop (n : nat) (s : string) : string :=
  match n, s with
  | O, _ => s
  | S n', String _ s' => drop n' s'
  | S _, EmptyString => EmptyString
  end.

Definition TrimPrefix (s p : string) : string :=
  if HasPrefix s p then drop (String.length p) s else s.

Fixpoint HasSuffix (s suf : string) : bool :=
  String.eqb s suf ||
  match s with
  | EmptyString => false
  | String _ s' => HasSuffix s' suf
  end.

Fixpoint TrimSuffix (s suf : string) : string :=
  if String.eqb s suf then EmptyString
  else match s with
       | EmptyString => EmptyString
       | String c s' => if HasSuffix s' suf then String c (TrimSuffix s' suf) else s
       end.

Fixpoint Contains (s sub : string) : bool :=
  HasPrefix s sub ||
  match s with
  | EmptyString => false
  | String _ s' => Contains s' sub
  end.

Fixpoint ContainsByte (s : string) (c : ascii) : bool :=
  match s with
  | EmptyString => false
  | String a s' => Ascii.eqb a c || ContainsByte s' c
  end.

Fixpoint CountByte (s : string) (c : ascii) : nat :=
  match s with
  | EmptyString => O
  | String a s' => ((if Ascii.eqb a c then 1 else 0) + CountByte s' c)%nat
  end.

(** [strings.Cut(s, sep)] for a one-byte separator: the text before
    and after the first [sep], or [None] when [sep] does not occur
    (Go then returns [s, "", false]). *)
Fixpoint Cut (s : string) (sep : ascii) : option (string * string) :=
  match s with
  | EmptyString => None
  | String a s' =>
      if Ascii.eqb a sep then Some (EmptyString, s')
      else match Cut s' sep with
           | Some (b, r) => Some (String a b, r)
           | None => None
           end
  end.

(** The split at the last occurrence of a byte: [s[:i]] and
    [s[i+1:]] for [i = strings.LastIndex(s, sep)]. *)
Fixpoint CutLast (s : string) (sep : ascii) : option (string * string) :=
  match s with
  | EmptyString => None
  | String a s' =>
      match CutLast s' sep with
      | Some (b, r) => Some (String a b, r)
      | None => if Ascii.eqb a sep then Some (EmptyString, s') else None
      end
  end.

Definition to_lower (c : ascii) : ascii :=
  if is_upper c then chr (code c + 32) else c.

(** [strings.ToLower] on the ASCII letters (the program lowers URL
    schemes only, which [getScheme] restricts to ASCII). *)
Fixpoint ToLower (s : string) : string :=
  match s with
  | EmptyString => EmptyString
  | String a s' => String (to_lower a) (ToLower s')
  end.

(** *** [strings.TrimSpace]

    Go trims the runes of [unicode.IsSpace]: the six ASCII spaces,
    U+0085 and U+00A0 (two bytes in UTF-8), and U+1680, U+2000 to
    U+200A, U+2028, U+2029, U+202F, U+205F and U+3000 (three bytes). *)

Definition space2 (a b : ascii) : bool :=
  (code a =? 194)%N && ((code b =? 133)%N || (code b =? 160)%N).

Definition space3 (a b c : ascii) : bool :=
  match code a, code b with
  | 225%N, 154%N => (code c =? 128)%N
  | 226%N, 128%N => in_range 128 138 c || in_range 168 169 c || (code c =? 175)%N
  | 226%N, 129%N => (code c =? 159)%N
  | 227%N, 128%N => (code c =? 128)%N
  | _, _ => false
  end.

Fixpoint TrimLeft (s : string) : string :=
  match s with
  | EmptyString => EmptyString
  | String a s1 =>
      if ascii_space a then TrimLeft s1
      else match s1 with
           | EmptyString => s
           | String b s2 =>
               if space2 a b then TrimLeft s2
               else match s2 with
                    | EmptyString => s
                    | String c s3 => if space3 a b c then TrimLeft s3 else s
                    end
           end
  end.

Definition all_space (s : string) : bool := String.eqb (TrimLeft s) EmptyString.

Fixpoint TrimRight (s : string) : string :=
  match s with
  | EmptyString => EmptyString
  | String a s' => if all_space s then EmptyString else String a (TrimRight s')
  end.

Definition TrimSpace (s : string) : string := TrimRight (TrimLeft s).

Fixpoint Join (l : list string) (sep : string) : string :=
  match l with
  | [] => EmptyString
  | [x] => x
  | x :: l' => x +:+ sep +:+ Join l' sep
  end.

(** [strings.Split(s, sep)] for a one-byte separator. *)
Fixpoint SplitByte (s : string) (sep : ascii) : list string :=
  match s with
  | EmptyString => [EmptyString]
  | String a s' =>
      if Ascii.eqb a sep then EmptyString :: SplitByte s' sep
      else match SplitByte s' sep with
           | x :: l => String a x :: l
           | [] => [String a EmptyString]
           end
  end.

End strings.

(** ** Package [path] (and [path/filepath] on a Unix system) *)

Module path.

(** One step of [Clean]'s scan over the elements of a path: [out] is
    the list of elements written so far, last one first.  An element
    [".."] takes back the last element written unless that is itself
    a [".."] kept at the front of an unrooted path; at the root it is
    dropped. *)
Definition clean_step (rooted : bool) (out : list string) (e : string) : list string :=
  if String.eqb e "" || String.eqb e "." then out
  else if String.eqb e ".." then
    match out with
    | top :: rest => if String.eqb top ".." then e :: out else rest
    | [] => if rooted then out else [e]
    end
  else e :: out.

Definition Clean (p : string) : string :=
  match p with
  | EmptyString => "."
  | String c _ =>
      let rooted := Ascii.eqb c "/" in
      let out := fold_left (clean_step rooted) (strings.SplitByte p "/") [] in
      let body := strings.Join (rev out) "/" in
      if rooted then "/" +:+ body
      else if String.eqb body "" then "." else body
  end.

(** [s] without its trailing slashes. *)
Fixpoint strip_slashes (s : string) : string :=
  match s with
  | EmptyString => EmptyString
  | String a s' =>
      let r := strip_slashes s' in
      if Ascii.eqb a "/" && String.eqb r "" then EmptyString else String a r
  end.

Definition Base (p : string) : string :=
  if String.eqb p "" then "."
  else
    let p1 := strip_slashes p in
    let p2 := match strings.CutLast p1 "/" with
              | Some (_, f) => f
              | None => p1
              end in
    if String.eqb p2 "" then "/" else p2.

(** [path.Split]: the directory with its final slash, and the file. *)
Definition Split (p : string) : string * string :=
  match strings.CutLast p "/" with
  | Some (d, f) => (d +:+ "/", f)
  | None => ("", p)
  end.

Definition Dir (p : string) : string := Clean (fst (Split p)).

(** [path.Ext]: the suffix of the last element from its last dot. *)
Fixpoint Ext (p : string) : string :=
  match p with
  | EmptyString => EmptyString
  | String a s' =>
      if strings.ContainsByte s' "/" then Ext s'
      else if strings.ContainsByte s' "." then Ext s'
      else if Ascii.eqb a "." then p else EmptyString
  end.

Definition Join (elem : list string) : string :=
  let parts := filter (fun e => e ≠ EmptyString) elem in
  match parts with
  | [] => ""
  | _ => Clean (strings.Join parts "/")
  end.

End path.

(** ** Package [net/url]

    [Parse] and [String] after the Go sources (go1.20): scheme,
    opaque part, authority with user information and port check,
    percent-decoding of path and fragment, and the escaping rules of
    [shouldEscape]. *)

Module url.

Inductive encoding :=
| encodePath | encodePathSegment | encodeHost | encodeZone
| encodeUserPassword | encodeQueryComponent | encodeFragment.

Definition is_host_mode (m : encoding) : bool :=
  match m with encodeHost | encodeZone => true | _ => false end.

Record Userinfo := mkUserinfo {
  username : string;
  password : string;
  passwordSet : bool
}.

Record URL := mkURL {
  Scheme : string;
  Opaque : string;
  User : option Userinfo;
  Host : string;
  Path : string;
  RawPath : string;
  OmitHost : bool;
  ForceQuery : bool;
  RawQuery : string;
  Fragment : string;
  RawFragment : string
}.

Definition empty : URL :=
  mkURL "" "" None "" "" "" false false "" "" "".

Definition set_Path (u : URL) (p : string) : URL :=
  mkURL (Scheme u) (Opaque u) (User u) (Host u) p (RawPath u)
        (OmitHost u) (ForceQuery u) (RawQuery u) (Fragment u) (RawFragment u).

Definition in_str (c : ascii) (s : string) : bool := strings.ContainsByte s c.

Definition shouldEscape (c : ascii) (mode : encoding) : bool :=
  if is_alnum c then false
  else if is_host_mode mode && (in_str c "!$&'()*+,;=:[]<>" || (code c =? 34)%N) then false
  else if in_str c "-_.~" then false
  else if in_str c "$&+,/:;=?@" then
    match mode with
    | encodePath => Ascii.eqb c "?"
    | encodePathSegment => in_str c "/;,?"
    | encodeUserPassword => in_str c "@/?:"
    | encodeQueryComponent => true
    | encodeFragment => false
    | encodeHost | encodeZone => true
    end
  else match mode with
       | encodeFragment => negb (in_str c "!()*")
       | _ => true
       end.

Definition unhex (c : ascii) : N :=
  if is_digit c then (code c - 48)%N
  else if in_range 97 102 c then (code c - 97 + 10)%N
  else if in_range 65 70 c then (code c - 65 + 10)%N
  else 0%N.

Definition upperhex (n : N) : ascii :=
  if (n <? 10)%N then chr (48 + n) else chr (65 + n - 10).

Definition is_mode (m m' : encoding) : bool :=
  match m, m' with
  | encodePath, encodePath | encodePathSegment, encodePathSegment
  | encodeHost, encodeHost | encodeZone, encodeZone
  | encodeUserPassword, encodeUserPassword
  | encodeQueryComponent, encodeQueryComponent
  | encodeFragment, encodeFragment => true
  | _, _ => false
  end.

(** [unescape]: [None] is Go's [EscapeError] or [InvalidHostError]. *)
Fixpoint unescape (s : string) (mode : encoding) : option string :=
  match s with
  | EmptyString => Some EmptyString
  | String c s1 =>
      if Ascii.eqb c "%" then
        match s1 with
        | String h1 (String h2 s3) =>
            if is_hex h1 && is_hex h2 then
              let v := chr (unhex h1 * 16 + unhex h2) in
              let is25 := Ascii.eqb h1 "2" && Ascii.eqb h2 "5" in
              if is_mode mode encodeHost && (unhex h1 <? 8)%N && negb is25 then None
              else if is_mode mode encodeZone && negb is25 && negb (Ascii.eqb v " ")
                      && shouldEscape v encodeHost then None
              else String v <$> unescape s3 mode
            else None
        | _ => None
        end
      else if Ascii.eqb c "+" && is_mode mode encodeQueryComponent then
        String " "%char <$> unescape s1 mode
      else if is_host_mode mode && (code c <? 128)%N && shouldEscape c encodeHost then None
      else String c <$> unescape s1 mode
  end.

Fixpoint escape (s : string) (mode : encoding) : string :=
  match s with
  | EmptyString => EmptyString
  | String c s' =>
      if shouldEscape c mode then
        if Ascii.eqb c " " && is_mode mode encodeQueryComponent
        then String "+" (escape s' mode)
        else String "%" (String (upperhex (code c / 16))
               (String (upperhex (code c mod 16)) (escape s' mode)))
      else String c (escape s' mode)
  end.

Fixpoint validEncoded (s : string) (mode : encoding) : bool :=
  match s with
  | EmptyString => true
  | String c s' =>
      (in_str c "!$&'()*+,;=:@[]%" || negb (shouldEscape c mode))
      && validEncoded s' mode
  end.

Fixpoint stringContainsCTLByte (s : string) : bool :=
  match s with
  | EmptyString => false
  | String c s' => (code c <? 32)%N || (code c =? 127)%N || stringContainsCTLByte s'
  end.

Inductive scheme_scan :=
| NoScheme
| MissingScheme
| SchemeAt (scheme rest : string).

Fixpoint scanScheme (first : bool) (s : string) : scheme_scan :=
  match s with
  | EmptyString => NoScheme
  | String c s' =>
      let more := match scanScheme false s' with
                  | SchemeAt sc r => SchemeAt (String c sc) r
                  | x => x
                  end in
      if is_alpha c then more
      else if is_digit c || in_str c "+-." then
        if first then NoScheme else more
      else if Ascii.eqb c ":" then
        if first then MissingScheme else SchemeAt EmptyString s'
      else NoScheme
  end.

(** [getScheme]: the scheme and the rest; [None] is the error
    "missing protocol scheme". *)
Definition getScheme (rawURL : string) : option (string * string) :=
  match scanScheme true rawURL with
  | NoScheme => Some (EmptyString, rawURL)
  | MissingScheme => None
  | SchemeAt sc r => Some (sc, r)
  end.

Fixpoint validOptionalPort_digits (s : string) : bool :=
  match s with
  | EmptyString => true
  | String c s' => is_digit c && validOptionalPort_digits s'
  end.

Definition validOptionalPort (port : string) : bool :=
  match port with
  | EmptyString => true
  | String c s' => Ascii.eqb c ":" && validOptionalPort_digits s'
  end.

Fixpoint validUserinfo (s : string) : bool :=
  match s with
  | EmptyString => true
  | String c s' =>
      (is_alnum c || in_str c "-._:~!$&'()*+,;=%@") && validUserinfo s'
  end.

(** [strings.Index(s, sub)] as a split: the text before the first
    occurrence of [sub] and the text from it on. *)
Fixpoint CutAt (s sub : string) : option (string * string) :=
  if strings.HasPrefix s sub then Some (EmptyString, s)
  else match s with
       | EmptyString => None
       | String c s' =>
           match CutAt s' sub with
           | Some (b, r) => Some (String c b, r)
           | None => None
           end
       end.

Definition parseHost (host : string) : option string :=
  let plain := unescape host encodeHost in
  if strings.HasPrefix host "[" then
    match strings.CutLast host "]" with
    | None => None
    | Some (inner, colonPort) =>
        if negb (validOptionalPort colonPort) then None
        else match CutAt inner "%25" with
             | Some (h1, zone) =>
                 host1 ← unescape h1 encodeHost;
                 host2 ← unescape zone encodeZone;
                 host3 ← unescape ("]" +:+ colonPort) encodeHost;
                 Some (host1 +:+ host2 +:+ host3)
             | None => plain
             end
    end
  else
    match strings.CutLast host ":" with
    | Some (_, port) =>
        if validOptionalPort (":" +:+ port) then plain else None
    | None => plain
    end.

Definition parseAuthority (authority : string) : option (option Userinfo * string) :=
  match strings.CutLast authority "@" with
  | None => host ← parseHost authority; Some (None, host)
  | Some (userinfo, hostpart) =>
      host ← parseHost hostpart;
      if negb (validUserinfo userinfo) then None
      else match strings.Cut userinfo ":" with
           | None =>
               name ← unescape userinfo encodeUserPassword;
               Some (Some (mkUserinfo name "" false), host)
           | Some (name, pass) =>
               name' ← unescape name encodeUserPassword;
               pass' ← unescape pass encodeUserPassword;
               Some (Some (mkUserinfo name' pass' true), host)
           end
  end.

Definition setPath (u : URL) (p : string) : option URL :=
  path ← unescape p encodePath;
  let raw := if String.eqb p (escape path encodePath) then "" else p in
  Some (mkURL (Scheme u) (Opaque u) (User u) (Host u) path raw
              (OmitHost u) (ForceQuery u) (RawQuery u) (Fragment u) (RawFragment u)).

Definition setFragment (u : URL) (f : string) : option URL :=
  frag ← unescape f encodeFragment;
  let raw := if String.eqb f (escape frag encodeFragment) then "" else f in
  Some (mkURL (Scheme u) (Opaque u) (User u) (Host u) (Path u) (RawPath u)
              (OmitHost u) (ForceQuery u) (RawQuery u) frag raw).

(** The unexported [parse(rawURL, viaRequest = false)]. *)
Definition parse (rawURL : string) : option URL :=
  if stringContainsCTLByte rawURL then None
  else if String.eqb rawURL "*" then Some (set_Path empty "*")
  else
    '(scheme0, rest0) ← getScheme rawURL;
    let scheme := strings.ToLower scheme0 in
    let '(rest, force, query) :=
      if strings.HasSuffix rest0 "?" && (strings.CountByte rest0 "?" =? 1)%nat
      then (strings.TrimSuffix rest0 "?", true, "")
      else match strings.Cut rest0 "?" with
           | Some (b, q) => (b, false, q)
           | None => (rest0, false, "")
           end in
    let u0 := mkURL scheme "" None "" "" "" false force query "" "" in
    let rooted := strings.HasPrefix rest "/" in
    if negb rooted && negb (String.eqb scheme "") then
      Some (mkURL scheme rest None "" "" "" false force query "" "")
    else if negb rooted &&
            strings.ContainsByte
              (match strings.Cut rest "/" with Some (seg, _) => seg | None => rest end) ":"
    then None
    else if (negb (String.eqb scheme "") || negb (strings.HasPrefix rest "///"))
            && strings.HasPrefix rest "//" then
      let auth := strings.drop 2 rest in
      let '(authority, rest') :=
        match strings.Cut auth "/" with
        | Some (a, r) => (a, "/" +:+ r)
        | None => (auth, "")
        end in
      '(user, host) ← parseAuthority authority;
      setPath (mkURL scheme "" user host "" "" false force query "" "") rest'
    else if negb (String.eqb scheme "") && rooted then
      setPath (mkURL scheme "" None "" "" "" true force query "" "") rest
    else setPath u0 rest.

Definition Parse (rawURL : string) : option URL :=
  match strings.Cut rawURL "#" with
  | None => parse rawURL
  | Some (u, frag) =>
      url ← parse u;
      if String.eqb frag "" then Some url else setFragment url frag
  end.

Definition EscapedPath (u : URL) : string :=
  if negb (String.eqb (RawPath u) "") && validEncoded (RawPath u) encodePath
     && bool_decide (unescape (RawPath u) encodePath = Some (Path u))
  then RawPath u
  else if String.eqb (Path u) "*" then "*"
  else escape (Path u) encodePath.

Definition EscapedFragment (u : URL) : string :=
  if negb (String.eqb (RawFragment u) "") && validEncoded (RawFragment u) encodeFragment
     && bool_decide (unescape (RawFragment u) encodeFragment = Some (Fragment u))
  then RawFragment u
  else escape (Fragment u) encodeFragment.

Definition Userinfo_String (ui : Userinfo) : string :=
  escape (username ui) encodeUserPassword +:+
  (if passwordSet ui then ":" +:+ escape (password ui) encodeUserPassword else "").

Definition String (u : URL) : string :=
  let scheme := if String.eqb (Scheme u) "" then "" else Scheme u +:+ ":" in
  let body :=
    if negb (String.eqb (Opaque u) "") then scheme +:+ Opaque u
    else
      let has_user := match User u with Some _ => true | None => false end in
      let host_empty := String.eqb (Host u) "" in
      let authority :=
        if negb (String.eqb (Scheme u) "") || negb host_empty || has_user then
          if OmitHost u && host_empty && negb has_user then ""
          else
            (if negb host_empty || negb (String.eqb (Path u) "") || has_user
             then "//" else "") +:+
            (match User u with
             | Some ui => Userinfo_String ui +:+ "@"
             | None => ""
             end) +:+
            (if host_empty then "" else escape (Host u) encodeHost)
        else "" in
      let buf := scheme +:+ authority in
      let path := EscapedPath u in
      let slash :=
        if negb (String.eqb path "") && negb (strings.HasPrefix path "/")
           && negb host_empty then "/" else "" in
      let buf := buf +:+ slash in
      let dot :=
        if String.eqb buf "" &&
           strings.ContainsByte
             (match strings.Cut path "/" with Some (seg, _) => seg | None => path end) ":"
        then "./" else "" in
      buf +:+ dot +:+ path in
  body +:+
  (if ForceQuery u || negb (String.eqb (RawQuery u) "") then "?" +:+ RawQuery u else "") +:+
  (if String.eqb (Fragment u) "" then "" else "#" +:+ EscapedFragment u).

End url.

(** ** The three regular expressions of the program

    Go's [regexp] is leftmost-first.  In each of the three patterns a
    repetition is followed by a byte outside its class, so at a given
    start there is at most one way to match, and the matchers below
    read the pattern from left to right. *)

(** The longest prefix of [s] whose bytes satisfy [p], and the rest. *)
Fixpoint span (p : ascii -> bool) (s : string) : string * string :=
  match s with
  | EmptyString => (EmptyString, EmptyString)
  | String c s' =>
      if p c then let '(a, r) := span p s' in (String c a, r)
      else (EmptyString, s)
  end.

Definition srcset_url_byte (c : ascii) : bool :=
  negb (re_space c) && negb (Ascii.eqb c ",").

(** A match of [srcsetRe = ,?\s*([^\s,]+)\s+(\d+)w] at the start of
    [s]: the two groups and the number of bytes matched. *)
Definition srcsetRe_match (s : string) : option (string * string * nat) :=
  let s1 := match s with
            | String c s' => if Ascii.eqb c "," then s' else s
            | EmptyString => s
            end in
  let '(_, s2) := span re_space s1 in
  let '(u, s3) := span srcset_url_byte s2 in
  let '(ws, s4) := span re_space s3 in
  let '(d, s5) := span is_digit s4 in
  match s5 with
  | String c s6 =>
      if Ascii.eqb c "w" && negb (String.eqb u "") && negb (String.eqb ws "")
         && negb (String.eqb d "")
      then Some (u, d, (String.length s - String.length s6)%nat)
      else None
  | EmptyString => None
  end.

(** [srcsetRe.FindAllStringSubmatch(s, -1)], as the list of the groups
    [(m[1], m[2])]: [skip] counts the bytes of the current match that
    are still to be passed over before the search resumes. *)
Fixpoint srcsetRe_FindAll (skip : nat) (s : string) : list (string * string) :=
  match s with
  | EmptyString => []
  | String _ s' =>
      match skip with
      | S k => srcsetRe_FindAll k s'
      | O =>
          match srcsetRe_match s with
          | Some (u, d, len) => (u, d) :: srcsetRe_FindAll (Nat.pred len) s'
          | None => srcsetRe_FindAll O s'
          end
      end
  end.

(** A full match of [-(?:\d+)x(?:\d+)(?:-[0-9]+)?] against [s]. *)
Definition wpSizeSuffixRe_full (s : string) : bool :=
  match s with
  | String c s1 =>
      let '(d1, s2) := span is_digit s1 in
      match s2 with
      | String x s3 =>
          let '(d2, s4) := span is_digit s3 in
          Ascii.eqb c "-" && negb (String.eqb d1 "") && Ascii.eqb x "x"
          && negb (String.eqb d2 "")
          && match s4 with
             | EmptyString => true
             | String m s5 =>
                 let '(d3, s6) := span is_digit s5 in
                 Ascii.eqb m "-" && negb (String.eqb d3 "") && String.eqb s6 ""
             end
      | EmptyString => false
      end
  | EmptyString => false
  end.

(** A full match of [-scaled(?:-[0-9]+)?] against [s]. *)
Definition wpScaledSuffixRe_full (s : string) : bool :=
  strings.HasPrefix s "-scaled" &&
  match strings.drop 7 s with
  | EmptyString => true
  | String m s5 =>
      let '(d3, s6) := span is_digit s5 in
      Ascii.eqb m "-" && negb (String.eqb d3 "") && String.eqb s6 ""
  end.

(** [re.ReplaceAllString(s, "")] for a pattern that ends in [$]: the
    leftmost start from which the rest of [s] matches is where the only
    match begins, and the match is cut off. *)
Fixpoint strip_suffix_match (full : string -> bool) (s : string) : string :=
  if full s then EmptyString
  else match s with
       | EmptyString => EmptyString
       | String c s' => String c (strip_suffix_match full s')
       end.

(** ** Media locator *)

Definition int_max : Z := 9223372036854775807.

Fixpoint decimal (acc : Z) (s : string) : Z :=
  match s with
  | EmptyString => acc
  | String c s' => decimal (10 * acc + Z.of_N (code c - 48)) s'
  end.

(** [var w int; fmt.Sscanf(wStr, "%d", &w)] on a string of digits: a
    number that does not fit in an [int] (64 bits) makes [Sscanf] fail,
    and [w] keeps its zero value. *)
Definition Sscanf_d (wStr : string) : Z :=
  let v := decimal 0 wStr in
  if v <=? int_max then v else 0.

Definition stripWPSuffixes (name : string) : string :=
  let name := strip_suffix_match wpSizeSuffixRe_full name in
  let name := strip_suffix_match wpScaledSuffixRe_full name in
  name.

Definition toOriginalURL (raw : string) : string :=
  match url.Parse raw with
  | None => raw
  | Some u =>
      let base := path.Base (url.Path u) in
      let dir := path.Dir (url.Path u) in
      let ext := path.Ext base in
      let name := strings.TrimSuffix base ext in
      let name := stripWPSuffixes name in
      url.String (url.set_Path u (path.Join [dir; name +:+ ext]))
  end.

Definition pickBestSrc_step (acc : string * Z) (m : string * string) : string * Z :=
  let '(best, maxW) := acc in
  let u := fst m in
  let w := Sscanf_d (snd m) in
  if w >? maxW then (u, w) else (best, maxW).

Definition pickBestSrc (src srcset : string) : string :=
  let src := strings.TrimSpace src in
  let srcset := strings.TrimSpace srcset in
  fst (fold_left pickBestSrc_step (srcsetRe_FindAll 0 srcset) (src, -1)).

Definition filenameFromURL (raw : string) : string :=
  match url.Parse raw with
  | None => path.Base raw
  | Some u =>
      let name := path.Base (url.Path u) in
      if String.eqb name "" || String.eqb name "/" then "image" else name
  end.

(** ** Download coordinator *)

(** The [downloader]: [sem] is the capacity of the semaphore channel,
    [seen] the keys of the [sync.Map], and [spawned] the goroutines
    started so far, each of which calls [downloadFile(url, dest)]
    once. *)
Record downloader := mkDownloader {
  sem : Z;
  seen : gset string;
  spawned : list (string * string)
}.

Definition newDownloader (concurrency : Z) : downloader :=
  let concurrency := if concurrency <? 1 then 1 else concurrency in
  mkDownloader concurrency ∅ [].

(** [d.seen.LoadOrStore(url, struct{}{})] is one atomic step, so a
    call of [Schedule] is a step of the coordinator's state. *)
Definition Schedule (url dest : string) (d : downloader) : downloader :=
  if bool_decide (url ∈ seen d) then d
  else mkDownloader (sem d) ({[url]} ∪ seen d) (spawned d ++ [(url, dest)]).

(** *** [downloadFile] *)

Inductive error :=
| ErrNewRequest
| ErrDo
| ErrHTTP (status : Z)
| ErrMkdirAll
| ErrCreate
| ErrCopy.

(** What the network and the file system do at one attempt: either
    [client.Do] fails, or a response with a status arrives and
    [os.MkdirAll], [os.Create] and [io.Copy] succeed or fail. *)
Inductive attempt_world :=
| DoFails
| Responds (status : Z) (mkdir_ok create_ok copy_ok : bool).

Inductive event :=
| Get (attempt : Z)
| Sleep (seconds : Z)
| Create (p : string)
| Remove (p : string).

(** The files that exist, and what the task has done so far, oldest
    event first. *)
Record os := mkOs {
  files : gset string;
  trace : list event
}.

Definition log (e : event) (st : os) : os := mkOs (files st) (trace st ++ [e]).
Definition os_Create (p : string) (st : os) : os :=
  log (Create p) (mkOs ({[p]} ∪ files st) (trace st)).
Definition os_Remove (p : string) (st : os) : os :=
  log (Remove p) (mkOs (files st ∖ {[p]}) (trace st)).

(** The function literal that handles a response: the new [lastErr],
    the new [attempt] (a client error sets it to 3) and the new state.
    The deferred function removes the file when [lastErr] is set. *)
Definition handle_response (status : Z) (mkdir_ok create_ok copy_ok : bool)
    (dest : string) (attempt : Z) (st : os) : option error * Z * os :=
  if status >=? 500 then (Some (ErrHTTP status), attempt, st)
  else if status >=? 400 then (Some (ErrHTTP status), 3, st)
  else if negb mkdir_ok then (Some ErrMkdirAll, attempt, st)
  else if negb create_ok then (Some ErrCreate, attempt, st)
  else
    let st := os_Create dest st in
    let lastErr := if copy_ok then None else Some ErrCopy in
    let st := match lastErr with
              | Some _ => os_Remove dest st
              | None => st
              end in
    (lastErr, attempt, st).

(** The loop [for attempt := 1; attempt <= 3; attempt++]; [fuel]
    bounds the number of iterations. *)
Fixpoint downloadFile_loop (fuel : nat) (world : Z -> attempt_world)
    (rawURL dest : string) (attempt : Z) (lastErr : option error) (st : os)
    : option error * os :=
  match fuel with
  | O => (lastErr, st)
  | S fuel' =>
      if attempt >? 3 then (lastErr, st)
      else match url.Parse rawURL with
      | None => (Some ErrNewRequest, st)
      | Some _ =>
          let st := log (Get attempt) st in
          match world attempt with
          | DoFails =>
              let lastErr := Some ErrDo in
              if attempt <? 3 then
                downloadFile_loop fuel' world rawURL dest (attempt + 1) lastErr
                                  (log (Sleep (attempt * 2)) st)
              else (lastErr, st)
          | Responds status mkdir_ok create_ok copy_ok =>
              let '(lastErr, attempt, st) :=
                handle_response status mkdir_ok create_ok copy_ok dest attempt st in
              match lastErr with
              | None => (None, st)
              | Some _ =>
                  let st := if attempt <? 3 then log (Sleep (attempt * 2)) st else st in
                  downloadFile_loop fuel' world rawURL dest (attempt + 1) lastErr st
              end
          end
      end
  end.

Definition downloadFile (world : Z -> attempt_world) (rawURL dest : string) (st : os)
    : option error * os :=
  downloadFile_loop 4 world rawURL dest 1 None st.

(** ** HTML documents

    An HTML text is represented by the forest of nodes that the parser
    of [golang.org/x/net/html] yields for it, a parsed document by a
    store of nodes addressed by pointers, which goquery's selections
    hold and the rewriter updates in place.  Attributes are a finite
    map, as the parser never yields a name twice. *)

Inductive tree :=
| Text (data : string)
| Comment (data : string)
| Element (tag : string) (attr : gmap string string) (kids : list tree).

Module html.

Inductive NodeType := TextNode | DocumentNode | ElementNode | CommentNode.

Record Node := mkNode {
  Type_ : NodeType;
  Data : string;
  Attr : gmap string string;
  Parent : option nat;
  Children : list nat
}.

Definition is_element (n : Node) : bool :=
  match Type_ n with ElementNode => true | _ => false end.

Definition set_Attr (f : gmap string string -> gmap string string) (n : Node) : Node :=
  mkNode (Type_ n) (Data n) (f (Attr n)) (Parent n) (Children n).

Definition set_Parent (q : option nat) (n : Node) : Node :=
  mkNode (Type_ n) (Data n) (Attr n) q (Children n).

Definition set_Children (f : list nat -> list nat) (n : Node) : Node :=
  mkNode (Type_ n) (Data n) (Attr n) (Parent n) (f (Children n)).

End html.

(** ** goquery and cascadia *)

Module goquery.

Import html.

(** The selectors the program uses: a tag, a class, a tag with a
    class; a selector group is a list of them. *)
Inductive simple_selector :=
| Tag (t : string)
| Class (c : string)
| TagClass (t c : string).

Definition selector := list simple_selector.

(** The words of a [class] attribute, separated by space, tab,
    newline, form feed or carriage return. *)
Fixpoint class_words (cur : string) (s : string) : list string :=
  match s with
  | EmptyString => [cur]
  | String c s' =>
      if re_space c then cur :: class_words EmptyString s'
      else class_words (cur +:+ String c EmptyString) s'
  end.

Definition has_class (attr : gmap string string) (c : string) : bool :=
  match attr !! "class" with
  | Some v => bool_decide (c ∈ class_words EmptyString v) && negb (String.eqb v "")
  | None => false
  end.

Definition matches_simple (tag : string) (attr : gmap string string)
    (sel : simple_selector) : bool :=
  match sel with
  | Tag t => String.eqb tag t
  | Class c => has_class attr c
  | TagClass t c => String.eqb tag t && has_class attr c
  end.

Definition matches_elem (tag : string) (attr : gmap string string) (sel : selector) : bool :=
  existsb (matches_simple tag attr) sel.

(** *** Selections over a parsed document *)

Record Document := mkDocument {
  nodes : gmap nat Node;
  root : nat
}.

Definition set_nodes (f : gmap nat Node -> gmap nat Node) (d : Document) : Document :=
  mkDocument (f (nodes d)) (root d).

Definition matches (d : Document) (sel : selector) (p : nat) : bool :=
  match nodes d !! p with
  | Some n => is_element n && matches_elem (Data n) (Attr n) sel
  | None => false
  end.

Definition Contents (d : Document) (p : nat) : list nat :=
  match nodes d !! p with
  | Some n => Children n
  | None => []
  end.

(** The nodes below [p] in document order. *)
Fixpoint descendants (fuel : nat) (d : Document) (p : nat) : list nat :=
  match fuel with
  | O => []
  | S fuel' => flat_map (fun c => c :: descendants fuel' d c) (Contents d p)
  end.

(** A selection holds a node once: the first occurrence stays. *)
Fixpoint unique (seen : list nat) (l : list nat) : list nat :=
  match l with
  | [] => []
  | p :: l' =>
      if bool_decide (p ∈ seen) then unique seen l'
      else p :: unique (p :: seen) l'
  end.

Definition Find (d : Document) (p : nat) (sel : selector) : list nat :=
  unique [] (filter (fun q => matches d sel q = true) (descendants (size (nodes d)) d p)).

(** The element ancestors of [p], the closest first. *)
Fixpoint Parents_from (fuel : nat) (d : Document) (p : nat) : list nat :=
  match fuel with
  | O => []
  | S fuel' =>
      match nodes d !! p with
      | Some n =>
          match Parent n with
          | Some q =>
              (if match nodes d !! q with
                  | Some m => is_element m
                  | None => false
                  end
               then [q] else []) ++ Parents_from fuel' d q
          | None => []
          end
      | None => []
      end
  end.

Definition Parents (d : Document) (p : nat) : list nat :=
  unique [] (Parents_from (size (nodes d)) d p).

Definition ParentsFiltered (d : Document) (p : nat) (sel : selector) : list nat :=
  filter (fun q => matches d sel q = true) (Parents d p).

Definition Attr (d : Document) (p : nat) (name : string) : option string :=
  n ← nodes d !! p; html.Attr n !! name.

(** [v, _ := s.Attr(name)]: the empty string when there is none. *)
Definition AttrOr (d : Document) (p : nat) (name : string) : string :=
  default "" (Attr d p name).

Definition SetAttr (d : Document) (p : nat) (name val : string) : Document :=
  set_nodes (alter (set_Attr (insert name val)) p) d.

Definition RemoveAttr (d : Document) (p : nat) (name : string) : Document :=
  set_nodes (alter (set_Attr (delete name)) p) d.

(** Allocation of a forest below [parent]: the pointers of its
    roots and the new store. *)
Fixpoint alloc (parent : option nat) (t : tree) (h : gmap nat Node) : nat * gmap nat Node :=
  let p := fresh (dom h) in
  match t with
  | Text s => (p, <[p := mkNode TextNode s ∅ parent []]> h)
  | Comment s => (p, <[p := mkNode CommentNode s ∅ parent []]> h)
  | Element tag attr kids =>
      let h1 := <[p := mkNode ElementNode tag attr parent []]> h in
      let '(ks, h2) :=
        (fix go (ts : list tree) (h : gmap nat Node) : list nat * gmap nat Node :=
           match ts with
           | [] => ([], h)
           | t :: ts' =>
               let '(k, h') := alloc (Some p) t h in
               let '(ks, h'') := go ts' h' in
               (k :: ks, h'')
           end) kids h1 in
      (p, alter (set_Children (fun _ => ks)) p h2)
  end.

Fixpoint alloc_forest (parent : option nat) (ts : list tree) (h : gmap nat Node)
    : list nat * gmap nat Node :=
  match ts with
  | [] => ([], h)
  | t :: ts' =>
      let '(k, h') := alloc parent t h in
      let '(ks, h'') := alloc_forest parent ts' h' in
      (k :: ks, h'')
  end.

(** [list] with the first [p] replaced by [new]. *)
Fixpoint splice (p : nat) (new : list nat) (l : list nat) : list nat :=
  match l with
  | [] => []
  | q :: l' => if bool_decide (q = p) then new ++ l' else q :: splice p new l'
  end.

(** [s.ReplaceWithHtml(h)] for the selection of the one node [p]:
    the nodes parsed from [h] in the context of [p]'s parent are
    inserted where [p] is, and [p] is detached; a node without a
    parent is left alone.  [parse] is [html.ParseFragment], given
    the tag of the context element. *)
Definition ReplaceWithHtml (parse : string -> string -> list tree)
    (d : Document) (p : nat) (h : string) : Document :=
  match nodes d !! p with
  | Some n =>
      match Parent n with
      | Some q =>
          let ctx := match nodes d !! q with Some m => Data m | None => "" end in
          let '(new, h1) := alloc_forest (Some q) (parse ctx h) (nodes d) in
          let h2 := alter (set_Children (splice p new)) q h1 in
          let h3 := alter (set_Parent None) p h2 in
          mkDocument h3 (root d)
      | None => d
      end
  | None => d
  end.

(** The forest below a node, read back from the store. *)
Fixpoint to_tree (fuel : nat) (d : Document) (p : nat) : list tree :=
  match fuel with
  | O => []
  | S fuel' =>
      match nodes d !! p with
      | Some n =>
          match Type_ n with
          | TextNode => [Text (Data n)]
          | CommentNode => [Comment (Data n)]
          | ElementNode =>
              [Element (Data n) (html.Attr n) (flat_map (to_tree fuel' d) (Children n))]
          | DocumentNode => flat_map (to_tree fuel' d) (Children n)
          end
      | None => []
      end
  end.

(** [goquery.OuterHtml] of the node [p], as a forest. *)
Definition OuterHtml (d : Document) (p : nat) : list tree :=
  to_tree (S (size (nodes d))) d p.

(** [goquery.NewDocumentFromReader]: the parser puts the content of
    a fragment into the [body] of an [html] element. *)
Definition NewDocument (content : list tree) : Document :=
  let h0 : gmap nat Node := {[ 0%nat := mkNode DocumentNode "" ∅ None [] ]} in
  let '(p, h1) := alloc (Some 0%nat)
                    (Element "html" ∅ [Element "head" ∅ []; Element "body" ∅ content]) h0 in
  mkDocument (alter (set_Children (fun _ => [p])) 0%nat h1) 0%nat.

(** *** Selections over a forest (a document that is only read) *)

Fixpoint tree_descendants (t : tree) : list tree :=
  match t with
  | Element _ _ kids => flat_map (fun k => k :: tree_descendants k) kids
  | _ => []
  end.

Definition tree_matches (sel : selector) (t : tree) : bool :=
  match t with
  | Element tag attr _ => matches_elem tag attr sel
  | _ => false
  end.

Definition tree_Find (t : tree) (sel : selector) : list tree :=
  filter (fun k => tree_matches sel k = true) (tree_descendants t).

Definition tree_Attr (t : tree) (name : string) : option string :=
  match t with
  | Element _ attr _ => attr !! name
  | _ => None
  end.

Definition tree_AttrOr (t : tree) (name : string) : string :=
  default "" (tree_Attr t name).

(** [s.Text()]: the text nodes of the subtree, joined. *)
Fixpoint tree_Text (t : tree) : string :=
  match t with
  | Text s => s
  | Comment _ => EmptyString
  | Element _ _ kids => fold_right (fun k acc => tree_Text k +:+ acc) EmptyString kids
  end.

Definition NodeName (t : tree) : string :=
  match t with
  | Text _ => "#text"
  | Comment _ => "#comment"
  | Element tag _ _ => tag
  end.

End goquery.

(** ** Document rewriter *)

Section Rewriter.

Import goquery.

(** The flag [-static] and the fragment parser of the HTML library. *)
Variable staticDir : string.
Variable ParseFragment : string -> string -> list tree.

Definition rewrite_state : Type := Document * downloader.

(** The callback of [doc.Find("img").Each].  The directories that
    [os.MkdirAll(base)] creates are not part of the state. *)
Definition rewriteImg (slug : string) (st : rewrite_state) (s : nat) : rewrite_state :=
  let '(doc, dl) := st in
  let cls := AttrOr doc s "class" in
  let src := AttrOr doc s "src" in
  if strings.Contains cls "wp-smiley"
     || strings.Contains src "/s.w.org/images/core/emoji/" then
    match Attr doc s "alt" with
    | Some alt =>
        if negb (String.eqb (strings.TrimSpace alt) "")
        then (ReplaceWithHtml ParseFragment doc s alt, dl)
        else (ReplaceWithHtml ParseFragment doc s "", dl)
    | None => (ReplaceWithHtml ParseFragment doc s "", dl)
    end
  else
    let parentGallery := ParentsFiltered doc s [Class "wp-block-gallery"] in
    let isGallery := (0 <? length parentGallery)%nat in
    let srcset := AttrOr doc s "srcset" in
    let best := pickBestSrc src srcset in
    if String.eqb best "" then st
    else
      let origURL := toOriginalURL best in
      let area := if isGallery then "galleries" else "images" in
      let base := path.Join [staticDir; area; slug] in
      let relBase := path.Join ["/" +:+ area; slug] in
      let filename := filenameFromURL origURL in
      let dest := path.Join [base; filename] in
      let rel := path.Join [relBase; filename] in
      let dl := Schedule origURL dest dl in
      let doc := RemoveAttr doc s "srcset" in
      let doc := RemoveAttr doc s "sizes" in
      let doc := SetAttr doc s "src" rel in
      match ParentsFiltered doc s [Tag "a"] with
      | a :: _ => (SetAttr doc a "href" rel, dl)
      | [] => (doc, dl)
      end.

(** The source URL of a video: its own [src], or that of its first
    [source] element. *)
Definition video_src (doc : Document) (v : nat) : string :=
  let src := AttrOr doc v "src" in
  if String.eqb (strings.TrimSpace src) "" then
    match Find doc v [Tag "source"] with
    | vv :: _ => AttrOr doc vv "src"
    | [] => src
    end
  else src.

(** The callback of [doc.Find("video").Each]. *)
Definition rewriteVideo (slug : string) (st : rewrite_state) (v : nat) : rewrite_state :=
  let '(doc, dl) := st in
  let src := video_src doc v in
  if String.eqb (strings.TrimSpace src) "" then st
  else
    let base := path.Join [staticDir; "videos"; slug] in
    let relBase := path.Join ["/videos"; slug] in
    let filename := filenameFromURL src in
    let dest := path.Join [base; filename] in
    let rel := path.Join [relBase; filename] in
    let dl := Schedule src dest dl in
    let doc := SetAttr doc v "src" rel in
    let doc := fold_left (fun d s => SetAttr d s "src" rel) (Find doc v [Tag "source"]) doc in
    (doc, dl).

(** The two passes over the parsed document. *)
Definition rewriteImages (slug : string) (st : rewrite_state) : rewrite_state :=
  fold_left (rewriteImg slug) (Find (fst st) (root (fst st)) [Tag "img"]) st.

Definition rewriteVideos (slug : string) (st : rewrite_state) : rewrite_state :=
  fold_left (rewriteVideo slug) (Find (fst st) (root (fst st)) [Tag "video"]) st.

Definition rewriteDocument (slug : string) (st : rewrite_state) : rewrite_state :=
  rewriteVideos slug (rewriteImages slug st).

(** The serialisation at the end: the contents of the [body]
    elements, or of the document when there is none. *)
Definition serialize (doc : Document) : list tree :=
  let bodies := Find doc (root doc) [Tag "body"] in
  let parts := match bodies with
               | [] => Contents doc (root doc)
               | _ => flat_map (Contents doc) bodies
               end in
  flat_map (OuterHtml doc) parts.

Definition rewriteAndDownloadImages (html : list tree) (slug : string) (dl : downloader)
    : list tree * downloader :=
  let '(doc, dl) := rewriteDocument slug (NewDocument html, dl) in
  (serialize doc, dl).

End Rewriter.

(** ** Package [html-to-markdown] (version 1)

    The converter built by [md.NewConverter("", false, nil)]: with
    CommonMark switched off there are no rules but the ones added
    with [AddRules]; every other node, text nodes among them, gets
    the default rule, which hands on the Markdown of its children. *)

Module md.

Import goquery.

(** A [Replacement]: from the Markdown of the children and the
    node to the Markdown of the node, or [None] for Go's [nil]. *)
Definition Replacement : Type := string -> tree -> option string.

Record Rule := mkRule {
  Filter : list string;
  Replace : Replacement
}.

(** The rules of a converter, in the order they were added. *)
Abbreviation Converter := (list Rule).

Definition NewConverter : Converter := [].

Definition AddRules (conv : Converter) (r : Rule) : Converter := (conv ++ [r])%list.

Definition getRuleFuncs (conv : Converter) (tag : string) : list Replacement :=
  map Replace (filter (fun r => tag ∈ Filter r) conv).

(** The loop over the rules of a node, the last one added first:
    the first rule that does not skip writes its result. *)
Fixpoint apply_rules (rules : list Replacement) (content : string) (s : tree) : string :=
  match rules with
  | [] => EmptyString
  | r :: rules' =>
      match r content s with
      | Some res => res
      | None => apply_rules rules' content s
      end
  end.

Definition apply_node (conv : Converter) (content : string) (s : tree) : string :=
  match getRuleFuncs conv (NodeName s) with
  | [] => content
  | rules => apply_rules (rev rules) content s
  end.

(** [selecToMD] for one node of the selection's contents. *)
Fixpoint nodeToMD (conv : Converter) (s : tree) : string :=
  let content :=
    match s with
    | Element _ _ kids =>
        (fix contents (ks : list tree) : string :=
           match ks with
           | [] => EmptyString
           | k :: ks' => nodeToMD conv k +:+ contents ks'
           end) kids
    | _ => EmptyString
    end in
  apply_node conv content s.

(** [multipleNewLinesRegex.ReplaceAllString(s, "\n\n")] for the
    pattern [[\n]{2,}]; [run] counts the newlines just passed. *)
Fixpoint collapse_newlines (run : nat) (s : string) : string :=
  match s with
  | EmptyString => EmptyString
  | String c s' =>
      if Ascii.eqb c (chr 10) then
        if (run <? 2)%nat then String c (collapse_newlines (S run) s')
        else collapse_newlines (S run) s'
      else String c (collapse_newlines O s')
  end.

Definition newline : string := String (chr 10) EmptyString.

Definition TrimTrailingSpaces (text : string) : string :=
  strings.Join (map strings.TrimRight (strings.SplitByte text (chr 10))) newline.

Definition after_hook (markdown : string) : string :=
  TrimTrailingSpaces (collapse_newlines O (strings.TrimSpace markdown)).

(** [conv.ConvertString(h)] for the HTML of one node: the text is
    parsed as a document of its own, so the node lies in the [body]
    of an [html] element. *)
Definition ConvertString (conv : Converter) (s : tree) : string :=
  after_hook
    (nodeToMD conv (Element "html" ∅ [Element "head" ∅ []; Element "body" ∅ [s]])).

End md.

(** ** Content transformer *)

Definition nl : string := md.newline.

Definition image_markdown (alt src : string) : string :=
  "![" +:+ alt +:+ "](" +:+ src +:+ ")" +:+ nl +:+ nl.

Definition p_rule : md.Rule :=
  md.mkRule ["p"] (fun content _ =>
    let content := strings.TrimSpace content in
    if String.eqb content "" then None else Some (content +:+ nl +:+ nl)).

Definition br_rule : md.Rule :=
  md.mkRule ["br"] (fun _ _ => Some nl).

Definition img_rule : md.Rule :=
  md.mkRule ["img"] (fun _ selec =>
    let src := goquery.tree_AttrOr selec "src" in
    let alt := goquery.tree_AttrOr selec "alt" in
    let alt := strings.TrimSpace alt in
    let alt := if String.eqb alt "" then path.Base src else alt in
    if String.eqb src "" then None else Some (image_markdown alt src)).

Definition conv : list md.Rule :=
  md.AddRules (md.AddRules (md.AddRules md.NewConverter p_rule) br_rule) img_rule.

Definition gallery_selector : goquery.selector :=
  [goquery.Class "wp-block-gallery"; goquery.TagClass "figure" "wp-block-gallery"].

Definition video_selector : goquery.selector :=
  [goquery.Class "wp-block-video"; goquery.TagClass "figure" "wp-block-video";
   goquery.Tag "video"].

(** The callback of the gallery's [s.Find("img").Each]. *)
Definition gallery_image (b : string) (img : tree) : string :=
  let src := goquery.tree_AttrOr img "src" in
  let alt := goquery.tree_AttrOr img "alt" in
  let alt := strings.TrimSpace alt in
  let alt := if String.eqb alt "" then path.Base src else alt in
  if negb (String.eqb src "") then b +:+ image_markdown alt src else b.

Definition video_markdown (b : string) (s : tree) : string :=
  let vs := if goquery.tree_matches [goquery.Tag "video"] s then Some s
            else head (goquery.tree_Find s [goquery.Tag "video"]) in
  match vs with
  | Some v =>
      let src := goquery.tree_AttrOr v "src" in
      let src := if String.eqb (strings.TrimSpace src) "" then
                   match goquery.tree_Find v [goquery.Tag "source"] with
                   | vv :: _ => goquery.tree_AttrOr vv "src"
                   | [] => src
                   end
                 else src in
      if negb (String.eqb (strings.TrimSpace src) "") then
        b +:+ "[Video: " +:+ path.Base src +:+ "](" +:+ src +:+ ")" +:+ nl +:+ nl
      else b
  | None => b
  end.

(** The callback of [roots.Each]: [b] is the [strings.Builder]. *)
Definition root_callback (b : string) (s : tree) : string :=
  if String.eqb (goquery.NodeName s) "#text" then
    if String.eqb (strings.TrimSpace (goquery.tree_Text s)) "" then b
    else b +:+ strings.TrimSpace (goquery.tree_Text s) +:+ nl +:+ nl
  else if goquery.tree_matches gallery_selector s then
    fold_left gallery_image (goquery.tree_Find s [goquery.Tag "img"]) b
  else if goquery.tree_matches video_selector s then
    video_markdown b s
  else
    let frag := md.ConvertString conv s in
    if String.eqb (strings.TrimSpace frag) "" then
      let txt := strings.TrimSpace (goquery.tree_Text s) in
      if negb (String.eqb txt "") then b +:+ txt +:+ nl +:+ nl else b
    else
      let b := b +:+ frag in
      if negb (strings.HasSuffix frag nl) then b +:+ nl else b.

(** [html] is the content of the document's [body], which a parsed
    document always has. *)
Definition toMarkdownPreserveOrder (html : list tree) : string :=
  strings.TrimSpace (fold_left root_callback html EmptyString).

(** ** Auxiliary definitions for the properties *)

(** A sequence of calls of [Schedule], the first call first. *)
Definition schedule_all (calls : list (string * string)) (d : downloader) : downloader :=
  fold_left (fun d c => Schedule (fst c) (snd c) d) calls d.

(** The keys of [seen] are the URLs of the goroutines started, and
    no URL has two goroutines. *)
Definition coherent (d : downloader) : Prop :=
  (forall u, u ∈ seen d <-> u ∈ map fst (spawned d)) /\ NoDup (map fst (spawned d)).

(** The events of one task that starts with the files [files0]. *)
Definition run_task (world : Z -> attempt_world) (rawURL dest : string)
    (files0 : gset string) : option error * os :=
  downloadFile world rawURL dest (mkOs files0 []).

Definition is_get (e : event) : bool :=
  match e with Get _ => true | _ => false end.

(** The number of HTTP requests in a trace. *)
Definition count_gets (tr : list event) : nat := length (filter (fun e => is_get e = true) tr).

(** The three kinds of attempt the retry policy tells apart. *)
Definition server_failure (w : attempt_world) : Prop :=
  match w with
  | DoFails => True
  | Responds status _ _ _ => 500 <= status
  end.

Definition client_error (w : attempt_world) : Prop :=
  match w with
  | DoFails => False
  | Responds status _ _ _ => 400 <= status < 500
  end.

Definition succeeds (w : attempt_world) : Prop :=
  match w with
  | DoFails => False
  | Responds status mkdir_ok create_ok copy_ok =>
      status < 400 /\ mkdir_ok = true /\ create_ok = true /\ copy_ok = true
  end.

(** What one attempt comes to: the task is done, it stops with an
    error, or it is tried again. *)
Inductive verdict :=
| Done
| Stop (e : error)
| Retry (e : error).

Definition attempt_verdict (w : attempt_world) : verdict :=
  match w with
  | DoFails => Retry ErrDo
  | Responds status mkdir_ok create_ok copy_ok =>
      if 500 <=? status then Retry (ErrHTTP status)
      else if 400 <=? status then Stop (ErrHTTP status)
      else if negb mkdir_ok then Retry ErrMkdirAll
      else if negb create_ok then Retry ErrCreate
      else if copy_ok then Done else Retry ErrCopy
  end.

(** The attempt gets as far as [os.Create]. *)
Definition attempt_creates (w : attempt_world) : bool :=
  match w with
  | DoFails => false
  | Responds status mkdir_ok create_ok _ => (status <? 400) && mkdir_ok && create_ok
  end.

(** What an attempt does to the file system after its request. *)
Definition fs_events (w : attempt_world) (dest : string) : list event :=
  if attempt_creates w then
    Create dest :: match attempt_verdict w with Done => [] | _ => [Remove dest] end
  else [].

Definition attempt_events (a : Z) (w : attempt_world) (dest : string) : list event :=
  Get a :: fs_events w dest.

Definition attempt_files (w : attempt_world) (dest : string) (fs : gset string) : gset string :=
  if attempt_creates w then
    match attempt_verdict w with
    | Done => {[dest]} ∪ fs
    | _ => ({[dest]} ∪ fs) ∖ {[dest]}
    end
  else fs.





(** The Markdown of a list of chunks. *)
Definition concat_all (l : list string) : string :=
  fold_right String.append EmptyString l.

(** A paragraph: the trimmed text and a blank line, or nothing. *)
Definition paragraph (text : string) : string :=
  let t := strings.TrimSpace text in
  if String.eqb t "" then "" else t +:+ nl +:+ nl.

(** The reference the gallery branch writes for an image, nothing
    for an image whose [src] is empty. *)
Definition gallery_ref (img : tree) : string :=
  let src := goquery.tree_AttrOr img "src" in
  let alt := strings.TrimSpace (goquery.tree_AttrOr img "alt") in
  if String.eqb src "" then ""
  else image_markdown (if String.eqb alt "" then path.Base src else alt) src.

(** A node without media: no [img] and no [video] element in it, and
    no element with the class of a gallery or video block. *)
Fixpoint media_free (t : tree) : bool :=
  match t with
  | Element tag attr kids =>
      negb (String.eqb tag "img") && negb (String.eqb tag "video")
      && negb (goquery.has_class attr "wp-block-gallery")
      && negb (goquery.has_class attr "wp-block-video")
      && forallb media_free kids
  | _ => true
  end.

Fixpoint all_newlines (s : string) : bool :=
  match s with
  | EmptyString => true
  | String c s' => Ascii.eqb c (chr 10) && all_newlines s'
  end.

(** The Markdown of the children of an element. *)
Definition contentsMD (kids : list tree) : string :=
  concat_all (map (md.nodeToMD conv) kids).

(** The fragment
    [<p>Hello</p><img src="https://x/a-300x200.jpg"
     srcset="https://x/a-150x100.jpg 150w, https://x/a-300x200.jpg 300w"><p>World</p>]
    as the parser yields it. *)
Definition hello_world_fragment : list tree :=
  [ Element "p" ∅ [Text "Hello"];
    Element "img"
      (<["src" := "https://x/a-300x200.jpg"]>
         (<["srcset" := "https://x/a-150x100.jpg 150w, https://x/a-300x200.jpg 300w"]> ∅)) [];
    Element "p" ∅ [Text "World"] ].

(** A fragment without media. *)
Definition plain_fragment : list tree :=
  [ Text "  ";
    Element "p" ∅ [Text " Hello "];
    Text "loose text ";
    Comment "more";
    Element "div" ∅ [Element "span" ∅ [Text "World"]; Element "br" ∅ []] ].

(** A gallery block of two images, the second without [alt]. *)
Definition gallery_block : tree :=
  Element "figure" {["class" := "wp-block-gallery columns-2"]}
    [ Element "figure" ∅
        [Element "img" (<["src" := "/galleries/s/a.jpg"]> {["alt" := " first "]}) []];
      Text "caption";
      Element "img" {["src" := "/galleries/s/b.jpg"]} [] ].

(** A gallery block whose only image has no [src]. *)
Definition lazy_gallery_block : tree :=
  Element "figure" {["class" := "wp-block-gallery"]}
    [Element "img" (<["data-src" := "https://x/a.jpg"]> {["alt" := "x"]}) []].

Fixpoint all_bytes (p : ascii -> bool) (s : string) : bool :=
  match s with
  | EmptyString => true
  | String c s' => p c && all_bytes p s'
  end.

(** The bytes that [net/url] passes through unchanged in a host and a
    path: letters, digits, [-], [_] and [.]. *)
Definition plain_byte (c : ascii) : bool :=
  is_alnum c || Ascii.eqb c "-" || Ascii.eqb c "_" || Ascii.eqb c ".".

Definition plain (s : string) : bool := all_bytes plain_byte s.

(** An element of a clean path: not empty, plain, and neither [.]
    nor [..]. *)
Definition segment (s : string) : bool :=
  negb (String.eqb s "") && plain s && negb (String.eqb s ".") && negb (String.eqb s "..").

(** The directory [/s1/s2/...] of a list of elements. *)
Definition dir_of (segs : list string) : string :=
  concat_all (map (fun s => "/" +:+ s) segs).

(** A suffix that a pattern matches in full, or no suffix. *)
Definition optional_suffix (full : string -> bool) (s : string) : bool :=
  String.eqb s "" || full s.



(** The bytes of a clean URL path: plain bytes and [/]. *)
Definition path_byte (c : ascii) : bool := plain_byte c || Ascii.eqb c "/".

(** The URL [https://host/s1/.../sn/file]. *)
Definition https_url (host : string) (segs : list string) (file : string) : string :=
  "https://" +:+ host +:+ dir_of segs +:+ "/" +:+ file.

(** What [url.Parse] makes of it. *)
Definition https_URL (host path : string) : url.URL :=
  url.mkURL "https" "" None host path "" false false "" "" "".

(** The elements of a path that are not empty. *)
Definition keep_elems (es : list string) : list string :=
  List.filter (fun e => negb (String.eqb e "")) es.

(** An element as [Clean] meets it between two slashes: empty, or a
    segment. *)
Definition elem_ok (e : string) : bool := String.eqb e "" || segment e.


(** ** The rewriter's decisions, one by one *)

(** The test for an emoji icon. *)
Definition is_emoji (doc : goquery.Document) (s : nat) : bool :=
  strings.Contains (goquery.AttrOr doc s "class") "wp-smiley"
  || strings.Contains (goquery.AttrOr doc s "src") "/s.w.org/images/core/emoji/".

(** The best source of an image. *)
Definition image_best (doc : goquery.Document) (s : nat) : string :=
  pickBestSrc (goquery.AttrOr doc s "src") (goquery.AttrOr doc s "srcset").

(** An image the rewriter relocates: no emoji icon, and a best source. *)
Definition relocated (doc : goquery.Document) (s : nat) : bool :=
  negb (is_emoji doc s) && negb (String.eqb (image_best doc s) "").

(** The media area of an image. *)
Definition image_area (doc : goquery.Document) (s : nat) : string :=
  if (0 <? length (goquery.ParentsFiltered doc s [goquery.Class "wp-block-gallery"]))%nat
  then "galleries" else "images".

(** The local path of the file of [raw] in an area. *)
Definition local_path (area slug raw : string) : string :=
  path.Join [path.Join ["/" +:+ area; slug]; filenameFromURL raw].

Definition image_rel (doc : goquery.Document) (slug : string) (s : nat) : string :=
  local_path (image_area doc s) slug (toOriginalURL (image_best doc s)).

(** The closest hyperlink around a node. *)
Definition enclosing_link (doc : goquery.Document) (s : nat) : option nat :=
  head (goquery.ParentsFiltered doc s [goquery.Tag "a"]).

(** An image with its source moved to [rel]. *)
Definition with_local_src (doc : goquery.Document) (s : nat) (rel : string)
    : goquery.Document :=
  goquery.SetAttr (goquery.RemoveAttr (goquery.RemoveAttr doc s "srcset") s "sizes") s "src" rel.

(** A video with a source the rewriter finds. *)
Definition has_source (doc : goquery.Document) (v : nat) : bool :=
  negb (String.eqb (strings.TrimSpace (video_src doc v)) "").

(** What a node is: its type and its tag. *)
Definition kind (doc : goquery.Document) (p : nat) : option (html.NodeType * string) :=
  (fun n => (html.Type_ n, html.Data n)) <$> goquery.nodes doc !! p.

(** The fragment parser on a text without markup. *)
Definition parse_text (context text : string) : list tree :=
  if String.eqb text "" then [] else [Text text].


(** A linked image with a set of sources, and a video. *)
Definition linked_image_and_video : list tree :=
  [ Element "a" {["href" := "https://x/a-300x200.jpg"]}
      [ Element "img" {["src" := "https://x/a-300x200.jpg";
                        "srcset" := "https://x/a-150x100.jpg 150w, https://x/a-300x200.jpg 300w";
                        "sizes" := "100vw"]} [] ];
    Element "video" ∅ [ Element "source" {["src" := "https://x/v.mp4"]} [] ] ].

(** ** Servers *)

(** A server that answers every request with 503. *)
Definition always_503 : Z -> attempt_world := fun _ => Responds 503 true true true.

(** The copy of the first response breaks off, the server then
    answers 503 twice. *)
Definition broken_copy : Z -> attempt_world :=
  fun a => if a =? 1 then Responds 200 true true false else Responds 503 true true true.

(** ** Documents that grow *)

(** What the rewriter never changes of a node: its type, its tag, and
    what it leaves alone but for the attributes. *)
Definition shape (n : html.Node) : html.NodeType * string * option nat * list nat :=
  (html.Type_ n, html.Data n, html.Parent n, html.Children n).

(** Two documents with the same nodes in the same places. *)
Definition same_shape (d d' : goquery.Document) : Prop :=
  size (goquery.nodes d') = size (goquery.nodes d)
  /\ forall p, shape <$> goquery.nodes d' !! p = shape <$> goquery.nodes d !! p.

(** The nodes of [d] are in [d'], with their type and their tag. *)
Definition persists (d d' : goquery.Document) : Prop :=
  forall p, is_Some (goquery.nodes d !! p) -> kind d' p = kind d p.

(** The nodes of [d] are in [d'], with their type, their tag and their
    attributes. *)
Definition extends (d d' : goquery.Document) : Prop :=
  forall p n, goquery.nodes d !! p = Some n ->
    exists n', goquery.nodes d' !! p = Some n'
               /\ html.Type_ n' = html.Type_ n /\ html.Data n' = html.Data n
               /\ html.Attr n' = html.Attr n.

(** * The rest of the program

    The functions around the media pipeline: the XML sanitizers, the
    helpers for paths, slugs and categories, and what the entry points
    do with them. *)

(** ** Package [unicode/utf8]

    Runes are integers; [DecodeRuneInString] and [AppendRune] after the
    Go sources, with the table [first] and the accept ranges. *)

Module utf8.

Definition RuneError : Z := 65533.
Definition MaxRune : Z := 1114111.
Definition RuneSelf : Z := 128.

(** The value of a byte, and the byte of an integer ([byte(x)]
    keeps the low eight bits). *)
Definition byte (c : ascii) : Z := Z.of_N (code c).
Definition to_byte (x : Z) : ascii := chr (Z.to_N (Z.land x 255)).

(** [s[i]], for an index the caller has checked. *)
Definition at_ (s : string) (i : nat) : Z :=
  match String.get i s with
  | Some c => byte c
  | None => 0
  end.

(** The table [first]: [as] (240) for ASCII, [xx] (241) for a byte
    that starts no rune, else the size in the low bits and the index
    of the accept range above them. *)
Definition first (b : Z) : Z :=
  if b <? 128 then 240
  else if b <? 194 then 241
  else if b <? 224 then 2
  else if b =? 224 then 19
  else if b <? 237 then 3
  else if b =? 237 then 35
  else if b <? 240 then 3
  else if b =? 240 then 52
  else if b <? 244 then 4
  else if b =? 244 then 68
  else 241.

(** [acceptRanges]: the bounds of the second byte. *)
Definition acceptRanges (i : Z) : Z * Z :=
  match i with
  | 0 => (128, 191)
  | 1 => (160, 191)
  | 2 => (128, 159)
  | 3 => (144, 191)
  | 4 => (128, 143)
  | _ => (0, 0)
  end.

(** The rune at the head of [s] and its width in bytes; an invalid
    head gives [RuneError] and the width 1, the empty string the
    width 0. *)
Definition DecodeRuneInString (s : string) : Z * nat :=
  let n := String.length s in
  if (n <? 1)%nat then (RuneError, 0%nat)
  else
    let s0 := at_ s 0 in
    let x := first s0 in
    if 240 <=? x then ((if Z.testbit x 0 then RuneError else s0), 1%nat)
    else
      let sz := Z.land x 7 in
      let accept := acceptRanges (Z.shiftr x 4) in
      if Z.of_nat n <? sz then (RuneError, 1%nat)
      else
        let s1 := at_ s 1 in
        if (s1 <? fst accept) || (snd accept <? s1) then (RuneError, 1%nat)
        else if sz <=? 2 then
          (Z.lor (Z.shiftl (Z.land s0 31) 6) (Z.land s1 63), 2%nat)
        else
          let s2 := at_ s 2 in
          if (s2 <? 128) || (191 <? s2) then (RuneError, 1%nat)
          else if sz <=? 3 then
            (Z.lor (Z.lor (Z.shiftl (Z.land s0 15) 12) (Z.shiftl (Z.land s1 63) 6))
                   (Z.land s2 63), 3%nat)
          else
            let s3 := at_ s 3 in
            if (s3 <? 128) || (191 <? s3) then (RuneError, 1%nat)
            else
              (Z.lor (Z.lor (Z.lor (Z.shiftl (Z.land s0 7) 18)
                                   (Z.shiftl (Z.land s1 63) 12))
                            (Z.shiftl (Z.land s2 63) 6))
                     (Z.land s3 63), 4%nat).

Definition encode3 (r : Z) : string :=
  String (to_byte (Z.lor 224 (Z.land (Z.shiftr r 12) 255)))
    (String (to_byte (Z.lor 128 (Z.land (Z.land (Z.shiftr r 6) 255) 63)))
       (String (to_byte (Z.lor 128 (Z.land (Z.land r 255) 63))) EmptyString)).

(** [AppendRune] to nothing: the UTF-8 encoding of a rune, that of
    [RuneError] for a surrogate or a number out of range. *)
Definition EncodeRune (r : Z) : string :=
  let i := r mod 4294967296 in
  if i <=? 127 then String (to_byte r) EmptyString
  else if i <=? 2047 then
    String (to_byte (Z.lor 192 (Z.land (Z.shiftr r 6) 255)))
      (String (to_byte (Z.lor 128 (Z.land (Z.land r 255) 63))) EmptyString)
  else if (MaxRune <? i) || ((55296 <=? i) && (i <=? 57343)) then encode3 RuneError
  else if i <=? 65535 then encode3 r
  else
    String (to_byte (Z.lor 240 (Z.land (Z.shiftr r 18) 255)))
      (String (to_byte (Z.lor 128 (Z.land (Z.land (Z.shiftr r 12) 255) 63)))
         (String (to_byte (Z.lor 128 (Z.land (Z.land (Z.shiftr r 6) 255) 63)))
            (String (to_byte (Z.lor 128 (Z.land (Z.land r 255) 63))) EmptyString))).

(** The runes of [for _, r := range s]. *)
Fixpoint range_loop (fuel : nat) (s : string) : list Z :=
  match fuel with
  | O => []
  | S fuel' =>
      match s with
      | EmptyString => []
      | String _ _ =>
          let '(r, w) := DecodeRuneInString s in
          r :: range_loop fuel' (strings.drop w s)
      end
  end.

Definition range (s : string) : list Z := range_loop (String.length s) s.

End utf8.

(** ** XML sanitizers *)

Definition isAlpha (b : ascii) : bool := in_range 65 90 b || in_range 97 122 b.
Definition isDigit (b : ascii) : bool := in_range 48 57 b.
Definition isAlphaNum (b : ascii) : bool := isAlpha b || isDigit b.
Definition isHex (b : ascii) : bool := isDigit b || in_range 65 70 b || in_range 97 102 b.

(** The scan of [encodeAmpersands] behind an ampersand: [rest] is
    [s[i+1:]]; when an entity ends at [k], the result is [s[i+1:k+1]]
    and [s[k+1:]]. *)
Definition entity (rest : string) : option (string * string) :=
  match rest with
  | EmptyString => None
  | String c1 r1 =>
      if Ascii.eqb c1 "#" then
        let is_x := match r1 with
                    | String c2 _ => Ascii.eqb c2 "x" || Ascii.eqb c2 "X"
                    | EmptyString => false
                    end in
        if is_x then
          match r1 with
          | String c2 r2 =>
              let '(ds, r3) := span isHex r2 in
              match r3 with
              | String c3 r4 =>
                  if negb (String.eqb ds "") && Ascii.eqb c3 ";"
                  then Some (String c1 (String c2 (ds +:+ ";")), r4) else None
              | EmptyString => None
              end
          | EmptyString => None
          end
        else
          let '(ds, r3) := span isDigit r1 in
          match r3 with
          | String c3 r4 =>
              if negb (String.eqb ds "") && Ascii.eqb c3 ";"
              then Some (String c1 (ds +:+ ";"), r4) else None
          | EmptyString => None
          end
      else if isAlpha c1 then
        let '(ds, r3) := span isAlphaNum r1 in
        match r3 with
        | String c3 r4 =>
            if Ascii.eqb c3 ";" then Some (String c1 (ds +:+ ";"), r4) else None
        | EmptyString => None
        end
      else None
  end.

(** The loop of [encodeAmpersands] from the index [i], [s] being
    [s[i:]]; every turn consumes a byte at least. *)
Fixpoint encodeAmpersands_loop (fuel : nat) (s : string) : string :=
  match fuel with
  | O => ""
  | S fuel' =>
      match s with
      | EmptyString => ""
      | String c rest =>
          if negb (Ascii.eqb c "&") then String c (encodeAmpersands_loop fuel' rest)
          else
            match entity rest with
            | Some (ent, after) => String c ent +:+ encodeAmpersands_loop fuel' after
            | None => "&amp;" +:+ encodeAmpersands_loop fuel' rest
            end
      end
  end.

Definition encodeAmpersands (s : string) : string :=
  encodeAmpersands_loop (String.length s) s.

(** The characters of XML 1.0. *)
Definition xml_char (r : Z) : bool :=
  (r =? 9) || (r =? 10) || (r =? 13)
  || ((32 <=? r) && (r <=? 55295))
  || ((57344 <=? r) && (r <=? 65533))
  || ((65536 <=? r) && (r <=? 1114111)).

Definition removeInvalidXMLChars (s : string) : string :=
  fold_left (fun out r => if xml_char r then out +:+ utf8.EncodeRune r else out)
            (utf8.range s) "".

Definition sanitizeXML (b : string) : string :=
  let s := b in
  let s := removeInvalidXMLChars s in
  let s := encodeAmpersands s in
  s.

(** *** Auxiliary definitions *)

(** An entity starts behind an ampersand. *)
Definition starts_entity (rest : string) : bool :=
  match entity rest with
  | Some _ => true
  | None => false
  end.

(** The text with [amp;] behind every ampersand that starts no
    entity. *)
Fixpoint escape (s : string) : string :=
  match s with
  | EmptyString => ""
  | String c rest =>
      if Ascii.eqb c "&" && negb (starts_entity rest)
      then "&amp;" +:+ escape rest
      else String c (escape rest)
  end.

(** Every ampersand starts an entity. *)
Fixpoint well_escaped (s : string) : bool :=
  match s with
  | EmptyString => true
  | String c rest =>
      (negb (Ascii.eqb c "&") || starts_entity rest) && well_escaped rest
  end.

(** A Unicode scalar value. *)
Definition scalar (r : Z) : bool :=
  (0 <=? r) && (r <=? 1114111) && negb ((55296 <=? r) && (r <=? 57343)).

(** The bytes of a list of runes. *)
Definition encode_all (l : list Z) : string := concat_all (map utf8.EncodeRune l).

(** The bytes of ASCII. *)
Definition is_ascii (c : ascii) : bool := (code c <? 128)%N.

(** The bytes of [s] that satisfy [p]. *)
Fixpoint filter_bytes (p : ascii -> bool) (s : string) : string :=
  match s with
  | EmptyString => ""
  | String c s' => if p c then String c (filter_bytes p s') else filter_bytes p s'
  end.

(** ** Package [strings], continued *)

Module strings2.

Fixpoint trimLeftByte (s : string) (c : ascii) : string :=
  match s with
  | EmptyString => ""
  | String a s' => if Ascii.eqb a c then trimLeftByte s' c else s
  end.

Fixpoint trimRightByte (s : string) (c : ascii) : string :=
  match s with
  | EmptyString => ""
  | String a s' =>
      let r := trimRightByte s' c in
      if Ascii.eqb a c && String.eqb r "" then "" else String a r
  end.

(** [strings.Trim(s, cutset)] for a cutset of one ASCII byte. *)
Definition Trim (s : string) (c : ascii) : string :=
  trimLeftByte (trimRightByte s c) c.

(** The scan of [strings.Replace] with [n < 0]: [skip] bytes of an
    occurrence of [old] are still to pass. *)
Fixpoint replace_from (skip : nat) (s old new : string) : string :=
  match s with
  | EmptyString => ""
  | String c s' =>
      match skip with
      | S k => replace_from k s' old new
      | O =>
          if strings.HasPrefix s old
          then new +:+ replace_from (String.length old - 1) s' old new
          else String c (replace_from 0 s' old new)
      end
  end.

(** [strings.ReplaceAll(s, old, new)] for a non-empty [old], as in
    every call of the program: the occurrences of [old] from left to
    right, none overlapping the one before. *)
Definition ReplaceAll (s old new : string) : string := replace_from 0 s old new.

Definition to_upper (c : ascii) : ascii :=
  if is_lower c then chr (code c - 32) else c.

Fixpoint upper_bytes (s : string) : string :=
  match s with
  | EmptyString => EmptyString
  | String a s' => String (to_upper a) (upper_bytes s')
  end.

(** [strings.EqualFold]: the loop over ASCII bytes; at the first byte
    beyond ASCII Go goes on rune by rune with [unicode.SimpleFold],
    here the parameter [fold_runes] on the two rests. *)
Fixpoint EqualFold (fold_runes : string -> string -> bool) (s t : string) : bool :=
  match s, t with
  | String a s', String b t' =>
      if (128 <=? Z.lor (utf8.byte a) (utf8.byte b)) then fold_runes s t
      else if Ascii.eqb a b then EqualFold fold_runes s' t'
      else
        let sr := Z.min (utf8.byte a) (utf8.byte b) in
        let tr := Z.max (utf8.byte a) (utf8.byte b) in
        if (65 <=? sr) && (sr <=? 90) && (tr =? sr + 32)
        then EqualFold fold_runes s' t'
        else false
  | EmptyString, EmptyString => true
  | _, _ => false
  end.

End strings2.

(** [a < b] on Go strings: byte by byte. *)
Fixpoint string_lt (a b : string) : bool :=
  match a, b with
  | _, EmptyString => false
  | EmptyString, String _ _ => true
  | String x a', String y b' =>
      (code x <? code y)%N || ((code x =? code y)%N && string_lt a' b')
  end.

(** [sort.Strings]: the one sorted arrangement of a list. *)
Fixpoint sort_insert (x : string) (l : list string) : list string :=
  match l with
  | [] => [x]
  | y :: l' => if string_lt y x then y :: sort_insert x l' else x :: l
  end.

Definition sort_Strings (l : list string) : list string := fold_right sort_insert [] l.

(** ** Helpers for paths, slugs and categories *)

Definition ensureTrailingSlash (p : string) : string :=
  if String.eqb p "" then "/"
  else if strings.HasSuffix p "/" then p
  else p +:+ "/".

Definition extractPathParts (p : string) : string * string * string :=
  let segs := strings.SplitByte (strings2.Trim p "/") "/" in
  match segs with
  | year :: month :: _ :: tail :: _ => (year, month, tail)
  | _ => ("", "", "")
  end.

(** [ ], the no-break space, in UTF-8. *)
Definition nbsp : string := String (chr 194) (String (chr 160) "").

Definition htmlUnescape (s : string) : string := strings2.ReplaceAll s nbsp " ".

Definition isEmojiRune (r : Z) : bool :=
  ((127744 <=? r) && (r <=? 128511))
  || ((128512 <=? r) && (r <=? 128591))
  || ((128640 <=? r) && (r <=? 128767))
  || ((128768 <=? r) && (r <=? 128895))
  || ((129280 <=? r) && (r <=? 129535))
  || ((129648 <=? r) && (r <=? 129791))
  || ((9728 <=? r) && (r <=? 9983))
  || ((9984 <=? r) && (r <=? 10175))
  || ((127462 <=? r) && (r <=? 127487)).

(** [fmt.Sprintf("%X", r)] for a rune that is not negative: the
    hexadecimal digits, capital letters, no leading zero. *)
Definition hex_digit (d : Z) : ascii :=
  chr (Z.to_N (if d <? 10 then 48 + d else 55 + d)).

Fixpoint hex_digits (fuel : nat) (n : Z) (acc : string) : string :=
  match fuel with
  | O => acc
  | S fuel' =>
      let acc' := String (hex_digit (n mod 16)) acc in
      if n / 16 =? 0 then acc' else hex_digits fuel' (n / 16) acc'
  end.

Definition Sprintf_X (r : Z) : string := hex_digits 8 r "".

(** The pattern [[^a-z0-9\-]+] of [slugRe]. *)
Definition slug_byte (c : ascii) : bool :=
  is_lower c || is_digit c || Ascii.eqb c "-".

(** [slugRe.ReplaceAllString(s, "-")]: every longest run of bytes
    outside the class becomes one hyphen.  The pattern matches runes,
    and a byte outside ASCII, in a rune or not, is outside the class,
    so the runs of runes are the runs of bytes; [in_run] tells that the
    byte before was in a run. *)
Fixpoint slug_runs (in_run : bool) (s : string) : string :=
  match s with
  | EmptyString => ""
  | String c s' =>
      if slug_byte c then String c (slug_runs false s')
      else if in_run then slug_runs true s'
      else String "-" (slug_runs true s')
  end.

Record Category := mkCategory {
  Domain : string;
  Value : string
}.

Section Unicode.

(** The parts of [strings] that need the Unicode tables:
    [Map(unicode.ToLower, s)], [Map(unicode.ToUpper, s)] and the
    rune loop of [EqualFold]. *)
Variable MapToLower : string -> string.
Variable MapToUpper : string -> string.
Variable fold_runes : string -> string -> bool.

(** [strings.ToLower]: a text of ASCII bytes is lowered byte by
    byte, any other goes through [Map]. *)
Definition strings_ToLower (s : string) : string :=
  if all_bytes is_ascii s then strings.ToLower s else MapToLower s.

Definition strings_ToUpper (s : string) : string :=
  if all_bytes is_ascii s then strings2.upper_bytes s else MapToUpper s.

Definition replaceEmojisWithCode (s : string) : string :=
  fold_left
    (fun b r =>
       if isEmojiRune r then (b +:+ "u") +:+ strings_ToUpper (Sprintf_X r)
       else if (r =? 8205) || (r =? 65039) then b
       else b +:+ utf8.EncodeRune r)
    (utf8.range s) "".

Definition slugify (s : string) : string :=
  let s := replaceEmojisWithCode s in
  let s := strings_ToLower s in
  let s := strings2.ReplaceAll s " " "-" in
  let s := slug_runs false s in
  let s := strings2.Trim s "-" in
  s.

Definition setToSortedSlice (m : gset string) : list string :=
  sort_Strings (elements m).

(** One turn of the loop of [splitTagsAndCategories]. *)
Definition splitTagsAndCategories_step (acc : gset string * gset string) (c : Category)
    : gset string * gset string :=
  let '(mTags, mCats) := acc in
  let name := strings.TrimSpace (htmlUnescape (Value c)) in
  if String.eqb name "" then acc
  else if strings2.EqualFold fold_runes name "Allgemein" then acc
  else if strings2.EqualFold fold_runes (Domain c) "post_tag"
       then ({[name]} ∪ mTags, mCats)
       else (mTags, {[name]} ∪ mCats).

Definition splitTagsAndCategories (cats : list Category) : list string * list string :=
  let '(mTags, mCats) := fold_left splitTagsAndCategories_step cats (∅, ∅) in
  (setToSortedSlice mTags, setToSortedSlice mCats).

End Unicode.

(** *** Auxiliary definitions *)

(** A list of strings in strictly ascending order. *)
Fixpoint strictly_sorted (l : list string) : bool :=
  match l with
  | a :: (b :: _) as l' => string_lt a b && strictly_sorted l'
  | _ => true
  end.

(** The name of a category as [splitTagsAndCategories] reads it. *)
Definition category_name (c : Category) : string :=
  strings.TrimSpace (htmlUnescape (Value c)).

(** A category that is neither without name nor the default one. *)
Definition listed (fold_runes : string -> string -> bool) (c : Category) : bool :=
  negb (String.eqb (category_name c) "")
  && negb (strings2.EqualFold fold_runes (category_name c) "Allgemein").

Definition is_tag (fold_runes : string -> string -> bool) (c : Category) : bool :=
  strings2.EqualFold fold_runes (Domain c) "post_tag".

(** What a task for [dest] may write in its trace. *)
Definition task_event (dest : string) (e : event) : Prop :=
  match e with
  | Get a => 1 <= a <= 3
  | Sleep n => n = 2 \/ n = 4
  | Create p | Remove p => p = dest
  end.

(** The destination of the file of [raw] below the static directory. *)
Definition local_dest (staticDir area slug raw : string) : string :=
  path.Join [path.Join [staticDir; area; slug]; filenameFromURL raw].

(** The coordinator [dl'] has seen what [dl] has seen and has started
    the tasks of [dl] and then more. *)
Definition grows (dl dl' : downloader) : Prop :=
  (forall u, u ∈ seen dl -> u ∈ seen dl')
  /\ exists more, spawned dl' = (spawned dl ++ more)%list.

(** The digits of [%X]. *)
Definition hex_upper (c : ascii) : bool := is_digit c || in_range 65 70 c.

(** ** Feed items

    [loadRSS] copies the items that gofeed has parsed into the
    program's own [Item]s, [processItem] turns the link of an item into
    the slug of the post and its alias.  Of a point in time the
    program reads the year and the month and formats it; the type and
    these operations are left open. *)

(** [fmt.Sprintf] with the verb [%0wd]: the sign counts for the
    width. *)
Definition zeros (n : nat) : string := concat_all (repeat "0" n).

Definition Sprintf_0d (width : nat) (n : Z) : string :=
  let digits := DecimalString.NilZero.string_of_uint (N.to_uint (Z.to_N (Z.abs n))) in
  if n <? 0 then "-" +:+ zeros (width - 1 - String.length digits) +:+ digits
  else zeros (width - String.length digits) +:+ digits.

Module gofeed.

(** The fields of [gofeed.Person], [ext.Extension] and
    [gofeed.Item] that the program reads. *)
Record Person := mkPerson {
  Name : string
}.

Record Extension := mkExtension {
  Value : string
}.

Record Item {Time : Type} := mkItem {
  Title : string;
  Description : string;
  Content : string;
  Link : string;
  Published : string;
  PublishedParsed : option Time;
  Author : option Person;
  GUID : string;
  Categories : list string;
  Extensions : gmap string (gmap string (list Extension))
}.
Arguments Item : clear implicits.

End gofeed.

Record Item := mkItem {
  Title : string;
  Link : string;
  PubDate : string;
  GUID : string;
  Creator : string;
  Description : string;
  ContentEncoded : string;
  Categories : list Category;
  CommentsFeedURL : string
}.

Section Items.

Variable MapToLower : string -> string.
Variable MapToUpper : string -> string.

(** Points in time: [t.Year()], [int(t.Month())],
    [t.Format(time.RFC1123Z)], the result of [parsePubDate] in the
    location of the run ([None] for its error), and
    [time.Now().In(loc)]. *)
Variable Time : Type.
Variable Year : Time -> Z.
Variable Month : Time -> Z.
Variable Format_RFC1123Z : Time -> string.
Variable parsePubDate : string -> option Time.
Variable now : Time.

(** The body of the loop of [loadRSS]. *)
Definition loadRSS_item (it : gofeed.Item Time) : Item :=
  let pub :=
    if String.eqb (gofeed.Published it) "" then
      match gofeed.PublishedParsed it with
      | Some t => Format_RFC1123Z t
      | None => gofeed.Published it
      end
    else gofeed.Published it in
  let creator :=
    match gofeed.Author it with
    | Some a => strings.TrimSpace (gofeed.Name a)
    | None => ""
    end in
  let html :=
    if String.eqb (strings.TrimSpace (gofeed.Content it)) "" then gofeed.Description it
    else gofeed.Content it in
  let cats :=
    fold_left
      (fun cats c =>
         let c := strings.TrimSpace c in
         if String.eqb c "" then cats else (cats ++ [mkCategory "" c])%list)
      (gofeed.Categories it) [] in
  let commentsURL :=
    match gofeed.Extensions it !! "wfw" with
    | Some extNS =>
        match extNS !! "commentRss" with
        | Some (n :: _) => strings.TrimSpace (gofeed.Value n)
        | _ => ""
        end
    | None => ""
    end in
  mkItem (gofeed.Title it) (gofeed.Link it) pub (gofeed.GUID it) creator
         (gofeed.Description it) html cats commentsURL.

Definition loadRSS_items (items : list (gofeed.Item Time)) : list Item :=
  fold_left (fun out it => (out ++ [loadRSS_item it])%list) items [].

Definition pubDateYearMonth (p : string) : string * string :=
  match parsePubDate p with
  | None => (Sprintf_0d 4 (Year now), Sprintf_0d 2 (Month now))
  | Some t => (Sprintf_0d 4 (Year t), Sprintf_0d 2 (Month t))
  end.

(** The head of [processItem]: the alias and the slug of the post,
    [None] when the link does not parse. *)
Definition processItem_slug (item : Item) : option (string * string) :=
  u ← url.Parse (strings.TrimSpace (Link item));
  let aliasPath := ensureTrailingSlash (url.Path u) in
  let '(year, month, slugTail) := extractPathParts (url.Path u) in
  let '(year, month, slugTail) :=
    if String.eqb year "" || String.eqb month "" || String.eqb slugTail "" then
      let '(year, month) := pubDateYearMonth (PubDate item) in
      (year, month,
       slugify MapToLower MapToUpper (path.Base (strings2.Trim (url.Path u) "/")))
    else (year, month, slugify MapToLower MapToUpper slugTail) in
  Some (aliasPath, year +:+ "-" +:+ month +:+ "-" +:+ slugTail).

(** The content that [processItem] rewrites. *)
Definition processItem_content (item : Item) : string :=
  let contentHTML := strings.TrimSpace (ContentEncoded item) in
  if String.eqb contentHTML "" then strings.TrimSpace (Description item) else contentHTML.

End Items.

(** *** Auxiliary definitions *)

(** A name of a file or directory that stays in its directory: no
    slash, and not empty, [.] or [..]. *)
Definition path_element (s : string) : bool :=
  negb (strings.ContainsByte s "/") && negb (String.eqb s "")
  && negb (String.eqb s ".") && negb (String.eqb s "..").

(** * Properties *)

(** ** Strings *)

Section StringFacts.

Lemma sapp_cons (x : ascii) (a b : string) : String x a +:+ b = String x (a +:+ b).
Proof. reflexivity. Qed.

Lemma sapp_nil_l (a : string) : "" +:+ a = a.
Proof. reflexivity. Qed.

Lemma sapp_assoc (a b c : string) : (a +:+ b) +:+ c = a +:+ (b +:+ c).
Proof.
  induction a as [|x a IH]; [reflexivity|]. rewrite !sapp_cons, IH. reflexivity.
Qed.

Lemma sapp_nil_r (a : string) : a +:+ "" = a.
Proof. induction a as [|x a IH]; [reflexivity|]. rewrite sapp_cons, IH. reflexivity. Qed.

Lemma sapp_length (a b : string) :
  String.length (a +:+ b) = (String.length a + String.length b)%nat.
Proof.
  induction a as [|x a IH]; [reflexivity|]. rewrite sapp_cons. cbn. rewrite IH. reflexivity.
Qed.

Lemma all_newlines_app a b :
  all_newlines (a +:+ b) = all_newlines a && all_newlines b.
Proof.
  induction a as [|x a IH]; [reflexivity|]. rewrite sapp_cons. cbn.
  rewrite IH, andb_assoc. reflexivity.
Qed.

Lemma concat_all_cons x l : concat_all (x :: l) = x +:+ concat_all l.
Proof. reflexivity. Qed.

Lemma concat_all_app l1 l2 : concat_all (l1 ++ l2) = concat_all l1 +:+ concat_all l2.
Proof.
  induction l1 as [|x l1 IH]; [reflexivity|].
  cbn [app]. rewrite !concat_all_cons, IH, sapp_assoc. reflexivity.
Qed.

Lemma TrimLeft_newlines s : all_newlines s = true -> strings.TrimLeft s = "".
Proof.
  induction s as [|c s IH]; cbn [all_newlines]; intros H; [reflexivity|].
  apply andb_prop in H. destruct H as [Hc Hs]. apply Ascii.eqb_eq in Hc. subst c.
  cbn. apply IH, Hs.
Qed.

Lemma TrimSpace_newlines s : all_newlines s = true -> strings.TrimSpace s = "".
Proof. intros H. unfold strings.TrimSpace. rewrite TrimLeft_newlines by exact H. reflexivity. Qed.

End StringFacts.


(** ** Trees *)

(** Induction over a tree and the trees below it. *)
Lemma tree_induction (P : tree -> Prop) :
  (forall s, P (Text s)) ->
  (forall s, P (Comment s)) ->
  (forall tag attr kids, Forall P kids -> P (Element tag attr kids)) ->
  forall t, P t.
Proof.
  intros HT HC HE.
  fix IH 1. intros [s|s|tag attr kids]; [apply HT | apply HC |].
  apply HE. induction kids as [|k kids IHk]; constructor; [apply IH | exact IHk].
Qed.

(** ** Download coordinator: scheduling *)

Section ScheduleProperties.

Lemma coherent_new n : coherent (newDownloader n).
Proof.
  split; [|constructor].
  intros u; simpl; split; intros H; [set_solver | inversion H].
Qed.

Lemma Schedule_seen u dest d : u ∈ seen d -> Schedule u dest d = d.
Proof. intros H. unfold Schedule. rewrite bool_decide_eq_true_2; auto. Qed.

Lemma Schedule_fresh u dest d :
  u ∉ seen d ->
  Schedule u dest d = mkDownloader (sem d) ({[u]} ∪ seen d) (spawned d ++ [(u, dest)]).
Proof. intros H. unfold Schedule. rewrite bool_decide_eq_false_2; auto. Qed.

Lemma Schedule_coherent u dest d : coherent d -> coherent (Schedule u dest d).
Proof.
  intros [Hs Hn]. destruct (decide (u ∈ seen d)) as [Hin|Hin].
  - rewrite Schedule_seen; [split|]; auto.
  - rewrite Schedule_fresh by auto. split; simpl.
    + intros v. rewrite map_app, elem_of_app, elem_of_union, elem_of_singleton.
      rewrite Hs. simpl. rewrite list_elem_of_singleton. tauto.
    + rewrite map_app. apply NoDup_app. split; [auto|]. split.
      * intros v Hv. simpl. rewrite list_elem_of_singleton. intros ->.
        apply Hin, Hs, Hv.
      * simpl. apply NoDup_singleton.
Qed.

Lemma schedule_all_coherent calls d : coherent d -> coherent (schedule_all calls d).
Proof.
  revert d. induction calls as [|c calls IH]; intros d H; simpl; auto.
  apply IH, Schedule_coherent, H.
Qed.

Lemma schedule_all_app c1 c2 d :
  schedule_all (c1 ++ c2) d = schedule_all c2 (schedule_all c1 d).
Proof. unfold schedule_all. apply fold_left_app. Qed.

Lemma Schedule_keeps u dest d v :
  v ∈ seen d -> v ∈ seen (Schedule u dest d).
Proof.
  intros H. unfold Schedule. case_bool_decide; auto. simpl. set_solver.
Qed.

(** Once a URL is seen, no later call changes its tasks. *)
Lemma Schedule_tasks_of u dest d v :
  v ∈ seen d ->
  filter (fun t => fst t = v) (spawned (Schedule u dest d))
  = filter (fun t => fst t = v) (spawned d).
Proof.
  intros H. unfold Schedule. case_bool_decide as Hu; auto. simpl.
  rewrite filter_app. rewrite (filter_cons_False _ (u, dest)); simpl.
  - rewrite filter_nil. apply app_nil_r.
  - intros ->. auto.
Qed.

Lemma schedule_all_tasks_of calls d v :
  v ∈ seen d ->
  v ∈ seen (schedule_all calls d) /\
  filter (fun t => fst t = v) (spawned (schedule_all calls d))
  = filter (fun t => fst t = v) (spawned d).
Proof.
  revert d. induction calls as [|c calls IH]; intros d H; simpl; auto.
  destruct (IH (Schedule (fst c) (snd c) d)) as [H1 H2].
  - apply Schedule_keeps, H.
  - split; auto. rewrite H2. apply Schedule_tasks_of, H.
Qed.

Lemma no_task_of (l : list (string * string)) v :
  v ∉ map fst l -> filter (fun t => fst t = v) l = [].
Proof.
  induction l as [|t l IH]; intros H; auto.
  rewrite filter_cons_False.
  - apply IH. intros Hin. apply H. simpl. rewrite elem_of_cons. auto.
  - intros Heq. apply H. simpl. rewrite elem_of_cons. auto.
Qed.

(** C2: scheduling is idempotent in the URL.  After any calls of
    [Schedule] on a new coordinator, the first of which for [u] has
    the destination [dest], there is exactly one task for [u], it
    has the destination [dest], no two tasks share a URL, and a
    further call for [u] changes nothing, whatever its
    destination. *)
Theorem Schedule_idempotent (n : Z) (before after : list (string * string))
    (u dest : string) :
  u ∉ map fst before ->
  let d := schedule_all (before ++ (u, dest) :: after) (newDownloader n) in
  filter (fun t => fst t = u) (spawned d) = [(u, dest)]
  /\ NoDup (map fst (spawned d))
  /\ (forall dest', Schedule u dest' d = d)
  /\ (forall dest' more,
        spawned (schedule_all ((u, dest') :: more) d)
        = spawned (schedule_all more d)).
Proof.
  intros Hfirst d.
  assert (Hc : coherent d) by apply schedule_all_coherent, coherent_new.
  set (d0 := schedule_all before (newDownloader n)).
  assert (Hc0 : coherent d0) by apply schedule_all_coherent, coherent_new.
  assert (Hnot : u ∉ seen d0).
  { intros Hin. apply Hc0 in Hin.
    assert (Hsub : forall l d1 v, v ∈ map fst (spawned (schedule_all l d1)) ->
                     v ∈ map fst (spawned d1) \/ v ∈ map fst l).
    { clear. induction l as [|c l IH]; intros d1 v H; simpl in *; auto.
      apply IH in H. rewrite elem_of_cons. destruct H as [H|H]; [|auto].
      unfold Schedule in H. case_bool_decide; auto. simpl in H.
      rewrite map_app, elem_of_app in H. destruct H as [H|H]; auto.
      simpl in H. apply list_elem_of_singleton in H. auto. }
    apply Hsub in Hin. destruct Hin as [Hin|Hin]; [inversion Hin | auto]. }
  assert (Hd : d = schedule_all after (Schedule u dest d0)).
  { unfold d, d0. rewrite schedule_all_app. reflexivity. }
  assert (Hseen1 : u ∈ seen (Schedule u dest d0)).
  { rewrite Schedule_fresh by auto. simpl. set_solver. }
  destruct (schedule_all_tasks_of after _ u Hseen1) as [Hseen Htasks].
  rewrite <- Hd in Hseen, Htasks.
  split; [|split; [|split]].
  - rewrite Htasks, Schedule_fresh by auto. simpl.
    rewrite filter_app, no_task_of.
    + rewrite filter_cons_True by reflexivity. reflexivity.
    + intros Hin. apply Hnot, Hc0, Hin.
  - apply Hc.
  - intros dest'. apply Schedule_seen, Hseen.
  - intros dest' more. simpl. rewrite Schedule_seen; auto.
Qed.

Lemma Schedule_idempotent_witness :
  let d := schedule_all ([("u0", "d0")] ++ ("u1", "d1") :: [("u1", "other"); ("u2", "d2")])
                        (newDownloader 6) in
  filter (fun t => fst t = "u1") (spawned d) = [("u1", "d1")]
  /\ NoDup (map fst (spawned d))
  /\ (forall dest', Schedule "u1" dest' d = d)
  /\ (forall dest' more,
        spawned (schedule_all (("u1", dest') :: more) d)
        = spawned (schedule_all more d)).
Proof.
  apply (Schedule_idempotent 6 [("u0", "d0")] [("u1", "other"); ("u2", "d2")] "u1" "d1").
  simpl. rewrite list_elem_of_singleton. discriminate.
Defined.

End ScheduleProperties.

Section DownloadProperties.

Variable world : Z -> attempt_world.
Variables rawURL dest : string.

Lemma loop_exit fuel a e st :
  3 < a -> downloadFile_loop fuel world rawURL dest a e st = (e, st).
Proof.
  intros Ha. destruct fuel; cbn [downloadFile_loop]; [reflexivity|].
  rewrite Z.gtb_ltb. destruct (Z.ltb_spec 3 a); [reflexivity | lia].
Qed.

(** One iteration of the loop in terms of the attempt's verdict. *)
Lemma loop_step fuel a e st u :
  url.Parse rawURL = Some u -> a <= 3 ->
  downloadFile_loop (S fuel) world rawURL dest a e st =
  let st' := mkOs (attempt_files (world a) dest (files st))
                  (trace st ++ attempt_events a (world a) dest) in
  match attempt_verdict (world a) with
  | Done => (None, st')
  | Stop err => (Some err, st')
  | Retry err =>
      if a <? 3 then
        downloadFile_loop fuel world rawURL dest (a + 1) (Some err) (log (Sleep (a * 2)) st')
      else (Some err, st')
  end.
Proof.
  intros Hp Ha. cbn [downloadFile_loop]. rewrite Hp.
  rewrite Z.gtb_ltb. destruct (Z.ltb_spec 3 a) as [|_]; [lia|].
  unfold attempt_events, fs_events, attempt_files, attempt_verdict, attempt_creates, handle_response.
  destruct (world a) as [|s m c p].
  - destruct (Z.ltb_spec a 3) as [E|E]; cbn.
    + unfold log; cbn. rewrite <- !app_assoc. reflexivity.
    + reflexivity.
  - rewrite !Z.geb_leb.
    destruct (Z.leb_spec 500 s); [|destruct (Z.leb_spec 400 s)];
      (destruct (Z.ltb_spec s 400); [try lia|try lia]);
      destruct m, c, p; cbn; unfold os_Create, os_Remove, log; cbn;
        try replace (3 <? 3) with false by reflexivity;
        destruct (Z.ltb_spec a 3) as [E|E];
        cbn; rewrite <- ?app_assoc; cbn;
        rewrite ?loop_exit by lia; reflexivity.
Qed.

(** The task in closed form: up to three attempts, with a pause of
    two and of four seconds between them. *)
Lemma run_task_eq files0 u :
  url.Parse rawURL = Some u ->
  run_task world rawURL dest files0 =
  let f1 := attempt_files (world 1) dest files0 in
  let e1 := attempt_events 1 (world 1) dest in
  match attempt_verdict (world 1) with
  | Done => (None, mkOs f1 e1)
  | Stop err => (Some err, mkOs f1 e1)
  | Retry _ =>
      let f2 := attempt_files (world 2) dest f1 in
      let e2 := (e1 ++ Sleep 2 :: attempt_events 2 (world 2) dest)%list in
      match attempt_verdict (world 2) with
      | Done => (None, mkOs f2 e2)
      | Stop err => (Some err, mkOs f2 e2)
      | Retry _ =>
          let f3 := attempt_files (world 3) dest f2 in
          let e3 := (e2 ++ Sleep 4 :: attempt_events 3 (world 3) dest)%list in
          match attempt_verdict (world 3) with
          | Done => (None, mkOs f3 e3)
          | Stop err | Retry err => (Some err, mkOs f3 e3)
          end
      end
  end.
Proof.
  intros Hp. unfold run_task, downloadFile.
  rewrite (loop_step _ _ _ _ u Hp) by lia. cbn zeta.
  destruct (attempt_verdict (world 1)); try reflexivity.
  replace (1 <? 3) with true by reflexivity. change (1 + 1) with 2. change (1 * 2) with 2.
  rewrite (loop_step _ _ _ _ u Hp) by lia. cbn zeta.
  cbn [files trace log app].
  destruct (attempt_verdict (world 2)); rewrite <- ?app_assoc; try reflexivity.
  replace (2 <? 3) with true by reflexivity. change (2 + 1) with 3. change (2 * 2) with 4.
  rewrite (loop_step _ _ _ _ u Hp) by lia. cbn zeta.
  cbn [files trace log app].
  destruct (attempt_verdict (world 3)); rewrite <- ?app_assoc; cbn; rewrite <- ?app_assoc; reflexivity.
Qed.

(** Without a request there is no attempt. *)
Lemma run_task_bad_url files0 :
  url.Parse rawURL = None ->
  run_task world rawURL dest files0 = (Some ErrNewRequest, mkOs files0 []).
Proof. intros Hp. unfold run_task, downloadFile. cbn. rewrite Hp. reflexivity. Qed.

(** More fuel does not change the result. *)
Lemma downloadFile_fuel fuel st :
  (4 <= fuel)%nat ->
  downloadFile_loop fuel world rawURL dest 1 None st = downloadFile world rawURL dest st.
Proof.
  intros Hf. unfold downloadFile.
  destruct (url.Parse rawURL) as [u|] eqn:Hp.
  - do 4 (destruct fuel as [|fuel]; [lia|]).
    rewrite !(loop_step _ 1 _ _ u Hp) by lia. cbn zeta.
    destruct (attempt_verdict (world 1)); try reflexivity.
    replace (1 <? 3) with true by reflexivity. change (1 + 1) with 2.
    rewrite !(loop_step _ 2 _ _ u Hp) by lia. cbn zeta.
    destruct (attempt_verdict (world 2)); try reflexivity.
    replace (2 <? 3) with true by reflexivity. change (2 + 1) with 3.
    rewrite !(loop_step _ 3 _ _ u Hp) by lia. cbn zeta.
    destruct (attempt_verdict (world 3)); try reflexivity.
  - destruct fuel; [lia|]. cbn. rewrite Hp. reflexivity.
Qed.


Lemma client_error_stops w :
  client_error w -> (exists e, attempt_verdict w = Stop e) /\ fs_events w dest = [].
Proof.
  destruct w as [|s m c p]; cbn; [tauto|]. intros [H1 H2].
  unfold fs_events, attempt_verdict, attempt_creates.
  destruct (Z.leb_spec 500 s); [lia|]. destruct (Z.leb_spec 400 s); [|lia].
  destruct (Z.ltb_spec s 400); [lia|]. cbn. eauto.
Qed.

Lemma server_failure_retries w :
  server_failure w -> (exists e, attempt_verdict w = Retry e) /\ fs_events w dest = [].
Proof.
  destruct w as [|s m c p]; cbn; [eauto|]. intros H1.
  unfold fs_events, attempt_verdict, attempt_creates.
  destruct (Z.leb_spec 500 s); [|lia].
  destruct (Z.ltb_spec s 400); [lia|]. cbn. eauto.
Qed.

Lemma succeeds_done w : succeeds w -> attempt_verdict w = Done.
Proof.
  destruct w as [|s m c p]; cbn; [tauto|]. intros (H1 & -> & -> & ->).
  unfold attempt_verdict.
  destruct (Z.leb_spec 500 s); [lia|]. destruct (Z.leb_spec 400 s); [lia|]. reflexivity.
Qed.

Lemma fs_events_cases w :
  (fs_events w dest = [] /\ attempt_files w dest = fun fs => fs)
  \/ (fs_events w dest = [Create dest] /\ attempt_verdict w = Done
      /\ attempt_files w dest = fun fs => {[dest]} ∪ fs)
  \/ (fs_events w dest = [Create dest; Remove dest] /\ attempt_verdict w <> Done
      /\ attempt_files w dest = fun fs => ({[dest]} ∪ fs) ∖ {[dest]}).
Proof.
  unfold fs_events, attempt_files. destruct (attempt_creates w); [|auto].
  destruct (attempt_verdict w); [right; left | right; right ..]; repeat split; auto;
    discriminate.
Qed.

Lemma fs_events_no_get w a : Get a ∉ fs_events w dest.
Proof.
  destruct (fs_events_cases w) as [[-> _]|[(-> & _)|(-> & _)]]; intros H;
    repeat (apply elem_of_cons in H; destruct H as [H|H]; [discriminate|]);
    apply elem_of_nil in H; auto.
Qed.

Lemma count_gets_app l1 l2 : count_gets (l1 ++ l2) = (count_gets l1 + count_gets l2)%nat.
Proof. unfold count_gets. rewrite filter_app, length_app. reflexivity. Qed.

Lemma count_gets_attempt a w : count_gets (attempt_events a w dest) = 1%nat.
Proof.
  unfold attempt_events.
  destruct (fs_events_cases w) as [[-> _]|[(-> & _)|(-> & _)]]; reflexivity.
Qed.

Lemma count_gets_sleep n l : count_gets (Sleep n :: l) = count_gets l.
Proof. reflexivity. Qed.

(** Membership of a request in the trace of up to three attempts. *)
Lemma get_in_attempt a b w : Get a ∈ attempt_events b w dest <-> a = b.
Proof.
  unfold attempt_events. rewrite elem_of_cons. split.
  - intros [H|H]; [congruence | exfalso; eapply fs_events_no_get, H].
  - intros ->. auto.
Qed.

Lemma get_in_sleep a n l : Get a ∈ Sleep n :: l <-> Get a ∈ l.
Proof. rewrite elem_of_cons. split; [intros [H|H]; [discriminate|auto] | auto]. Qed.

Lemma get_in_get a b l : Get a ∈ Get b :: l <-> a = b \/ Get a ∈ l.
Proof. rewrite elem_of_cons. split; intros [H|H]; auto; left; congruence. Qed.

Ltac gets_in H :=
  rewrite ?elem_of_app, ?get_in_sleep, ?get_in_attempt, ?get_in_get, ?elem_of_nil in H.

Lemma attempt_events_nil a w : fs_events w dest = [] -> attempt_events a w dest = [Get a].
Proof. unfold attempt_events. intros ->. reflexivity. Qed.

Lemma snoc_split {A} (X : list A) y z : (X ++ y :: [z])%list = ((X ++ [y]) ++ [z])%list.
Proof. rewrite <- app_assoc. reflexivity. Qed.

Ltac class_facts :=
  repeat match goal with
  | H : client_error (world ?k) |- _ =>
      let e := fresh "e" in let He := fresh "He" in let Hfs := fresh "Hfs" in
      destruct (client_error_stops _ H) as [[e He] Hfs]; clear H
  | H : server_failure (world ?k) |- _ =>
      let e := fresh "e" in let He := fresh "He" in let Hfs := fresh "Hfs" in
      destruct (server_failure_retries _ H) as [[e He] Hfs]; clear H
  | H : succeeds (world ?k) |- _ => apply succeeds_done in H
  end;
  repeat match goal with
  | V : attempt_verdict (world ?k) = ?x, H : attempt_verdict (world ?k) = ?y |- _ =>
      first [ assert_fails (constr_eq x y); exfalso; clear - V H; congruence
            | clear H ]
  end;
  repeat match goal with
  | Hfs : fs_events (world ?k) dest = [] |- _ =>
      rewrite (attempt_events_nil k _ Hfs) in *; clear Hfs
  end.

Ltac split_cases H :=
  repeat match type of H with
  | _ \/ _ => destruct H as [H|H]
  end.

Ltac no_next := let Hx := fresh "Hx" in intros Hx; gets_in Hx; lia.

(** C3: the retry policy of [downloadFile].  A task makes at most
    three HTTP requests.  A response with a status from 400 to 499
    ends it with an error and without a further request, so such a
    response to the first request makes the task fail after exactly
    one attempt.  A failed request or a status of 500 or more at the
    first or second attempt is followed by a pause of twice the
    attempt's number in seconds and by the next attempt, so a task
    that meets only such failures makes exactly three requests, with
    pauses of two and four seconds, and fails.  An attempt that
    succeeds ends the task without error. *)
Theorem downloadFile_retry_policy (files0 : gset string) (u : url.URL) :
  url.Parse rawURL = Some u ->
  let res := fst (run_task world rawURL dest files0) in
  let tr := trace (snd (run_task world rawURL dest files0)) in
  (count_gets tr <= 3)%nat
  /\ (forall a, Get a ∈ tr -> client_error (world a) ->
        res <> None /\ (Get (a + 1) ∉ tr) /\ exists pre, tr = (pre ++ [Get a])%list)
  /\ (client_error (world 1) -> res <> None /\ tr = [Get 1])
  /\ (forall a, Get a ∈ tr -> server_failure (world a) -> a < 3 ->
        exists pre post, tr = (pre ++ Get a :: Sleep (a * 2) :: Get (a + 1) :: post)%list)
  /\ ((forall a, 1 <= a <= 3 -> server_failure (world a)) ->
        res <> None /\ tr = [Get 1; Sleep 2; Get 2; Sleep 4; Get 3])
  /\ (forall a, Get a ∈ tr -> succeeds (world a) -> res = None /\ Get (a + 1) ∉ tr).
Proof.
  intros Hp res tr. subst res tr. rewrite (run_task_eq files0 u Hp). cbn zeta.
  destruct (attempt_verdict (world 1)) eqn:V1;
    [| |destruct (attempt_verdict (world 2)) eqn:V2;
        [| |destruct (attempt_verdict (world 3)) eqn:V3]];
    cbn [fst snd trace].
  all: split; [rewrite ?count_gets_app, ?count_gets_sleep, ?count_gets_attempt; lia|].
  all: split;
    [ intros a Hin Hc; gets_in Hin; split_cases Hin; subst a; class_facts;
      [ (split; [discriminate|]; split; [no_next|];
         first [ exists []; reflexivity | eexists; apply snoc_split ]) .. ] |].
  all: split;
    [ intros Hc; class_facts; [ (split; [discriminate | reflexivity]) .. ] |].
  all: split;
    [ intros a Hin Hc Ha; gets_in Hin; split_cases Hin; subst a; try lia; class_facts;
      [ (unfold attempt_events; rewrite <- ?app_assoc; cbn [app];
         first [ exists []; eexists; reflexivity
               | eexists (_ :: _ ++ [_])%list; eexists; cbn [app]; rewrite <- app_assoc;
                 reflexivity ]) .. ] |].
  all: split;
    [ intros Hall;
      pose proof (Hall 1 ltac:(lia)) as H1;
      pose proof (Hall 2 ltac:(lia)) as H2;
      pose proof (Hall 3 ltac:(lia)) as H3; clear Hall;
      class_facts; [ (split; [discriminate | reflexivity]) .. ] |].
  all: intros a Hin Hc; gets_in Hin; split_cases Hin; subst a; class_facts;
       [ (split; [reflexivity | no_next]) .. ].
Qed.

Lemma split_at_cons {A} (x y : A) (l pre post : list A) :
  x :: l = (pre ++ y :: post)%list ->
  (pre = [] /\ x = y /\ l = post)
  \/ exists pre', pre = x :: pre' /\ l = (pre' ++ y :: post)%list.
Proof.
  destruct pre as [|z pre]; cbn; intros H; injection H as -> ->; eauto.
Qed.

Lemma not_in_removed (X : gset string) (d : string) : d ∉ X ∖ {[d]}.
Proof. rewrite elem_of_difference, elem_of_singleton. tauto. Qed.

Ltac no_create H :=
  exfalso;
  repeat (apply elem_of_cons in H; destruct H as [H|H]; [discriminate H|]);
  apply elem_of_nil in H; exact H.

Ltac split_trace H :=
  repeat (apply split_at_cons in H;
          destruct H as [(-> & H & <-) | (? & -> & H)];
          [ try discriminate H |]);
  try (destruct (app_cons_not_nil _ _ _ H)).

(** C4: partial files are removed.  In the trace of a task, the
    creation of the destination file is followed at once by its
    removal, except when it is the task's last event and the task
    has succeeded; so when the task returns an error after an attempt
    has created the file, the file does not exist, and neither does
    it when it did not exist before the task. *)
Theorem downloadFile_partial_cleanup (files0 : gset string) :
  let res := fst (run_task world rawURL dest files0) in
  let st := snd (run_task world rawURL dest files0) in
  (forall pre post, trace st = (pre ++ Create dest :: post)%list ->
     (post = [] /\ res = None) \/ exists post', post = Remove dest :: post')
  /\ (res <> None -> Create dest ∈ trace st -> dest ∉ files st)
  /\ (res <> None -> dest ∉ files0 -> dest ∉ files st).
Proof.
  intros res st. subst res st.
  destruct (url.Parse rawURL) as [u|] eqn:Hp.
  2: { rewrite (run_task_bad_url files0 Hp). cbn.
       split; [|split]; auto.
       - intros pre post H. destruct (app_cons_not_nil _ _ _ H).
       - intros _ H. apply elem_of_nil in H. contradiction. }
  rewrite (run_task_eq files0 u Hp). cbn zeta.
  unfold attempt_events.
  destruct (attempt_verdict (world 1)) eqn:V1;
    [| |destruct (attempt_verdict (world 2)) eqn:V2;
        [| |destruct (attempt_verdict (world 3)) eqn:V3]];
    cbn [fst snd trace files].
  all: repeat match goal with
       | |- context [fs_events (world ?k) dest] =>
           let F := fresh "F" in let E := fresh "E" in let D := fresh "D" in
           destruct (fs_events_cases (world k)) as [[E F]|[(E & D & F)|(E & D & F)]];
           rewrite E, F in *; clear E F;
           try (rewrite D in *; discriminate);
           try (exfalso; apply D; assumption)
       end.
  all: cbn [app].
  all: split; [ intros pre post H; split_trace H;
                first [ left; split; reflexivity | right; eexists; reflexivity ] |].
  all: split;
    [ intros Hr Hin;
      first [ exfalso; apply Hr; reflexivity | apply not_in_removed | no_create Hin ]
    | intros Hr Hn;
      first [ exfalso; apply Hr; reflexivity | apply not_in_removed | exact Hn ] ].
Qed.


End DownloadProperties.

Lemma downloadFile_retry_policy_witness :
  fst (run_task always_503 "https://x/a.jpg" "static/images/s/a.jpg" ∅) <> None
  /\ trace (snd (run_task always_503 "https://x/a.jpg" "static/images/s/a.jpg" ∅))
     = [Get 1; Sleep 2; Get 2; Sleep 4; Get 3].
Proof.
  assert (Hp : url.Parse "https://x/a.jpg"
               = Some (url.mkURL "https" "" None "x" "/a.jpg" "" false false "" "" ""))
    by (vm_compute; reflexivity).
  destruct (downloadFile_retry_policy always_503 "https://x/a.jpg" "static/images/s/a.jpg"
              ∅ _ Hp) as (_ & _ & _ & _ & H & _).
  apply H. intros a _. cbn. lia.
Defined.

Lemma downloadFile_partial_cleanup_witness :
  "static/images/s/a.jpg"
  ∉ files (snd (run_task broken_copy "https://x/a.jpg" "static/images/s/a.jpg"
                  {["static/images/s/a.jpg"]})).
Proof.
  destruct (downloadFile_partial_cleanup broken_copy "https://x/a.jpg"
              "static/images/s/a.jpg" {["static/images/s/a.jpg"]}) as (_ & H & _).
  apply H.
  - vm_compute. discriminate.
  - vm_compute. apply elem_of_cons. right. apply elem_of_cons. left. reflexivity.
Defined.

(** ** Media locator: [pickBestSrc] *)

Section PickBestSrc.








(** A width beyond 64 bits counts as zero. *)
Example pickBestSrc_overflow :
  pickBestSrc "" "a.jpg 5w, b.jpg 99999999999999999999w" = "a.jpg".
Proof. vm_compute. reflexivity. Qed.

End PickBestSrc.

(** ** Media locator: [filenameFromURL] *)

Section FilenameFromURL.

Lemma Base_nonempty p : path.Base p <> "".
Proof.
  unfold path.Base. destruct (String.eqb p ""); [discriminate|].
  destruct (strings.CutLast (path.strip_slashes p) "/") as [[d f]|].
  - destruct (String.eqb_spec f ""); [discriminate | assumption].
  - destruct (String.eqb_spec (path.strip_slashes p) ""); [discriminate | assumption].
Qed.

Lemma filenameFromURL_parsed raw u :
  url.Parse raw = Some u ->
  filenameFromURL raw
  = if String.eqb (path.Base (url.Path u)) "/" then "image" else path.Base (url.Path u).
Proof.
  intros Hp. unfold filenameFromURL. rewrite Hp.
  destruct (String.eqb_spec (path.Base (url.Path u)) "") as [E|_]; [|reflexivity].
  destruct (Base_nonempty _ E).
Qed.

(** C10 (amended): for a string that parses as a URL,
    [filenameFromURL] is the base name of the URL's path, with
    [image] in the place of the base name [/]; the query and the
    fragment play no part.  So two URLs with the same path get the
    same file name and, below the same directory, the same
    destination, while [Schedule] starts a task for each of them
    when they differ. *)
Theorem filenameFromURL_path_only (raw1 raw2 : string) (u1 u2 : url.URL) :
  url.Parse raw1 = Some u1 -> url.Parse raw2 = Some u2 ->
  url.Path u1 = url.Path u2 ->
  filenameFromURL raw1
  = (if String.eqb (path.Base (url.Path u1)) "/" then "image"
     else path.Base (url.Path u1))
  /\ filenameFromURL raw1 = filenameFromURL raw2
  /\ (forall dir, path.Join [dir; filenameFromURL raw1] = path.Join [dir; filenameFromURL raw2])
  /\ (raw1 <> raw2 -> forall n d1 d2,
        spawned (Schedule raw2 d2 (Schedule raw1 d1 (newDownloader n)))
        = [(raw1, d1); (raw2, d2)]).
Proof.
  intros H1 H2 Hpath.
  assert (Heq : filenameFromURL raw1 = filenameFromURL raw2).
  { rewrite (filenameFromURL_parsed _ _ H1), (filenameFromURL_parsed _ _ H2), Hpath.
    reflexivity. }
  split; [apply filenameFromURL_parsed, H1|]. split; [exact Heq|]. split.
  - intros dir. rewrite Heq. reflexivity.
  - intros Hne n d1 d2. unfold Schedule at 2. cbn [seen newDownloader].
    rewrite bool_decide_eq_false_2 by apply not_elem_of_empty.
    unfold Schedule. cbn [seen spawned sem].
    rewrite bool_decide_eq_false_2; [reflexivity|].
    rewrite elem_of_union, elem_of_singleton. intros [E|E]; [congruence|].
    apply not_elem_of_empty in E. exact E.
Qed.

Lemma filenameFromURL_path_only_witness :
  filenameFromURL "https://x/p/a.jpg?v=1" = "a.jpg"
  /\ filenameFromURL "https://x/p/a.jpg?v=1" = filenameFromURL "https://x/p/a.jpg?v=2#top"
  /\ spawned (Schedule "https://x/p/a.jpg?v=2#top" "static/images/s/a.jpg"
               (Schedule "https://x/p/a.jpg?v=1" "static/images/s/a.jpg" (newDownloader 6)))
     = [("https://x/p/a.jpg?v=1", "static/images/s/a.jpg");
        ("https://x/p/a.jpg?v=2#top", "static/images/s/a.jpg")].
Proof.
  assert (H1 : url.Parse "https://x/p/a.jpg?v=1"
               = Some (url.mkURL "https" "" None "x" "/p/a.jpg" "" false false "v=1" "" ""))
    by (vm_compute; reflexivity).
  assert (H2 : url.Parse "https://x/p/a.jpg?v=2#top"
               = Some (url.mkURL "https" "" None "x" "/p/a.jpg" "" false false "v=2" "top" ""))
    by (vm_compute; reflexivity).
  destruct (filenameFromURL_path_only _ _ _ _ H1 H2 eq_refl) as (Ha & Hb & _ & Hd).
  split; [exact Ha|]. split; [exact Hb|]. apply Hd. discriminate.
Defined.

(** C10 as stated fails: the base name of the path [/] is [/], the
    file name is [image]. *)
Lemma filenameFromURL_root_is_image :
  exists u, url.Parse "https://x/" = Some u
            /\ filenameFromURL "https://x/" <> path.Base (url.Path u).
Proof.
  eexists. split; [vm_compute; reflexivity|]. vm_compute. discriminate.
Qed.

End FilenameFromURL.

(** ** Content transformer *)

Section Markdown.

Import goquery.

(** The rules of [conv] for a tag. *)
Lemma apply_node_conv content s :
  md.apply_node conv content s =
  let name := NodeName s in
  if String.eqb name "p" then
    default "" (md.Replace p_rule content s)
  else if String.eqb name "br" then nl
  else if String.eqb name "img" then default "" (md.Replace img_rule content s)
  else content.
Proof.
  unfold md.apply_node, md.getRuleFuncs, conv, md.AddRules, md.NewConverter.
  cbn [app]. cbn zeta.
  assert (Hin : forall x y : string, x ∈ [y] <-> x = y)
    by (intros x y; apply list_elem_of_singleton).
  destruct (String.eqb_spec (NodeName s) "p") as [E|E1].
  { rewrite E. rewrite filter_cons_True by (apply Hin; reflexivity).
    rewrite !filter_cons_False by (cbn; rewrite Hin; discriminate).
    cbn [map rev app md.apply_rules filter list_filter].
    destruct (md.Replace p_rule content s); reflexivity. }
  destruct (String.eqb_spec (NodeName s) "br") as [E|E2].
  { rewrite E. rewrite filter_cons_False by (cbn; rewrite Hin; discriminate).
    rewrite filter_cons_True by (apply Hin; reflexivity).
    rewrite !filter_cons_False by (cbn; rewrite Hin; discriminate).
    reflexivity. }
  destruct (String.eqb_spec (NodeName s) "img") as [E|E3].
  { rewrite E. rewrite !filter_cons_False by (cbn; rewrite Hin; discriminate).
    rewrite filter_cons_True by (apply Hin; reflexivity).
    cbn [map rev app md.apply_rules filter list_filter].
    destruct (md.Replace img_rule content s); reflexivity. }
  rewrite !filter_cons_False; [reflexivity| | |]; cbn; rewrite Hin; congruence.
Qed.

Lemma nodeToMD_element tag attr kids :
  md.nodeToMD conv (Element tag attr kids)
  = md.apply_node conv (contentsMD kids) (Element tag attr kids).
Proof.
  cbn [md.nodeToMD]. f_equal. unfold contentsMD.
  induction kids as [|k kids IH]; [reflexivity|].
  cbn [map]. rewrite concat_all_cons, <- IH. reflexivity.
Qed.

(** Without an image the converter writes nothing but newlines. *)
Lemma nodeToMD_media_free t :
  media_free t = true -> all_newlines (md.nodeToMD conv t) = true.
Proof.
  induction t as [s|s|tag attr kids IH] using tree_induction; intros Hm.
  - reflexivity.
  - reflexivity.
  - rewrite nodeToMD_element, apply_node_conv. cbn [NodeName]. cbn zeta.
    cbn [media_free] in Hm. apply andb_prop in Hm. destruct Hm as [Hm Hk].
    assert (Hc : all_newlines (contentsMD kids) = true).
    { unfold contentsMD. clear Hm.
      induction kids as [|k kids IHk]; [reflexivity|].
      cbn [forallb] in Hk. apply andb_prop in Hk. destruct Hk as [Hk1 Hk2].
      inversion IH as [|? ? Hp Hps]; subst.
      cbn [map]. rewrite concat_all_cons, all_newlines_app.
      rewrite (Hp Hk1). apply IHk; assumption. }
    destruct (String.eqb tag "p").
    { cbn. rewrite (TrimSpace_newlines _ Hc). reflexivity. }
    destruct (String.eqb tag "br"); [reflexivity|].
    destruct (String.eqb_spec tag "img") as [->|_]; [discriminate Hm|].
    exact Hc.
Qed.

Lemma after_hook_newlines m : all_newlines m = true -> md.after_hook m = "".
Proof.
  intros H. unfold md.after_hook. rewrite (TrimSpace_newlines _ H). reflexivity.
Qed.

Lemma ConvertString_media_free t :
  media_free t = true -> md.ConvertString conv t = "".
Proof.
  intros H. unfold md.ConvertString. apply after_hook_newlines.
  rewrite nodeToMD_element, apply_node_conv. cbn [NodeName]. cbn zeta.
  cbn [String.eqb Ascii.eqb Bool.eqb]. unfold contentsMD.
  cbn [map]. rewrite !concat_all_cons, !all_newlines_app.
  rewrite nodeToMD_element, apply_node_conv. cbn [NodeName]. cbn zeta.
  cbn [String.eqb Ascii.eqb Bool.eqb]. unfold contentsMD.
  cbn [map]. rewrite ?concat_all_cons, ?all_newlines_app.
  rewrite nodeToMD_element, apply_node_conv. cbn [NodeName]. cbn zeta.
  cbn [String.eqb Ascii.eqb Bool.eqb]. unfold contentsMD.
  cbn [map]. rewrite ?concat_all_cons, ?all_newlines_app, (nodeToMD_media_free _ H).
  reflexivity.
Qed.


Lemma gallery_image_ref b img : gallery_image b img = b +:+ gallery_ref img.
Proof.
  unfold gallery_image, gallery_ref.
  destruct (String.eqb (tree_AttrOr img "src") ""); cbn [negb];
    [rewrite sapp_nil_r|]; reflexivity.
Qed.

Lemma gallery_fold imgs b :
  fold_left gallery_image imgs b = b +:+ concat_all (map gallery_ref imgs).
Proof.
  revert b. induction imgs as [|img imgs IH]; intros b; cbn [fold_left map].
  - cbn. rewrite sapp_nil_r. reflexivity.
  - rewrite IH, gallery_image_ref, concat_all_cons, sapp_assoc. reflexivity.
Qed.

Lemma video_markdown_append b s : video_markdown b s = b +:+ video_markdown "" s.
Proof.
  unfold video_markdown.
  destruct (if tree_matches [Tag "video"] s then Some s else head (tree_Find s [Tag "video"]))
    as [v|]; [|rewrite sapp_nil_r; reflexivity].
  match goal with |- context [negb ?c] => destruct c end; cbn [negb];
    [rewrite sapp_nil_r|]; reflexivity.
Qed.

(** Every root appends its own chunk to the builder. *)
Lemma root_callback_append b s : root_callback b s = b +:+ root_callback "" s.
Proof.
  unfold root_callback.
  destruct (String.eqb (NodeName s) "#text").
  { destruct (String.eqb (strings.TrimSpace (tree_Text s)) "");
      [rewrite sapp_nil_r|]; reflexivity. }
  destruct (tree_matches gallery_selector s).
  { rewrite !gallery_fold. reflexivity. }
  destruct (tree_matches video_selector s).
  { apply video_markdown_append. }
  cbn zeta.
  destruct (String.eqb (strings.TrimSpace (md.ConvertString conv s)) "").
  { match goal with |- context [negb ?c] => destruct c end; cbn [negb];
      [rewrite sapp_nil_r|]; reflexivity. }
  match goal with |- context [negb ?c] => destruct c end; cbn [negb];
    rewrite ?sapp_assoc; reflexivity.
Qed.

Lemma root_callback_fold html b :
  fold_left root_callback html b = b +:+ concat_all (map (root_callback "") html).
Proof.
  revert b. induction html as [|s html IH]; intros b; cbn [fold_left map].
  - cbn. rewrite sapp_nil_r. reflexivity.
  - rewrite IH, (root_callback_append b s), concat_all_cons, sapp_assoc. reflexivity.
Qed.

Lemma has_class_selectors tag attr :
  has_class attr "wp-block-gallery" = false ->
  has_class attr "wp-block-video" = false ->
  String.eqb tag "video" = false ->
  matches_elem tag attr gallery_selector = false
  /\ matches_elem tag attr video_selector = false.
Proof.
  intros H1 H2 H3. unfold matches_elem, gallery_selector, video_selector.
  cbn [existsb matches_simple]. rewrite H1, H2, H3, !andb_false_r. auto.
Qed.

(** A root without media becomes the paragraph of its text. *)
Lemma root_callback_media_free s :
  media_free s = true -> root_callback "" s = paragraph (tree_Text s).
Proof.
  intros Hm. unfold root_callback, paragraph. cbn zeta.
  destruct (String.eqb (NodeName s) "#text").
  { destruct (String.eqb (strings.TrimSpace (tree_Text s)) ""); reflexivity. }
  assert (Hsel : tree_matches gallery_selector s = false
                 /\ tree_matches video_selector s = false).
  { destruct s as [t|t|tag attr kids]; [auto | auto |].
    cbn [media_free] in Hm. cbn [tree_matches].
    repeat (apply andb_prop in Hm; destruct Hm as [Hm ?]).
    apply has_class_selectors; apply negb_true_iff; assumption. }
  destruct Hsel as [-> ->].
  rewrite (ConvertString_media_free _ Hm).
  change (strings.TrimSpace "") with "". cbn [String.eqb].
  destruct (String.eqb (strings.TrimSpace (tree_Text s)) ""); reflexivity.
Qed.

(** C8: the transformer keeps the order of the document.  The
    Markdown is the trimmed concatenation, in document order, of
    one chunk for each top-level node; the chunk of a text node is
    its trimmed text followed by a blank line, or nothing when the
    text is white space only; and in a fragment without media every
    top-level node, be it text, a paragraph or another block, yields
    its trimmed text followed by a blank line, or nothing. *)
Theorem toMarkdownPreserveOrder_keeps_order (html : list tree) :
  toMarkdownPreserveOrder html
  = strings.TrimSpace (concat_all (map (root_callback "") html))
  /\ (forall t, root_callback "" (Text t) = paragraph t)
  /\ (forall before after,
        fold_left root_callback (before ++ after) ""
        = fold_left root_callback before "" +:+ fold_left root_callback after "")
  /\ (forallb media_free html = true ->
      toMarkdownPreserveOrder html
      = strings.TrimSpace (concat_all (map (fun s => paragraph (tree_Text s)) html))).
Proof.
  split; [|split; [|split]].
  - unfold toMarkdownPreserveOrder. rewrite root_callback_fold. reflexivity.
  - intros t. apply (root_callback_media_free (Text t)). reflexivity.
  - intros before after. rewrite !root_callback_fold, map_app, concat_all_app.
    reflexivity.
  - intros Hm. unfold toMarkdownPreserveOrder. rewrite root_callback_fold.
    assert (Hmap : map (root_callback "") html
                   = map (fun s => paragraph (tree_Text s)) html).
    { induction html as [|s html IH]; [reflexivity|].
      cbn [forallb] in Hm. apply andb_prop in Hm. destruct Hm as [H1 H2].
      cbn [map]. rewrite (root_callback_media_free _ H1), (IH H2). reflexivity. }
    rewrite Hmap. reflexivity.
Qed.

(** C9 (amended): a top-level element with the class of a gallery
    block yields, for each [img] element in it in document order, the
    reference [![alt](src)] followed by a blank line, where an empty
    [alt] gives way to the base name of [src]; an image whose [src]
    is empty yields nothing; nothing else is written. *)
Theorem gallery_block_markdown (b : string) (s : tree) :
  tree_matches gallery_selector s = true ->
  NodeName s <> "#text" ->
  root_callback b s = b +:+ concat_all (map gallery_ref (tree_Find s [Tag "img"]))
  /\ (forall img,
        tree_AttrOr img "src" <> "" ->
        gallery_ref img =
          "![" +:+ (if String.eqb (strings.TrimSpace (tree_AttrOr img "alt")) ""
                    then path.Base (tree_AttrOr img "src")
                    else strings.TrimSpace (tree_AttrOr img "alt"))
               +:+ "](" +:+ tree_AttrOr img "src" +:+ ")" +:+ nl +:+ nl)
  /\ (forall img, tree_AttrOr img "src" = "" -> gallery_ref img = "").
Proof.
  intros Hg Hname. split; [|split].
  - unfold root_callback.
    destruct (String.eqb_spec (NodeName s) "#text") as [E|_]; [contradiction|].
    rewrite Hg. apply gallery_fold.
  - intros img Hsrc. unfold gallery_ref, image_markdown.
    destruct (String.eqb_spec (tree_AttrOr img "src") ""); [contradiction | reflexivity].
  - intros img Hsrc. unfold gallery_ref. rewrite Hsrc. reflexivity.
Qed.

End Markdown.

Lemma toMarkdownPreserveOrder_keeps_order_witness :
  toMarkdownPreserveOrder plain_fragment
  = "Hello" +:+ nl +:+ nl +:+ "loose text" +:+ nl +:+ nl +:+ "World".
Proof.
  destruct (toMarkdownPreserveOrder_keeps_order plain_fragment) as (_ & _ & _ & H).
  rewrite H; [vm_compute; reflexivity | vm_compute; reflexivity].
Defined.

Lemma gallery_block_markdown_witness :
  root_callback "" gallery_block
  = "![first](/galleries/s/a.jpg)" +:+ nl +:+ nl +:+ "![b.jpg](/galleries/s/b.jpg)" +:+ nl +:+ nl.
Proof.
  destruct (gallery_block_markdown "" gallery_block) as (H & _ & _).
  - vm_compute. reflexivity.
  - vm_compute. discriminate.
  - rewrite H. vm_compute. reflexivity.
Defined.

(** C9 as stated fails: an image of a gallery block that has no
    [src] yields no reference. *)
Lemma gallery_image_without_src_dropped :
  goquery.tree_matches gallery_selector lazy_gallery_block = true
  /\ length (goquery.tree_Find lazy_gallery_block [goquery.Tag "img"]) = 1%nat
  /\ toMarkdownPreserveOrder [lazy_gallery_block] = "".
Proof. vm_compute. auto. Qed.

(** ** End to end *)

(** C7: for the fragment with the two paragraphs and the image, and
    the slug [2024-01-test], the rewriter followed by the transformer
    yields the paragraph [Hello], a blank line, the reference
    [![a.jpg](/images/2024-01-test/a.jpg)] and the paragraph [World],
    and the coordinator has started one download, of
    [https://x/a.jpg]. *)
Theorem end_to_end (ParseFragment : string -> string -> list tree) :
  let out := rewriteAndDownloadImages "static" ParseFragment hello_world_fragment
               "2024-01-test" (newDownloader 6) in
  toMarkdownPreserveOrder (fst out)
  = "Hello" +:+ nl +:+ nl +:+ "![a.jpg](/images/2024-01-test/a.jpg)" +:+ nl +:+ "World"
  /\ fst out = [ Element "p" ∅ [Text "Hello"];
                 Element "img" {["src" := "/images/2024-01-test/a.jpg"]} [];
                 Element "p" ∅ [Text "World"] ]
  /\ spawned (snd out) = [("https://x/a.jpg", "static/images/2024-01-test/a.jpg")].
Proof.
  vm_compute. repeat split; f_equal.
Qed.

(** ** Media locator: [stripWPSuffixes] and [toOriginalURL] *)

Section Suffixes.

Lemma span_spec p s :
  s = fst (span p s) +:+ snd (span p s)
  /\ all_bytes p (fst (span p s)) = true
  /\ (snd (span p s) = ""
      \/ exists c r, snd (span p s) = String c r /\ p c = false).
Proof.
  induction s as [|c s IH]; cbn [span]; [cbn; auto|].
  destruct (p c) eqn:Hc.
  - destruct (span p s) as [a r]. cbn [fst snd] in *.
    destruct IH as (E & Ha & Hr). split; [|split].
    + rewrite sapp_cons, <- E. reflexivity.
    + cbn [all_bytes]. rewrite Hc, Ha. reflexivity.
    + exact Hr.
  - cbn. split; [reflexivity|]. split; [reflexivity|]. right. eauto.
Qed.

Lemma span_app p d r :
  all_bytes p d = true ->
  (r = "" \/ exists c r', r = String c r' /\ p c = false) ->
  span p (d +:+ r) = (d, r).
Proof.
  intros Hd Hr. induction d as [|c d IH].
  - rewrite sapp_nil_l. destruct Hr as [->|(c & r' & -> & Hc)]; cbn [span]; [reflexivity|].
    rewrite Hc. reflexivity.
  - cbn [all_bytes] in Hd. apply andb_prop in Hd. destruct Hd as [Hc Hd].
    rewrite sapp_cons. cbn [span]. rewrite Hc, (IH Hd). reflexivity.
Qed.


Lemma eqb_true_iff_s (a b : string) : String.eqb a b = true <-> a = b.
Proof. apply String.eqb_eq. Qed.





Lemma ContainsByte_app a b c :
  strings.ContainsByte (a +:+ b) c = strings.ContainsByte a c || strings.ContainsByte b c.
Proof.
  induction a as [|x a IH]; [reflexivity|].
  rewrite sapp_cons. cbn [strings.ContainsByte]. rewrite IH, orb_assoc. reflexivity.
Qed.
















End Suffixes.

Section SimpleURLs.

(** Facts about single bytes, by cases on the byte. *)
Ltac by_byte c := destruct c as [[] [] [] [] [] [] [] []]; try discriminate; reflexivity.

Lemma path_byte_facts c :
  path_byte c = true ->
  Ascii.eqb c "#" = false /\ Ascii.eqb c "?" = false /\ Ascii.eqb c "%" = false
  /\ Ascii.eqb c "+" = false
  /\ ((code c <? 32)%N || (code c =? 127)%N) = false
  /\ url.shouldEscape c url.encodePath = false.
Proof. intros H. repeat split; revert H; by_byte c. Qed.

Lemma plain_byte_facts c :
  plain_byte c = true ->
  path_byte c = true /\ Ascii.eqb c "/" = false /\ Ascii.eqb c "@" = false
  /\ Ascii.eqb c ":" = false /\ Ascii.eqb c "[" = false
  /\ url.shouldEscape c url.encodeHost = false.
Proof. intros H. repeat split; revert H; by_byte c. Qed.




Lemma all_bytes_app p a b : all_bytes p (a +:+ b) = all_bytes p a && all_bytes p b.
Proof.
  induction a as [|x a IH]; [reflexivity|].
  rewrite sapp_cons. cbn [all_bytes]. rewrite IH, andb_assoc. reflexivity.
Qed.

Lemma all_bytes_impl (p q : ascii -> bool) s :
  (forall c, p c = true -> q c = true) -> all_bytes p s = true -> all_bytes q s = true.
Proof.
  intros Hpq. induction s as [|c s IH]; [reflexivity|]. cbn [all_bytes]. intros H.
  apply andb_prop in H. destruct H as [Hc Hs]. rewrite (Hpq c Hc), (IH Hs). reflexivity.
Qed.

(** A byte that the class excludes does not occur. *)
Lemma no_byte p s sep :
  (forall c, p c = true -> Ascii.eqb c sep = false) ->
  all_bytes p s = true -> strings.ContainsByte s sep = false.
Proof.
  intros Hp. induction s as [|c s IH]; [reflexivity|]. cbn [all_bytes]. intros H.
  apply andb_prop in H. destruct H as [Hc Hs].
  cbn [strings.ContainsByte]. rewrite (Hp c Hc), (IH Hs). reflexivity.
Qed.

Lemma Cut_absent s sep : strings.ContainsByte s sep = false -> strings.Cut s sep = None.
Proof.
  induction s as [|c s IH]; [reflexivity|]. cbn [strings.ContainsByte strings.Cut].
  intros H. apply orb_false_elim in H. destruct H as [Hc Hs]. rewrite Hc, (IH Hs).
  reflexivity.
Qed.

Lemma CutLast_absent s sep :
  strings.ContainsByte s sep = false -> strings.CutLast s sep = None.
Proof.
  induction s as [|c s IH]; [reflexivity|]. cbn [strings.ContainsByte strings.CutLast].
  intros H. apply orb_false_elim in H. destruct H as [Hc Hs]. rewrite Hc, (IH Hs).
  reflexivity.
Qed.

Lemma Cut_first a b sep :
  strings.ContainsByte a sep = false ->
  strings.Cut (a +:+ String sep b) sep = Some (a, b).
Proof.
  induction a as [|c a IH]; intros H.
  - rewrite sapp_nil_l. cbn [strings.Cut]. rewrite Ascii.eqb_refl. reflexivity.
  - cbn [strings.ContainsByte] in H. apply orb_false_elim in H. destruct H as [Hc Ha].
    rewrite sapp_cons. cbn [strings.Cut]. rewrite Hc, (IH Ha). reflexivity.
Qed.

Lemma CutLast_last a b sep :
  strings.ContainsByte b sep = false ->
  strings.CutLast (a +:+ String sep b) sep = Some (a, b).
Proof.
  intros Hb. induction a as [|c a IH].
  - rewrite sapp_nil_l. cbn [strings.CutLast]. rewrite (CutLast_absent b sep Hb).
    rewrite Ascii.eqb_refl. reflexivity.
  - rewrite sapp_cons. cbn [strings.CutLast]. rewrite IH. reflexivity.
Qed.

Lemma HasSuffix_absent s c :
  strings.ContainsByte s c = false -> strings.HasSuffix s (String c "") = false.
Proof.
  induction s as [|x s IH]; [reflexivity|]. cbn [strings.ContainsByte strings.HasSuffix].
  intros H. apply orb_false_elim in H. destruct H as [Hx Hs]. rewrite (IH Hs), orb_false_r.
  cbn [String.eqb]. rewrite Hx. reflexivity.
Qed.

Lemma no_CTL s : all_bytes path_byte s = true -> url.stringContainsCTLByte s = false.
Proof.
  induction s as [|c s IH]; [reflexivity|]. cbn [all_bytes]. intros H.
  apply andb_prop in H. destruct H as [Hc Hs]. cbn [url.stringContainsCTLByte].
  destruct (path_byte_facts c Hc) as (_ & _ & _ & _ & Hctl & _).
  rewrite Hctl, (IH Hs). reflexivity.
Qed.

Lemma HasPrefix_nil s : strings.HasPrefix s "" = true.
Proof. destruct s; reflexivity. Qed.

Lemma CTL_app a b :
  url.stringContainsCTLByte (a +:+ b)
  = url.stringContainsCTLByte a || url.stringContainsCTLByte b.
Proof.
  induction a as [|c a IH]; [reflexivity|].
  rewrite sapp_cons. cbn [url.stringContainsCTLByte]. rewrite IH, !orb_assoc. reflexivity.
Qed.

Lemma unescape_path s :
  all_bytes path_byte s = true -> url.unescape s url.encodePath = Some s.
Proof.
  induction s as [|c s IH]; [reflexivity|]. cbn [all_bytes]. intros H.
  apply andb_prop in H. destruct H as [Hc Hs]. cbn [url.unescape].
  destruct (path_byte_facts c Hc) as (_ & _ & Hp & _).
  rewrite Hp, (IH Hs). cbn [url.is_mode url.is_host_mode andb]. rewrite andb_false_r.
  reflexivity.
Qed.

Lemma escape_path s :
  all_bytes path_byte s = true -> url.escape s url.encodePath = s.
Proof.
  induction s as [|c s IH]; [reflexivity|]. cbn [all_bytes]. intros H.
  apply andb_prop in H. destruct H as [Hc Hs]. cbn [url.escape].
  destruct (path_byte_facts c Hc) as (_ & _ & _ & _ & _ & He).
  rewrite He, (IH Hs). reflexivity.
Qed.

Lemma unescape_host s :
  plain s = true -> url.unescape s url.encodeHost = Some s.
Proof.
  unfold plain. induction s as [|c s IH]; [reflexivity|]. cbn [all_bytes]. intros H.
  apply andb_prop in H. destruct H as [Hc Hs]. cbn [url.unescape].
  destruct (plain_byte_facts c Hc) as (Hpb & _ & _ & _ & _ & He).
  destruct (path_byte_facts c Hpb) as (_ & _ & Hp & _).
  rewrite Hp, He, (IH Hs). cbn [url.is_mode url.is_host_mode andb]. rewrite !andb_false_r.
  reflexivity.
Qed.


Lemma plain_path s : plain s = true -> all_bytes path_byte s = true.
Proof.
  apply all_bytes_impl. intros c Hc. apply (plain_byte_facts c Hc).
Qed.

Lemma parseHost_plain host : plain host = true -> url.parseHost host = Some host.
Proof.
  intros H. unfold url.parseHost.
  assert (Hb : strings.HasPrefix host "[" = false).
  { destruct host as [|c h]; [reflexivity|]. cbn [strings.HasPrefix].
    unfold plain in H. cbn [all_bytes] in H. apply andb_prop in H. destruct H as [Hc _].
    destruct (plain_byte_facts c Hc) as (_ & _ & _ & _ & Hbr & _).
    rewrite Ascii.eqb_sym, Hbr. reflexivity. }
  rewrite Hb. rewrite CutLast_absent; [apply unescape_host, H|].
  apply (no_byte plain_byte); [|exact H]. intros c Hc. apply (plain_byte_facts c Hc).
Qed.

Lemma parseAuthority_plain host :
  plain host = true -> url.parseAuthority host = Some (None, host).
Proof.
  intros H. unfold url.parseAuthority. rewrite CutLast_absent.
  - rewrite (parseHost_plain host H). reflexivity.
  - apply (no_byte plain_byte); [|exact H]. intros c Hc. apply (plain_byte_facts c Hc).
Qed.

(** [url.Parse] on a clean [https] URL. *)
Lemma Parse_https host q :
  plain host = true -> all_bytes path_byte q = true ->
  url.Parse ("https://" +:+ host +:+ "/" +:+ q) = Some (https_URL host ("/" +:+ q)).
Proof.
  intros Hh Hq.
  assert (Hall : all_bytes path_byte (host +:+ "/" +:+ q) = true).
  { rewrite !all_bytes_app, (plain_path host Hh), Hq. reflexivity. }
  assert (Hno : forall sep, (forall c, path_byte c = true -> Ascii.eqb c sep = false) ->
                 strings.ContainsByte (host +:+ "/" +:+ q) sep = false).
  { intros sep Hsep. apply (no_byte path_byte); assumption. }
  assert (Hhash : strings.ContainsByte (host +:+ "/" +:+ q) "#" = false)
    by (apply Hno; intros c Hc; apply (path_byte_facts c Hc)).
  assert (Hqm : strings.ContainsByte (host +:+ "/" +:+ q) "?" = false)
    by (apply Hno; intros c Hc; apply (path_byte_facts c Hc)).
  unfold url.Parse.
  rewrite Cut_absent
    by (change ("https://" +:+ host +:+ "/" +:+ q)
          with ("https://" +:+ (host +:+ "/" +:+ q));
        rewrite ContainsByte_app, Hhash; reflexivity).
  unfold url.parse.
  change ("https://" +:+ host +:+ "/" +:+ q)
    with ("https://" +:+ (host +:+ "/" +:+ q)).
  rewrite CTL_app, (no_CTL _ Hall). change (url.stringContainsCTLByte "https://") with false.
  cbn [orb].
  change ("https://" +:+ host +:+ "/" +:+ q)
    with (String "h" ("ttps://" +:+ (host +:+ "/" +:+ q))).
  cbn [String.eqb Ascii.eqb Bool.eqb].
  change (url.getScheme (String "h" ("ttps://" +:+ (host +:+ "/" +:+ q))))
    with (Some ("https", String "/" (String "/" (host +:+ "/" +:+ q)))).
  cbn [mbind option_bind]. change (strings.ToLower "https") with "https".
  rewrite HasSuffix_absent by (cbn [strings.ContainsByte Ascii.eqb Bool.eqb orb]; exact Hqm).
  cbn [andb].
  rewrite Cut_absent by (cbn [strings.ContainsByte Ascii.eqb Bool.eqb orb]; exact Hqm).
  cbn [strings.HasPrefix Ascii.eqb Bool.eqb andb negb orb String.eqb strings.drop].
  rewrite !HasPrefix_nil. cbn [andb negb orb].
  change (host +:+ "/" +:+ q) with (host +:+ String "/" q).
  rewrite Cut_first
    by (apply (no_byte plain_byte); [|exact Hh]; intros c Hc; apply (plain_byte_facts c Hc)).
  rewrite (parseAuthority_plain host Hh). cbn [mbind option_bind].
  unfold url.setPath.
  assert (Hp : all_bytes path_byte ("/" +:+ q) = true) by (rewrite all_bytes_app, Hq; reflexivity).
  rewrite (unescape_path _ Hp). cbn [mbind option_bind].
  rewrite (escape_path _ Hp), String.eqb_refl. reflexivity.
Qed.



(** *** Clean paths *)

Lemma SplitByte_plain s sep :
  strings.ContainsByte s sep = false -> strings.SplitByte s sep = [s].
Proof.
  induction s as [|c s IH]; [reflexivity|]. cbn [strings.ContainsByte strings.SplitByte].
  intros H. apply orb_false_elim in H. destruct H as [Hc Hs]. rewrite Hc, (IH Hs).
  reflexivity.
Qed.

Lemma SplitByte_app a b sep :
  strings.ContainsByte a sep = false ->
  strings.SplitByte (a +:+ String sep b) sep = a :: strings.SplitByte b sep.
Proof.
  induction a as [|c a IH]; intros H.
  - rewrite sapp_nil_l. cbn [strings.SplitByte]. rewrite Ascii.eqb_refl. reflexivity.
  - cbn [strings.ContainsByte] in H. apply orb_false_elim in H. destruct H as [Hc Ha].
    rewrite sapp_cons. cbn [strings.SplitByte]. rewrite Hc, (IH Ha). reflexivity.
Qed.

Lemma Join_cons2 x y l sep :
  strings.Join (x :: y :: l) sep = x +:+ sep +:+ strings.Join (y :: l) sep.
Proof. reflexivity. Qed.

Lemma elem_no_slash e : elem_ok e = true -> strings.ContainsByte e "/" = false.
Proof.
  unfold elem_ok, segment. intros H. apply orb_prop in H. destruct H as [H|H].
  - apply String.eqb_eq in H. subst e. reflexivity.
  - repeat (apply andb_prop in H; destruct H as [H ?]).
    apply (no_byte plain_byte); [|assumption]. intros c Hc. apply (plain_byte_facts c Hc).
Qed.

Lemma SplitByte_Join e es :
  forallb elem_ok (e :: es) = true ->
  strings.SplitByte (strings.Join (e :: es) "/") "/" = e :: es.
Proof.
  revert e. induction es as [|y es IH]; intros e H; cbn [forallb] in H;
    apply andb_prop in H; destruct H as [He Hes].
  - apply SplitByte_plain, elem_no_slash, He.
  - rewrite Join_cons2. change ("/" +:+ strings.Join (y :: es) "/")
      with (String "/" (strings.Join (y :: es) "/")).
    rewrite SplitByte_app by (apply elem_no_slash, He). rewrite (IH y Hes). reflexivity.
Qed.

Lemma clean_step_elem out e :
  elem_ok e = true ->
  path.clean_step true out e = if String.eqb e "" then out else e :: out.
Proof.
  unfold elem_ok, segment, path.clean_step. intros H.
  destruct (String.eqb e "") eqn:E; [reflexivity|]. cbn [orb negb andb] in H |- *.
  repeat (apply andb_prop in H; destruct H as [H ?]).
  repeat match goal with Hx : negb _ = true |- _ => apply negb_true_iff in Hx; rewrite Hx end.
  reflexivity.
Qed.

Lemma fold_clean es out :
  forallb elem_ok es = true ->
  fold_left (path.clean_step true) es out = (rev (keep_elems es) ++ out)%list.
Proof.
  revert out. induction es as [|e es IH]; intros out H; [reflexivity|].
  cbn [forallb] in H. apply andb_prop in H. destruct H as [He Hes].
  cbn [fold_left]. rewrite (clean_step_elem out e He), (IH _ Hes).
  unfold keep_elems. cbn [List.filter].
  destruct (String.eqb e ""); cbn [negb]; [reflexivity|].
  cbn [rev]. rewrite <- app_assoc. reflexivity.
Qed.

(** [Clean] on a rooted path drops the empty elements. *)
Lemma Clean_rooted es :
  forallb elem_ok es = true ->
  path.Clean ("/" +:+ strings.Join es "/") = "/" +:+ strings.Join (keep_elems es) "/".
Proof.
  intros H. change ("/" +:+ strings.Join es "/") with (String "/" (strings.Join es "/")).
  unfold path.Clean. rewrite Ascii.eqb_refl.
  change (String "/" (strings.Join es "/")) with ("" +:+ String "/" (strings.Join es "/")).
  rewrite SplitByte_app by reflexivity.
  destruct es as [|e es].
  - reflexivity.
  - rewrite (SplitByte_Join e es H).
    rewrite (fold_clean ("" :: e :: es) []) by (change (forallb elem_ok ("" :: e :: es))
          with (elem_ok "" && forallb elem_ok (e :: es)); rewrite H; reflexivity).
    change (keep_elems ("" :: e :: es)) with (keep_elems (e :: es)).
    rewrite app_nil_r, rev_involutive. reflexivity.
Qed.

Lemma Join_snoc l x sep :
  l <> [] -> strings.Join (l ++ [x]) sep = strings.Join l sep +:+ sep +:+ x.
Proof.
  induction l as [|a l IH]; intros H; [contradiction|].
  destruct l as [|b l]; [reflexivity|].
  change ((a :: b :: l) ++ [x])%list with (a :: b :: (l ++ [x]))%list.
  rewrite Join_cons2. change (b :: (l ++ [x]))%list with ((b :: l) ++ [x])%list.
  rewrite IH by discriminate. rewrite Join_cons2, !sapp_assoc. reflexivity.
Qed.

Lemma dir_of_Join segs file :
  dir_of segs +:+ "/" +:+ file = "/" +:+ strings.Join (segs ++ [file]) "/".
Proof.
  induction segs as [|s segs IH]; [reflexivity|].
  unfold dir_of in *. cbn [map]. rewrite concat_all_cons, !sapp_assoc, IH.
  destruct segs as [|t segs]; [reflexivity|].
  cbn [app]. rewrite Join_cons2. reflexivity.
Qed.

Lemma keep_segments segs : forallb segment segs = true -> keep_elems segs = segs.
Proof.
  induction segs as [|s segs IH]; [reflexivity|]. cbn [forallb]. intros H.
  apply andb_prop in H. destruct H as [Hs Hsegs]. unfold keep_elems in *.
  cbn [List.filter]. rewrite (IH Hsegs). unfold segment in Hs.
  repeat (apply andb_prop in Hs; destruct Hs as [Hs ?]). rewrite Hs. reflexivity.
Qed.

Lemma segments_ok segs : forallb segment segs = true -> forallb elem_ok segs = true.
Proof.
  induction segs as [|s segs IH]; [reflexivity|]. cbn [forallb]. intros H.
  apply andb_prop in H. destruct H as [Hs Hsegs]. unfold elem_ok at 1.
  rewrite Hs, orb_true_r, (IH Hsegs). reflexivity.
Qed.

Lemma forallb_snoc {A} (p : A -> bool) l x :
  forallb p (l ++ [x]) = forallb p l && p x.
Proof. rewrite forallb_app. cbn. rewrite andb_true_r. reflexivity. Qed.


(** The path [/s1/.../sn/file] is clean. *)
Lemma Clean_dir_file segs file :
  forallb segment segs = true -> segment file = true ->
  path.Clean (dir_of segs +:+ "/" +:+ file) = dir_of segs +:+ "/" +:+ file.
Proof.
  intros Hs Hf. rewrite dir_of_Join. rewrite Clean_rooted.
  - rewrite keep_segments; [reflexivity|]. rewrite forallb_snoc, Hs, Hf. reflexivity.
  - apply segments_ok. rewrite forallb_snoc, Hs, Hf. reflexivity.
Qed.




(** *** Base name, directory and extension *)

Lemma strip_slashes_plain f :
  strings.ContainsByte f "/" = false -> path.strip_slashes f = f.
Proof.
  induction f as [|c f IH]; [reflexivity|]. cbn [strings.ContainsByte path.strip_slashes].
  intros H. apply orb_false_elim in H. destruct H as [Hc Hf]. rewrite (IH Hf), Hc.
  reflexivity.
Qed.

Lemma strip_slashes_app a f :
  f <> "" -> strings.ContainsByte f "/" = false -> path.strip_slashes (a +:+ f) = a +:+ f.
Proof.
  intros Hne Hf. induction a as [|c a IH].
  - rewrite sapp_nil_l. apply strip_slashes_plain, Hf.
  - rewrite sapp_cons. cbn [path.strip_slashes]. rewrite IH.
    destruct (String.eqb_spec (a +:+ f) "") as [E|_]; [|rewrite andb_false_r; reflexivity].
    exfalso. destruct a; [rewrite sapp_nil_l in E; contradiction | discriminate E].
Qed.

Lemma Base_file d f :
  f <> "" -> strings.ContainsByte f "/" = false -> path.Base (d +:+ String "/" f) = f.
Proof.
  intros Hne Hf. unfold path.Base.
  destruct (String.eqb_spec (d +:+ String "/" f) "") as [E|_].
  { destruct d; discriminate E. }
  change (String "/" f) with ("/" +:+ f). rewrite <- sapp_assoc.
  rewrite (strip_slashes_app _ f Hne Hf). rewrite sapp_assoc.
  change ("/" +:+ f) with (String "/" f). rewrite (CutLast_last d f "/" Hf).
  destruct (String.eqb_spec f ""); [contradiction | reflexivity].
Qed.




Lemma HasSuffix_nil s : strings.HasSuffix s "" = true.
Proof.
  induction s as [|c s IH]; [reflexivity|]. cbn [strings.HasSuffix]. rewrite IH.
  apply orb_true_r.
Qed.

Lemma TrimSuffix_nil s : strings.TrimSuffix s "" = s.
Proof.
  induction s as [|c s IH]; [reflexivity|]. cbn [strings.TrimSuffix String.eqb].
  rewrite HasSuffix_nil, IH. reflexivity.
Qed.

Lemma HasSuffix_app a b : strings.HasSuffix (a +:+ b) b = true.
Proof.
  induction a as [|c a IH].
  - rewrite sapp_nil_l. destruct b; cbn [strings.HasSuffix]; rewrite String.eqb_refl;
      reflexivity.
  - rewrite sapp_cons. cbn [strings.HasSuffix]. rewrite IH. apply orb_true_r.
Qed.







Lemma segment_facts f :
  segment f = true ->
  f <> "" /\ plain f = true /\ strings.ContainsByte f "/" = false.
Proof.
  unfold segment. intros H. repeat (apply andb_prop in H; destruct H as [H ?]).
  apply negb_true_iff, String.eqb_neq in H. repeat split; auto.
  apply (no_byte plain_byte); [|assumption]. intros c Hc. apply (plain_byte_facts c Hc).
Qed.

Lemma dir_of_path segs :
  forallb segment segs = true -> all_bytes path_byte (dir_of segs) = true.
Proof.
  induction segs as [|s segs IH]; [reflexivity|]. cbn [forallb]. intros H.
  apply andb_prop in H. destruct H as [Hs Hsegs]. unfold dir_of in *. cbn [map].
  rewrite concat_all_cons, !all_bytes_app, (IH Hsegs).
  destruct (segment_facts s Hs) as (_ & Hp & _). rewrite (plain_path s Hp). reflexivity.
Qed.

Lemma https_url_eq host segs file :
  https_url host segs file
  = "https://" +:+ host +:+ "/" +:+ strings.Join (segs ++ [file]) "/".
Proof. unfold https_url. rewrite dir_of_Join. reflexivity. Qed.

Lemma path_bytes segs file :
  forallb segment segs = true -> segment file = true ->
  all_bytes path_byte (strings.Join (segs ++ [file]) "/") = true.
Proof.
  intros Hs Hf.
  assert (H : all_bytes path_byte (dir_of segs +:+ "/" +:+ file) = true).
  { destruct (segment_facts file Hf) as (_ & Hp & _).
    rewrite !all_bytes_app, (dir_of_path segs Hs), (plain_path file Hp). reflexivity. }
  rewrite dir_of_Join in H. exact H.
Qed.


End SimpleURLs.

(** ** Canonical URLs *)

Section Canonical.









End Canonical.

(** ** The document rewriter *)

Section Store.

Import goquery.

Lemma lookup_SetAttr d q name v p :
  nodes (SetAttr d q name v) !! p
  = if bool_decide (p = q) then html.set_Attr (insert name v) <$> nodes d !! p
    else nodes d !! p.
Proof.
  unfold SetAttr, set_nodes. cbn [nodes]. case_bool_decide as E.
  - subst. apply lookup_alter_eq.
  - apply lookup_alter_ne. congruence.
Qed.

Lemma lookup_RemoveAttr d q name p :
  nodes (RemoveAttr d q name) !! p
  = if bool_decide (p = q) then html.set_Attr (delete name) <$> nodes d !! p
    else nodes d !! p.
Proof.
  unfold RemoveAttr, set_nodes. cbn [nodes]. case_bool_decide as E.
  - subst. apply lookup_alter_eq.
  - apply lookup_alter_ne. congruence.
Qed.

Lemma Attr_SetAttr_eq d p name v :
  is_Some (nodes d !! p) -> Attr (SetAttr d p name v) p name = Some v.
Proof.
  intros [n Hn]. unfold Attr. rewrite lookup_SetAttr, bool_decide_eq_true_2 by reflexivity.
  rewrite Hn. cbn. apply lookup_insert_eq.
Qed.

Lemma Attr_SetAttr_ne d q name v p m :
  p <> q \/ m <> name -> Attr (SetAttr d q name v) p m = Attr d p m.
Proof.
  intros H. unfold Attr. rewrite lookup_SetAttr. case_bool_decide as E; [|reflexivity].
  destruct H as [H|H]; [contradiction|]. destruct (nodes d !! p) as [n|]; [|reflexivity].
  cbn. apply lookup_insert_ne. congruence.
Qed.

Lemma Attr_RemoveAttr_eq d p name : Attr (RemoveAttr d p name) p name = None.
Proof.
  unfold Attr. rewrite lookup_RemoveAttr, bool_decide_eq_true_2 by reflexivity.
  destruct (nodes d !! p) as [n|]; [|reflexivity]. cbn. apply lookup_delete_eq.
Qed.

Lemma Attr_RemoveAttr_ne d q name p m :
  p <> q \/ m <> name -> Attr (RemoveAttr d q name) p m = Attr d p m.
Proof.
  intros H. unfold Attr. rewrite lookup_RemoveAttr. case_bool_decide as E; [|reflexivity].
  destruct H as [H|H]; [contradiction|]. destruct (nodes d !! p) as [n|]; [|reflexivity].
  cbn. apply lookup_delete_ne. congruence.
Qed.


Lemma kind_SetAttr d q name v p : kind (SetAttr d q name v) p = kind d p.
Proof.
  unfold kind. rewrite lookup_SetAttr. case_bool_decide; [|reflexivity].
  destruct (nodes d !! p); reflexivity.
Qed.

Lemma kind_RemoveAttr d q name p : kind (RemoveAttr d q name) p = kind d p.
Proof.
  unfold kind. rewrite lookup_RemoveAttr. case_bool_decide; [|reflexivity].
  destruct (nodes d !! p); reflexivity.
Qed.

Lemma kind_is_Some d p : is_Some (kind d p) <-> is_Some (nodes d !! p).
Proof. unfold kind. apply fmap_is_Some. Qed.

Lemma persists_refl d : persists d d.
Proof. intros p _. reflexivity. Qed.

Lemma persists_trans d1 d2 d3 : persists d1 d2 -> persists d2 d3 -> persists d1 d3.
Proof.
  intros H12 H23 p Hp. rewrite <- (H12 p Hp). apply H23.
  apply kind_is_Some. rewrite (H12 p Hp). apply kind_is_Some, Hp.
Qed.

Lemma persists_is_Some d d' p :
  persists d d' -> is_Some (nodes d !! p) -> is_Some (nodes d' !! p).
Proof.
  intros H Hp. apply kind_is_Some. rewrite (H p Hp). apply kind_is_Some, Hp.
Qed.

Lemma persists_SetAttr d q name v : persists d (SetAttr d q name v).
Proof. intros p _. apply kind_SetAttr. Qed.

Lemma persists_RemoveAttr d q name : persists d (RemoveAttr d q name).
Proof. intros p _. apply kind_RemoveAttr. Qed.

Lemma extends_persists d d' : extends d d' -> persists d d'.
Proof.
  intros H p [n Hn]. destruct (H p n Hn) as (n' & Hn' & Ht & Hd & _).
  unfold kind. rewrite Hn, Hn'. cbn. rewrite Ht, Hd. reflexivity.
Qed.

Lemma extends_Attr d d' p name :
  extends d d' -> is_Some (nodes d !! p) -> Attr d' p name = Attr d p name.
Proof.
  intros H [n Hn]. destruct (H p n Hn) as (n' & Hn' & _ & _ & Ha).
  unfold Attr. rewrite Hn, Hn'. cbn. rewrite Ha. reflexivity.
Qed.

(** *** The shape of a document *)

Lemma same_shape_refl d : same_shape d d.
Proof. split; reflexivity. Qed.

Lemma same_shape_trans d1 d2 d3 : same_shape d1 d2 -> same_shape d2 d3 -> same_shape d1 d3.
Proof.
  intros [S12 H12] [S23 H23]. split; [congruence|]. intros p. rewrite H23. apply H12.
Qed.

Lemma size_alter (f : html.Node -> html.Node) q (h : gmap nat html.Node) :
  size (alter f q h) = size h.
Proof. rewrite <- !size_dom. rewrite dom_alter_L. reflexivity. Qed.

Lemma same_shape_SetAttr d q name v : same_shape d (SetAttr d q name v).
Proof.
  split; [apply size_alter|]. intros p. rewrite lookup_SetAttr.
  case_bool_decide; [|reflexivity]. destruct (nodes d !! p); reflexivity.
Qed.

Lemma same_shape_RemoveAttr d q name : same_shape d (RemoveAttr d q name).
Proof.
  split; [apply size_alter|]. intros p. rewrite lookup_RemoveAttr.
  case_bool_decide; [|reflexivity]. destruct (nodes d !! p); reflexivity.
Qed.

Lemma same_shape_with_local_src d s rel : same_shape d (with_local_src d s rel).
Proof.
  unfold with_local_src.
  eapply same_shape_trans; [|apply same_shape_SetAttr].
  eapply same_shape_trans; [|apply same_shape_RemoveAttr]. apply same_shape_RemoveAttr.
Qed.

Lemma shape_node d d' p :
  same_shape d d' ->
  match nodes d' !! p, nodes d !! p with
  | Some n', Some n => shape n' = shape n
  | None, None => True
  | _, _ => False
  end.
Proof.
  intros [_ H]. specialize (H p).
  destruct (nodes d' !! p), (nodes d !! p); cbn in H; try discriminate; auto.
  congruence.
Qed.

Lemma Contents_shape d d' p : same_shape d d' -> Contents d' p = Contents d p.
Proof.
  intros H. pose proof (shape_node d d' p H) as Hp. unfold Contents.
  destruct (nodes d' !! p), (nodes d !! p); try contradiction; [|reflexivity].
  unfold shape in Hp. congruence.
Qed.

Lemma descendants_shape d d' fuel p :
  same_shape d d' -> descendants fuel d' p = descendants fuel d p.
Proof.
  intros H. revert p. induction fuel as [|fuel IH]; intros p; [reflexivity|].
  cbn [descendants]. rewrite (Contents_shape d d' p H).
  induction (Contents d p) as [|c l IHl]; [reflexivity|].
  cbn [flat_map]. rewrite IH, IHl. reflexivity.
Qed.

Lemma matches_Tag_kind d t p :
  matches d [Tag t] p
  = match kind d p with
    | Some (html.ElementNode, tag) => String.eqb tag t
    | _ => false
    end.
Proof.
  unfold matches, kind. destruct (nodes d !! p) as [n|]; [|reflexivity]. cbn.
  unfold html.is_element. destruct (html.Type_ n); cbn; try reflexivity.
  apply orb_false_r.
Qed.

Lemma kind_shape d d' p : same_shape d d' -> kind d' p = kind d p.
Proof.
  intros H. pose proof (shape_node d d' p H) as Hp. unfold kind.
  destruct (nodes d' !! p), (nodes d !! p); try contradiction; [|reflexivity].
  unfold shape in Hp. cbn. congruence.
Qed.

Lemma matches_Tag_shape d d' t p :
  same_shape d d' -> matches d' [Tag t] p = matches d [Tag t] p.
Proof. intros H. rewrite !matches_Tag_kind, (kind_shape d d' p H). reflexivity. Qed.

Lemma Find_shape d d' p t : same_shape d d' -> Find d' p [Tag t] = Find d p [Tag t].
Proof.
  intros H. unfold Find. destruct H as [Hs H]. rewrite Hs.
  rewrite (descendants_shape d d' _ p (conj Hs H)). f_equal.
  apply list_filter_iff. intros q. rewrite (matches_Tag_shape d d' t q (conj Hs H)).
  reflexivity.
Qed.

Lemma Parents_from_shape d d' fuel p :
  same_shape d d' -> Parents_from fuel d' p = Parents_from fuel d p.
Proof.
  intros H. revert p. induction fuel as [|fuel IH]; intros p; [reflexivity|].
  cbn [Parents_from]. pose proof (shape_node d d' p H) as Hp.
  destruct (nodes d' !! p) as [n'|], (nodes d !! p) as [n|]; try contradiction;
    [|reflexivity].
  assert (E : html.Parent n' = html.Parent n) by (unfold shape in Hp; congruence).
  rewrite E. destruct (html.Parent n) as [q|]; [|reflexivity]. rewrite IH. f_equal.
  pose proof (shape_node d d' q H) as Hq.
  destruct (nodes d' !! q) as [m'|], (nodes d !! q) as [m|]; try contradiction;
    [|reflexivity].
  unfold html.is_element. replace (html.Type_ m') with (html.Type_ m); [reflexivity|].
  unfold shape in Hq. congruence.
Qed.

Lemma ParentsFiltered_shape d d' p t :
  same_shape d d' -> ParentsFiltered d' p [Tag t] = ParentsFiltered d p [Tag t].
Proof.
  intros H. unfold ParentsFiltered, Parents. rewrite (Parents_from_shape d d' _ p H).
  destruct H as [Hs H]. rewrite Hs. apply list_filter_iff. intros q.
  rewrite (matches_Tag_shape d d' t q (conj Hs H)). reflexivity.
Qed.

(** *** Selections *)

Lemma unique_spec seen l :
  NoDup (unique seen l) /\ forall x, x ∈ unique seen l -> x ∈ l /\ x ∉ seen.
Proof.
  revert seen. induction l as [|p l IH]; intros seen; cbn [unique].
  - split; [constructor|]. intros x Hx. inversion Hx.
  - case_bool_decide as Hp.
    + destruct (IH seen) as [Hn Hin]. split; [exact Hn|]. intros x Hx.
      destruct (Hin x Hx). split; [right|]; assumption.
    + destruct (IH (p :: seen)) as [Hn Hin]. split.
      * constructor; [|exact Hn]. intros Hx. destruct (Hin p Hx) as [_ Hs].
        apply Hs. left.
      * intros x Hx. apply elem_of_cons in Hx. destruct Hx as [->|Hx].
        -- split; [left | exact Hp].
        -- destruct (Hin x Hx) as [Hl Hs]. split; [right; exact Hl|].
           intros Hc. apply Hs. right. exact Hc.
Qed.

Lemma Find_NoDup d p sel : NoDup (Find d p sel).
Proof. apply unique_spec. Qed.

Lemma Find_matches d p sel q : q ∈ Find d p sel -> matches d sel q = true.
Proof.
  intros H. apply unique_spec in H. destruct H as [H _].
  apply list_elem_of_filter in H. apply H.
Qed.

Lemma matches_is_Some d sel q : matches d sel q = true -> is_Some (nodes d !! q).
Proof. unfold matches. destruct (nodes d !! q); [eauto | discriminate]. Qed.

Lemma ParentsFiltered_matches d p sel q :
  q ∈ ParentsFiltered d p sel -> matches d sel q = true.
Proof. intros H. apply list_elem_of_filter in H. apply H. Qed.

Lemma matches_Tag_persists d d' t p :
  persists d d' -> is_Some (nodes d !! p) -> matches d' [Tag t] p = matches d [Tag t] p.
Proof. intros H Hp. rewrite !matches_Tag_kind, (H p Hp). reflexivity. Qed.

(** An element has one tag. *)
Lemma matches_other_tag d t t' p :
  matches d [Tag t] p = true -> t <> t' -> matches d [Tag t'] p = false.
Proof.
  rewrite !matches_Tag_kind. destruct (kind d p) as [[[] tag]|]; try discriminate.
  intros E Hne. apply String.eqb_eq in E. subst tag. apply String.eqb_neq, Hne.
Qed.

End Store.

Section Allocation.

Import goquery.

Lemma alloc_Element parent tag attr kids h :
  alloc parent (Element tag attr kids) h
  = let p := fresh (dom h) in
    let '(ks, h2) := alloc_forest (Some p) kids
                       (<[p := html.mkNode html.ElementNode tag attr parent []]> h) in
    (p, alter (html.set_Children (fun _ => ks)) p h2).
Proof.
  cbn [alloc]. cbv zeta.
  set (p := fresh (dom h)).
  generalize (<[p := html.mkNode html.ElementNode tag attr parent []]> h). intros h1.
  match goal with
  | |- (let '(ks, h2) := ?go kids h1 in _) = _ =>
      assert (E : forall ts h', go ts h' = alloc_forest (Some p) ts h')
  end.
  { induction ts as [|t ts IH]; intros h'; [reflexivity|].
    cbn [alloc_forest]. destruct (alloc (Some p) t h') as [k h'']. rewrite IH.
    reflexivity. }
  rewrite E. reflexivity.
Qed.

Lemma alloc_forest_keeps (P : tree -> Prop) q (n : html.Node) :
  (forall t, P t -> forall parent h, h !! q = Some n -> (alloc parent t h).2 !! q = Some n) ->
  forall ts, Forall P ts ->
  forall parent h, h !! q = Some n -> (alloc_forest parent ts h).2 !! q = Some n.
Proof.
  intros HP ts Hts. induction Hts as [|t ts Ht Hts IH]; intros parent h Hq; [exact Hq|].
  cbn [alloc_forest]. pose proof (HP t Ht parent h Hq) as H1.
  destruct (alloc parent t h) as [k h']. cbn [snd] in H1.
  pose proof (IH parent h' H1) as H2.
  destruct (alloc_forest parent ts h') as [ks h'']. exact H2.
Qed.

(** Allocation leaves the nodes of the store alone. *)
Lemma alloc_keeps t :
  forall parent h q (n : html.Node), h !! q = Some n -> (alloc parent t h).2 !! q = Some n.
Proof.
  induction t as [s|s|tag attr kids IH] using tree_induction; intros parent h q n Hq.
  - cbn [alloc snd]. rewrite lookup_insert_ne; [exact Hq|].
    intros E. pose proof (is_fresh (dom h)) as Hf. rewrite E in Hf.
    apply Hf. apply (elem_of_dom_2 _ _ _ Hq).
  - cbn [alloc snd]. rewrite lookup_insert_ne; [exact Hq|].
    intros E. pose proof (is_fresh (dom h)) as Hf. rewrite E in Hf.
    apply Hf. apply (elem_of_dom_2 _ _ _ Hq).
  - rewrite alloc_Element. cbv zeta.
    assert (Hne : fresh (dom h) <> q).
    { intros E. pose proof (is_fresh (dom h)) as Hf. rewrite E in Hf.
      apply Hf. apply (elem_of_dom_2 _ _ _ Hq). }
    assert (H1 : <[fresh (dom h) := html.mkNode html.ElementNode tag attr parent []]> h !! q
                 = Some n) by (rewrite lookup_insert_ne; assumption).
    pose proof (alloc_forest_keeps (fun t => forall parent h q n, h !! q = Some n ->
                  (alloc parent t h).2 !! q = Some n) q n
                  (fun t Ht parent h => Ht parent h q n) kids IH
                  (Some (fresh (dom h))) _ H1) as H2.
    destruct (alloc_forest _ kids _) as [ks h2]. cbn [snd] in *.
    rewrite lookup_alter_ne; assumption.
Qed.

Lemma alloc_forest_frame ts parent h q (n : html.Node) :
  h !! q = Some n -> (alloc_forest parent ts h).2 !! q = Some n.
Proof.
  apply (alloc_forest_keeps (fun _ => True)).
  - intros t _ parent' h'. apply alloc_keeps.
  - apply Forall_forall. auto.
Qed.

Lemma lookup_alter_core (f : html.Node -> html.Node) q (h : gmap nat html.Node) p n :
  (forall m, html.Type_ (f m) = html.Type_ m /\ html.Data (f m) = html.Data m
             /\ html.Attr (f m) = html.Attr m) ->
  h !! p = Some n ->
  exists n', alter f q h !! p = Some n'
             /\ html.Type_ n' = html.Type_ n /\ html.Data n' = html.Data n
             /\ html.Attr n' = html.Attr n.
Proof.
  intros Hf Hp. destruct (decide (q = p)) as [->|Hne].
  - exists (f n). rewrite lookup_alter_eq, Hp. split; [reflexivity | apply Hf].
  - exists n. rewrite lookup_alter_ne by exact Hne. auto.
Qed.

(** A replacement leaves the nodes of the document their type, tag
    and attributes. *)
Lemma extends_ReplaceWithHtml parse d s h : extends d (ReplaceWithHtml parse d s h).
Proof.
  intros p n Hp. unfold ReplaceWithHtml.
  destruct (nodes d !! s) as [m|] eqn:Hs; [|eauto].
  destruct (html.Parent m) as [q|]; [|eauto].
  pose proof (alloc_forest_frame
                (parse match nodes d !! q with Some m0 => html.Data m0 | None => "" end h)
                (Some q) (nodes d) p n Hp) as H1.
  destruct (alloc_forest _ _ _) as [new h1]. cbn [snd nodes] in *.
  destruct (lookup_alter_core (html.set_Children (splice s new)) q h1 p n) as
    (n2 & H2 & T2 & D2 & A2); [intros; auto | exact H1 |].
  destruct (lookup_alter_core (html.set_Parent None) s
              (alter (html.set_Children (splice s new)) q h1) p n2) as
    (n3 & H3 & T3 & D3 & A3); [intros; auto | exact H2 |].
  exists n3. split; [exact H3|]. repeat split; congruence.
Qed.

End Allocation.
Section Relocation.

Import goquery.

Variable staticDir : string.
Variable ParseFragment : string -> string -> list tree.
Variable slug : string.

Local Abbreviation img := (rewriteImg staticDir ParseFragment slug).
Local Abbreviation video := (rewriteVideo staticDir slug).

Lemma extends_refl d : extends d d.
Proof. intros p n Hp. eauto. Qed.

(** *** One image *)

Lemma Attr_with_local_src d s rel :
  is_Some (nodes d !! s) ->
  Attr (with_local_src d s rel) s "srcset" = None
  /\ Attr (with_local_src d s rel) s "sizes" = None
  /\ Attr (with_local_src d s rel) s "src" = Some rel.
Proof.
  intros Hs. unfold with_local_src. repeat split.
  - rewrite Attr_SetAttr_ne by (right; discriminate).
    rewrite Attr_RemoveAttr_ne by (right; discriminate). apply Attr_RemoveAttr_eq.
  - rewrite Attr_SetAttr_ne by (right; discriminate). apply Attr_RemoveAttr_eq.
  - apply Attr_SetAttr_eq.
    apply (persists_is_Some (RemoveAttr d s "srcset")); [apply persists_RemoveAttr|].
    apply (persists_is_Some d); [apply persists_RemoveAttr | exact Hs].
Qed.

Lemma Attr_with_local_src_ne d s rel p name :
  p <> s \/ (name <> "srcset" /\ name <> "sizes" /\ name <> "src") ->
  Attr (with_local_src d s rel) p name = Attr d p name.
Proof.
  intros H. unfold with_local_src.
  rewrite Attr_SetAttr_ne, !Attr_RemoveAttr_ne; [reflexivity | | | ];
    destruct H as [H|(H1 & H2 & H3)]; auto.
Qed.

Lemma persists_with_local_src d s rel : persists d (with_local_src d s rel).
Proof.
  unfold with_local_src.
  eapply persists_trans; [|apply persists_SetAttr].
  eapply persists_trans; [|apply persists_RemoveAttr]. apply persists_RemoveAttr.
Qed.

(** What the callback of the images does to the document. *)
Lemma rewriteImg_doc d dl k :
  (relocated d k = true
   /\ fst (img (d, dl) k)
      = match enclosing_link d k with
        | Some a =>
            SetAttr (with_local_src d k (image_rel d slug k)) a "href" (image_rel d slug k)
        | None => with_local_src d k (image_rel d slug k)
        end)
  \/ (relocated d k = false /\ extends d (fst (img (d, dl) k))).
Proof.
  unfold relocated, is_emoji, image_best, image_rel, local_path, image_area, enclosing_link,
    rewriteImg. cbv zeta.
  destruct (strings.Contains (AttrOr d k "class") "wp-smiley"
            || strings.Contains (AttrOr d k "src") "/s.w.org/images/core/emoji/").
  - right. split; [reflexivity|].
    destruct (Attr d k "alt") as [alt|];
      [destruct (negb (String.eqb (strings.TrimSpace alt) ""))|];
      cbn [fst]; apply extends_ReplaceWithHtml.
  - cbn [negb andb].
    destruct (String.eqb (pickBestSrc (AttrOr d k "src") (AttrOr d k "srcset")) "").
    + right. split; [reflexivity | apply extends_refl].
    + left. split; [reflexivity|].
      fold (with_local_src d k
              (path.Join
                 [path.Join
                    ["/" +:+ (if (0 <? length (ParentsFiltered d k [Class "wp-block-gallery"]))%nat
                              then "galleries" else "images"); slug];
                  filenameFromURL
                    (toOriginalURL (pickBestSrc (AttrOr d k "src") (AttrOr d k "srcset")))])).
      rewrite (ParentsFiltered_shape d _ k "a" (same_shape_with_local_src d k _)).
      destruct (ParentsFiltered d k [Tag "a"]); reflexivity.
Qed.


Lemma enclosing_link_is_Some d k a : enclosing_link d k = Some a -> is_Some (nodes d !! a).
Proof.
  unfold enclosing_link. intros H. apply (matches_is_Some d [Tag "a"]).
  apply (ParentsFiltered_matches d k). destruct (ParentsFiltered d k [Tag "a"]) as [|x l];
    [discriminate|]. cbn in H. injection H as ->. left.
Qed.

Lemma rewriteImg_persists d dl k : persists d (fst (img (d, dl) k)).
Proof.
  destruct (rewriteImg_doc d dl k) as [[_ ->]|[_ H]]; [|apply extends_persists, H].
  destruct (enclosing_link d k).
  - eapply persists_trans; [apply persists_with_local_src | apply persists_SetAttr].
  - apply persists_with_local_src.
Qed.

(** The callback of an image leaves the other nodes all attributes
    but [href]. *)
Lemma rewriteImg_frame d dl k p name :
  is_Some (nodes d !! p) -> p <> k -> name <> "href" ->
  Attr (fst (img (d, dl) k)) p name = Attr d p name.
Proof.
  intros Hp Hk Hn.
  destruct (rewriteImg_doc d dl k) as [[_ ->]|[_ H]]; [|apply extends_Attr; assumption].
  destruct (enclosing_link d k).
  - rewrite Attr_SetAttr_ne by (right; exact Hn). apply Attr_with_local_src_ne. left.
    exact Hk.
  - apply Attr_with_local_src_ne. left. exact Hk.
Qed.

(** The callback of a relocated image. *)
Lemma rewriteImg_relocated d dl k :
  is_Some (nodes d !! k) -> relocated d k = true ->
  Attr (fst (img (d, dl) k)) k "srcset" = None
  /\ Attr (fst (img (d, dl) k)) k "sizes" = None
  /\ Attr (fst (img (d, dl) k)) k "src" = Some (image_rel d slug k)
  /\ forall a, enclosing_link d k = Some a ->
       Attr (fst (img (d, dl) k)) a "href" = Some (image_rel d slug k).
Proof.
  intros Hk Hr.
  destruct (rewriteImg_doc d dl k) as [[_ ->]|[E _]]; [|congruence].
  destruct (Attr_with_local_src d k (image_rel d slug k) Hk) as (H1 & H2 & H3).
  destruct (enclosing_link d k) as [a|] eqn:Ha.
  - rewrite !Attr_SetAttr_ne by (right; discriminate). repeat split; try assumption.
    intros a' E. injection E as <-. apply Attr_SetAttr_eq.
    apply (persists_is_Some d); [apply persists_with_local_src|].
    apply (enclosing_link_is_Some d k), Ha.
  - repeat split; try assumption. intros a' E. discriminate E.
Qed.


Lemma relocated_ext d d' k :
  (forall name, name <> "href" -> Attr d' k name = Attr d k name) ->
  relocated d' k = relocated d k /\ image_best d' k = image_best d k.
Proof.
  intros H. unfold relocated, is_emoji, image_best, AttrOr.
  rewrite !H by discriminate. auto.
Qed.

(** *** The pass over the images *)

Lemma images_persist l st : persists (fst st) (fst (fold_left img l st)).
Proof.
  revert st. induction l as [|k l IH]; intros st; [apply persists_refl|].
  cbn [fold_left]. eapply persists_trans; [|apply IH].
  destruct st as [d dl]. apply rewriteImg_persists.
Qed.

Lemma images_frame l st p name :
  is_Some (nodes (fst st) !! p) -> p ∉ l -> name <> "href" ->
  Attr (fst (fold_left img l st)) p name = Attr (fst st) p name.
Proof.
  revert st. induction l as [|k l IH]; intros st Hp Hl Hn; [reflexivity|].
  apply not_elem_of_cons in Hl. destruct Hl as [Hk Hl].
  cbn [fold_left]. rewrite IH; try assumption.
  - destruct st as [d dl]. apply rewriteImg_frame; assumption.
  - destruct st as [d dl]. apply (persists_is_Some d); [apply rewriteImg_persists|].
    exact Hp.
Qed.


(** *** One video *)

Lemma set_all_persists rel l d :
  persists d (fold_left (fun d s => SetAttr d s "src" rel) l d).
Proof.
  revert d. induction l as [|x l IH]; intros d; [apply persists_refl|].
  cbn [fold_left]. eapply persists_trans; [apply persists_SetAttr | apply IH].
Qed.


Lemma set_all_frame rel l d p name :
  p ∉ l \/ name <> "src" ->
  Attr (fold_left (fun d s => SetAttr d s "src" rel) l d) p name = Attr d p name.
Proof.
  revert d. induction l as [|x l IH]; intros d H; [reflexivity|].
  cbn [fold_left]. rewrite IH.
  - apply Attr_SetAttr_ne. destruct H as [H|H]; [left | right; exact H].
    intros ->. apply H. left.
  - destruct H as [H|H]; [left | right; exact H]. intros Hc. apply H. right. exact Hc.
Qed.

(** What the callback of the videos does to the document. *)
Lemma rewriteVideo_doc d dl v :
  (has_source d v = true
   /\ fst (video (d, dl) v)
      = fold_left (fun d' s => SetAttr d' s "src" (local_path "videos" slug (video_src d v)))
          (Find d v [Tag "source"])
          (SetAttr d v "src" (local_path "videos" slug (video_src d v))))
  \/ (has_source d v = false /\ fst (video (d, dl) v) = d).
Proof.
  unfold has_source, rewriteVideo. cbv zeta.
  destruct (String.eqb (strings.TrimSpace (video_src d v)) "").
  - right. auto.
  - left. split; [reflexivity|]. cbn [fst].
    rewrite (Find_shape d _ v "source" (same_shape_SetAttr d v "src" _)). reflexivity.
Qed.

Lemma rewriteVideo_persists d dl v : persists d (fst (video (d, dl) v)).
Proof.
  destruct (rewriteVideo_doc d dl v) as [[_ ->]|[_ ->]]; [|apply persists_refl].
  eapply persists_trans; [apply persists_SetAttr | apply set_all_persists].
Qed.

(** The callback of a video changes the [src] of the video and of
    [source] elements, nothing else. *)
Lemma rewriteVideo_frame d dl v p name :
  name <> "src" \/ (p <> v /\ matches d [Tag "source"] p = false) ->
  Attr (fst (video (d, dl) v)) p name = Attr d p name.
Proof.
  intros H. destruct (rewriteVideo_doc d dl v) as [[_ ->]|[_ ->]]; [|reflexivity].
  rewrite set_all_frame.
  - apply Attr_SetAttr_ne. destruct H as [H|[H _]]; [right | left]; exact H.
  - destruct H as [H|[_ H]]; [right; exact H | left]. intros Hc.
    apply Find_matches in Hc. congruence.
Qed.




(** *** The pass over the videos *)


Lemma videos_frame l st p name :
  is_Some (nodes (fst st) !! p) ->
  name <> "src" \/ ((p ∉ l) /\ matches (fst st) [Tag "source"] p = false) ->
  Attr (fst (fold_left video l st)) p name = Attr (fst st) p name.
Proof.
  revert st. induction l as [|k l IH]; intros st Hp H; [reflexivity|].
  destruct st as [d dl]. cbn [fold_left fst] in *.
  pose proof (rewriteVideo_persists d dl k) as Hper.
  rewrite IH.
  - apply rewriteVideo_frame. destruct H as [H|[Hl Hm]]; [left; exact H | right].
    split; [|exact Hm]. intros ->. apply Hl. left.
  - apply (persists_is_Some d); assumption.
  - destruct H as [H|[Hl Hm]]; [left; exact H | right]. split.
    + intros Hc. apply Hl. right. exact Hc.
    + rewrite (matches_Tag_persists d _ "source" p Hper Hp). exact Hm.
Qed.

(** The pass over the videos leaves the images alone, and of the
    other nodes all attributes but [src]. *)
Lemma videos_leave_images st p name :
  is_Some (nodes (fst st) !! p) ->
  name <> "src" \/ matches (fst st) [Tag "img"] p = true ->
  Attr (fst (rewriteVideos staticDir slug st)) p name = Attr (fst st) p name.
Proof.
  intros Hp H. unfold rewriteVideos. apply videos_frame; [exact Hp|].
  destruct H as [H|H]; [left; exact H | right]. split.
  - intros Hc. apply Find_matches in Hc.
    rewrite (matches_other_tag _ "img" "video" p H) in Hc; [discriminate|discriminate].
  - apply (matches_other_tag _ "img" "source" p H). discriminate.
Qed.

(** *** Images, from the first pass to the end *)

Lemma images_relocated st0 before i after :
  Find (fst st0) (root (fst st0)) [Tag "img"] = (before ++ i :: after)%list ->
  relocated (fst st0) i = true ->
  relocated (fst (fold_left img before st0)) i = true
  /\ image_best (fst (fold_left img before st0)) i = image_best (fst st0) i
  /\ Attr (fst (rewriteDocument staticDir ParseFragment slug st0)) i "srcset" = None
  /\ Attr (fst (rewriteDocument staticDir ParseFragment slug st0)) i "sizes" = None
  /\ Attr (fst (rewriteDocument staticDir ParseFragment slug st0)) i "src"
     = Some (image_rel (fst (fold_left img before st0)) slug i).
Proof.
  intros Himgs Hr.
  pose proof (Find_NoDup (fst st0) (root (fst st0)) [Tag "img"]) as Hnd.
  assert (Hm : matches (fst st0) [Tag "img"] i = true).
  { apply (Find_matches _ (root (fst st0))). rewrite Himgs.
    apply elem_of_app. right. left. }
  pose proof (matches_is_Some _ _ _ Hm) as Hi.
  rewrite Himgs in Hnd. apply NoDup_app in Hnd. destruct Hnd as (_ & Hb & Ha).
  apply NoDup_cons in Ha. destruct Ha as [Ha _].
  assert (Hbi : i ∉ before) by (intros Hc; apply (Hb i Hc); left).
  set (st := fold_left img before st0).
  pose proof (images_persist before st0) as Hper. fold st in Hper.
  pose proof (persists_is_Some _ _ i Hper Hi) as Hi'.
  destruct (relocated_ext (fst st0) (fst st) i) as [Er Eb].
  { intros name Hn. apply images_frame; assumption. }
  rewrite Er, Eb. split; [exact Hr|]. split; [reflexivity|].
  unfold rewriteDocument, rewriteImages. rewrite Himgs, fold_left_app. fold st.
  cbn [fold_left].
  assert (Hafter : forall name, name <> "href" ->
            Attr (fst (rewriteVideos staticDir slug (fold_left img after (img st i)))) i name
            = Attr (fst (img st i)) i name).
  { intros name Hn. destruct st as [d dl]. cbn [fst] in *.
    pose proof (rewriteImg_persists d dl i) as H1.
    pose proof (images_persist after (img (d, dl) i)) as H2.
    pose proof (persists_is_Some _ _ i H1 Hi') as Hi1.
    rewrite videos_leave_images.
    - apply images_frame; assumption.
    - apply (persists_is_Some _ _ i H2 Hi1).
    - right. rewrite (matches_Tag_persists _ _ "img" i H2 Hi1).
      rewrite (matches_Tag_persists _ _ "img" i H1 Hi').
      rewrite (matches_Tag_persists _ _ "img" i Hper Hi). exact Hm. }
  rewrite !Hafter by discriminate.
  destruct st as [d dl]. cbn [fst] in *.
  destruct (rewriteImg_relocated d dl i Hi') as (H1 & H2 & H3 & _); [congruence|].
  auto.
Qed.





(** *** Videos *)











End Relocation.



(** ** XML sanitizers: [encodeAmpersands] *)

Section Ampersands.

Lemma all_bytes_no_amp p d :
  p "&"%char = false -> all_bytes p d = true -> strings.ContainsByte d "&" = false.
Proof.
  intros Hp. induction d as [|c d IH]; [reflexivity|]. cbn [all_bytes strings.ContainsByte].
  intros H. apply andb_prop in H. destruct H as [Hc Hd]. rewrite (IH Hd), orb_false_r.
  destruct (Ascii.eqb_spec c "&"); [congruence | reflexivity].
Qed.

Lemma no_amp_app a b :
  strings.ContainsByte a "&" = false -> strings.ContainsByte b "&" = false ->
  strings.ContainsByte (a +:+ b) "&" = false.
Proof. intros Ha Hb. rewrite ContainsByte_app, Ha, Hb. reflexivity. Qed.

Lemma semi x : ";" +:+ x = String ";" x.
Proof. reflexivity. Qed.

(** An entity found is a prefix without ampersand, and it is found
    again before any text. *)
Lemma entity_spec rest ent after :
  entity rest = Some (ent, after) ->
  rest = ent +:+ after
  /\ strings.ContainsByte ent "&" = false
  /\ forall x, entity (ent +:+ x) = Some (ent, x).
Proof.
  unfold entity. destruct rest as [|c1 r1]; [discriminate|].
  destruct (Ascii.eqb_spec c1 "#") as [->|Hc1].
  - destruct r1 as [|c2 r2].
    + cbn. discriminate.
    + destruct (Ascii.eqb c2 "x" || Ascii.eqb c2 "X") eqn:Hx.
      * pose proof (span_spec isHex r2) as (E & Hd & Hr).
        destruct (span isHex r2) as [ds r3]. cbn [fst snd] in *.
        destruct r3 as [|c3 r4]; [discriminate|].
        destruct (String.eqb_spec ds "") as [|Hne]; [discriminate|]. cbn [negb andb].
        destruct (Ascii.eqb_spec c3 ";") as [->|]; [|discriminate].
        intros H. injection H as <- <-. split; [|split].
        -- rewrite !sapp_cons, sapp_assoc, semi. congruence.
        -- cbn [strings.ContainsByte]. rewrite ContainsByte_app.
           rewrite (all_bytes_no_amp isHex ds eq_refl Hd).
           apply orb_prop in Hx. destruct Hx as [Hx|Hx]; apply Ascii.eqb_eq in Hx; subst c2;
             reflexivity.
        -- intros x. rewrite !sapp_cons. rewrite Hx. rewrite sapp_assoc.
           rewrite (span_app isHex ds (";" +:+ x) Hd)
             by (right; exists ";"%char, x; split; reflexivity).
           cbn [String.append]. destruct (String.eqb_spec ds ""); [contradiction|].
           reflexivity.
      * pose proof (span_spec isDigit (String c2 r2)) as (E & Hd & Hr).
        destruct (span isDigit (String c2 r2)) as [ds r3]. cbn [fst snd] in *.
        destruct r3 as [|c3 r4]; [discriminate|].
        destruct (String.eqb_spec ds "") as [|Hne]; [discriminate|]. cbn [negb andb].
        destruct (Ascii.eqb_spec c3 ";") as [->|]; [|discriminate].
        intros H. injection H as <- <-. split; [|split].
        -- rewrite !sapp_cons, sapp_assoc, semi. congruence.
        -- cbn [strings.ContainsByte]. rewrite ContainsByte_app.
           rewrite (all_bytes_no_amp isDigit ds eq_refl Hd). reflexivity.
        -- intros x. rewrite !sapp_cons, sapp_assoc.
           destruct ds as [|d0 ds]; [contradiction|]. rewrite sapp_cons.
           assert (d0 = c2) by (rewrite sapp_cons in E; congruence). subst d0.
           rewrite Hx. rewrite <- sapp_cons.
           rewrite (span_app isDigit (String c2 ds) (";" +:+ x) Hd)
             by (right; exists ";"%char, x; split; reflexivity).
           cbn [String.append String.eqb negb andb Ascii.eqb Bool.eqb]. reflexivity.
  - destruct (Ascii.eqb c1 "#") eqn:E1; [apply Ascii.eqb_eq in E1; contradiction|].
    destruct (isAlpha c1) eqn:Ha; [|discriminate].
    pose proof (span_spec isAlphaNum r1) as (E & Hd & Hr).
    destruct (span isAlphaNum r1) as [ds r3]. cbn [fst snd] in *.
    destruct r3 as [|c3 r4]; [discriminate|].
    destruct (Ascii.eqb_spec c3 ";") as [->|]; [|discriminate].
    intros H. injection H as <- <-. split; [|split].
    + rewrite !sapp_cons, sapp_assoc, semi. congruence.
    + cbn [strings.ContainsByte]. rewrite ContainsByte_app.
      rewrite (all_bytes_no_amp isAlphaNum ds eq_refl Hd).
      destruct (Ascii.eqb_spec c1 "&") as [->|]; [discriminate Ha | reflexivity].
    + intros x. rewrite !sapp_cons, sapp_assoc. rewrite E1, Ha.
      rewrite (span_app isAlphaNum ds (";" +:+ x) Hd)
        by (right; exists ";"%char, x; split; reflexivity).
      reflexivity.
Qed.

Lemma escape_plain a b :
  strings.ContainsByte a "&" = false -> escape (a +:+ b) = a +:+ escape b.
Proof.
  induction a as [|c a IH]; [reflexivity|]. cbn [strings.ContainsByte]. intros H.
  apply orb_false_elim in H. destruct H as [Hc Ha].
  rewrite !sapp_cons. cbn [escape]. rewrite Hc, (IH Ha). reflexivity.
Qed.

Lemma well_escaped_plain a b :
  strings.ContainsByte a "&" = false -> well_escaped (a +:+ b) = well_escaped b.
Proof.
  induction a as [|c a IH]; [reflexivity|]. cbn [strings.ContainsByte]. intros H.
  apply orb_false_elim in H. destruct H as [Hc Ha].
  rewrite !sapp_cons. cbn [well_escaped]. rewrite Hc, (IH Ha). reflexivity.
Qed.

Lemma starts_entity_amp x : starts_entity ("amp;" +:+ x) = true.
Proof. reflexivity. Qed.

(** The loop with its jumps over the entities is [escape]. *)
Lemma loop_escape fuel :
  forall s, (String.length s <= fuel)%nat -> encodeAmpersands_loop fuel s = escape s.
Proof.
  induction fuel as [|fuel IH]; intros s Hs.
  - destruct s; [reflexivity | cbn in Hs; lia].
  - destruct s as [|c rest]; [reflexivity|]. cbn [encodeAmpersands_loop escape].
    cbn [String.length] in Hs. unfold starts_entity.
    destruct (Ascii.eqb c "&") eqn:Hc; cbn [negb andb].
    + destruct (entity rest) as [[ent after]|] eqn:He; cbn [negb].
      * destruct (entity_spec _ _ _ He) as (E & Hn & _). subst rest.
        rewrite (escape_plain ent after Hn), IH; [reflexivity|].
        rewrite sapp_length in Hs. lia.
      * rewrite IH by lia. reflexivity.
    + rewrite IH by lia. reflexivity.
Qed.

Lemma escape_well_escaped s : well_escaped (escape s) = true.
Proof.
  induction s as [|c rest IH]; [reflexivity|]. cbn [escape].
  destruct (Ascii.eqb c "&") eqn:Hc; cbn [andb].
  - unfold starts_entity at 1. destruct (entity rest) as [[ent after]|] eqn:He; cbn [negb].
    + cbn [well_escaped]. rewrite Hc, IH. cbn [negb orb].
      destruct (entity_spec _ _ _ He) as (E & Hn & Hx). subst rest.
      rewrite (escape_plain ent after Hn). unfold starts_entity. rewrite Hx. reflexivity.
    + change ("&amp;" +:+ escape rest) with (String "&" ("amp;" +:+ escape rest)).
      cbn [well_escaped]. rewrite starts_entity_amp.
      rewrite (well_escaped_plain "amp;" (escape rest) eq_refl), IH. reflexivity.
  - cbn [well_escaped]. rewrite Hc, IH. reflexivity.
Qed.

Lemma escape_fixed s : well_escaped s = true -> escape s = s.
Proof.
  induction s as [|c rest IH]; [reflexivity|]. cbn [well_escaped escape]. intros H.
  apply andb_prop in H. destruct H as [H1 H2]. rewrite (IH H2).
  destruct (Ascii.eqb c "&"); [|reflexivity]. cbn [negb orb] in H1. rewrite H1. reflexivity.
Qed.

Lemma no_amp_well_escaped s : strings.ContainsByte s "&" = false -> well_escaped s = true.
Proof.
  intros H. rewrite <- (sapp_nil_r s). rewrite (well_escaped_plain s "" H). reflexivity.
Qed.

Lemma encodeAmpersands_is_escape s : encodeAmpersands s = escape s.
Proof. unfold encodeAmpersands. apply loop_escape. lia. Qed.

(** X1: [encodeAmpersands] copies every byte and puts [amp;] behind
    exactly the ampersands that start no entity; the jumps of its
    loop over the entities lose nothing, whatever fuel above the
    length it is given. *)
Theorem encodeAmpersands_escape (s : string) :
  encodeAmpersands s = escape s
  /\ forall fuel, (String.length s <= fuel)%nat ->
       encodeAmpersands_loop fuel s = encodeAmpersands s.
Proof.
  unfold encodeAmpersands. split; [apply loop_escape; lia|].
  intros fuel H. rewrite !loop_escape by lia. reflexivity.
Qed.

(** X2: in the result of [encodeAmpersands] every ampersand starts
    an entity. *)
Theorem encodeAmpersands_well_escaped (s : string) :
  well_escaped (encodeAmpersands s) = true.
Proof.
  unfold encodeAmpersands. rewrite loop_escape by lia. apply escape_well_escaped.
Qed.

(** X3: [encodeAmpersands] changes no text in which every ampersand
    starts an entity, so none without ampersand and none it has
    written itself. *)
Theorem encodeAmpersands_idempotent (s : string) :
  (well_escaped s = true -> encodeAmpersands s = s)
  /\ (strings.ContainsByte s "&" = false -> encodeAmpersands s = s)
  /\ encodeAmpersands (encodeAmpersands s) = encodeAmpersands s.
Proof.
  assert (H : forall t, well_escaped t = true -> encodeAmpersands t = t).
  { intros t Ht. unfold encodeAmpersands. rewrite loop_escape by lia.
    apply escape_fixed, Ht. }
  split; [apply H|]. split.
  - intros Hn. apply H, no_amp_well_escaped, Hn.
  - apply H. unfold encodeAmpersands. rewrite loop_escape by lia. apply escape_well_escaped.
Qed.

End Ampersands.

(** ** UTF-8 *)

Section UTF8.

Import utf8.

Lemma land_ones_8 x : Z.land x 255 = x mod 256.
Proof. change 255 with (Z.ones 8). rewrite Z.land_ones by lia. reflexivity. Qed.

Lemma land_ones_6 x : Z.land x 63 = x mod 64.
Proof. change 63 with (Z.ones 6). rewrite Z.land_ones by lia. reflexivity. Qed.

Lemma land_ones_5 x : Z.land x 31 = x mod 32.
Proof. change 31 with (Z.ones 5). rewrite Z.land_ones by lia. reflexivity. Qed.

Lemma land_ones_4 x : Z.land x 15 = x mod 16.
Proof. change 15 with (Z.ones 4). rewrite Z.land_ones by lia. reflexivity. Qed.

Lemma land_ones_3 x : Z.land x 7 = x mod 8.
Proof. change 7 with (Z.ones 3). rewrite Z.land_ones by lia. reflexivity. Qed.

(** Bits that do not overlap add up. *)
Lemma lor_add a b k :
  0 <= k -> a mod 2 ^ k = 0 -> 0 <= b < 2 ^ k -> Z.lor a b = a + b.
Proof.
  intros Hk Ha Hb.
  assert (H : Z.land a b = 0).
  { apply Z.bits_inj'. intros n Hn. rewrite Z.land_spec, Z.bits_0.
    destruct (Z.lt_ge_cases n k) as [Hlt|Hge].
    - rewrite <- (Z.mod_pow2_bits_low a k n) by lia. rewrite Ha, Z.bits_0. reflexivity.
    - rewrite <- (Z.mod_small b (2 ^ k)) by lia.
      rewrite Z.mod_pow2_bits_high by lia. apply andb_false_r. }
  rewrite (Z.add_nocarry_lxor a b H). symmetry. apply Z.lxor_lor, H.
Qed.

Lemma byte_range c : 0 <= byte c < 256.
Proof.
  unfold byte, code. pose proof (N_ascii_bounded c) as H. lia.
Qed.

Lemma byte_to_byte x : 0 <= x < 256 -> byte (to_byte x) = x.
Proof.
  intros H. unfold byte, to_byte, code, chr. rewrite land_ones_8, Z.mod_small by lia.
  rewrite N_ascii_embedding by lia. lia.
Qed.

Lemma to_byte_byte c : to_byte (byte c) = c.
Proof.
  unfold byte, to_byte, code, chr. pose proof (N_ascii_bounded c) as H.
  rewrite land_ones_8, Z.mod_small by lia. rewrite N2Z.id. apply ascii_N_embedding.
Qed.


Ltac first_case :=
  unfold first;
  repeat match goal with
         | |- context [?a <? ?b] => destruct (Z.ltb_spec a b); try lia
         | |- context [?a =? ?b] => destruct (Z.eqb_spec a b); try lia
         end.

Lemma first_ascii b : 0 <= b < 128 -> first b = 240.
Proof. intros H. first_case; try reflexivity. Qed.

Lemma first_invalid b : 128 <= b < 194 \/ 245 <= b -> first b = 241.
Proof. intros H. first_case; try reflexivity. Qed.

Lemma first_two b : 194 <= b < 224 -> first b = 2.
Proof. intros H. first_case; try reflexivity. Qed.

Lemma first_three b :
  224 <= b < 240 ->
  first b = (if b =? 224 then 19 else if b =? 237 then 35 else 3).
Proof. intros H. first_case; try reflexivity. Qed.

Lemma first_four b :
  240 <= b < 245 ->
  first b = (if b =? 240 then 52 else if b =? 244 then 68 else 4).
Proof. intros H. first_case; try reflexivity. Qed.

Lemma of_nat_S n : Z.of_nat (S n) = Z.of_nat n + 1.
Proof. lia. Qed.

Ltac cmp :=
  repeat match goal with
         | |- context [?a <? ?b] => destruct (Z.ltb_spec a b); try lia
         | |- context [?a <=? ?b] => destruct (Z.leb_spec a b); try lia
         | |- context [?a =? ?b] => destruct (Z.eqb_spec a b); try lia
         end.

Lemma decode1 c0 t : byte c0 < 128 -> DecodeRuneInString (String c0 t) = (byte c0, 1%nat).
Proof.
  intros H. pose proof (byte_range c0) as Hb. unfold DecodeRuneInString.
  cbn [String.length Nat.ltb Nat.leb]. change (at_ (String c0 t) 0) with (byte c0).
  cbv zeta. rewrite (first_ascii (byte c0)) by lia. reflexivity.
Qed.

Lemma decode2 c0 c1 t :
  194 <= byte c0 < 224 -> 128 <= byte c1 <= 191 ->
  DecodeRuneInString (String c0 (String c1 t))
  = (Z.lor (Z.shiftl (Z.land (byte c0) 31) 6) (Z.land (byte c1) 63), 2%nat).
Proof.
  intros H0 H1. unfold DecodeRuneInString.
  cbn [String.length Nat.ltb Nat.leb]. change (at_ (String c0 (String c1 t)) 0) with (byte c0).
  change (at_ (String c0 (String c1 t)) 1) with (byte c1).
  cbv zeta. rewrite (first_two (byte c0)) by lia.
  change (240 <=? 2) with false. change (Z.land 2 7) with 2.
  change (acceptRanges (Z.shiftr 2 4)) with (128, 191). cbn [fst snd].
  rewrite !of_nat_S. cmp; try reflexivity.
Qed.

Lemma decode3 c0 c1 c2 t :
  224 <= byte c0 < 240 ->
  (if byte c0 =? 224 then 160 else 128) <= byte c1
                                        <= (if byte c0 =? 237 then 159 else 191) ->
  128 <= byte c2 <= 191 ->
  DecodeRuneInString (String c0 (String c1 (String c2 t)))
  = (Z.lor (Z.lor (Z.shiftl (Z.land (byte c0) 15) 12) (Z.shiftl (Z.land (byte c1) 63) 6))
           (Z.land (byte c2) 63), 3%nat).
Proof.
  intros H0 H1 H2. unfold DecodeRuneInString.
  cbn [String.length Nat.ltb Nat.leb].
  change (at_ (String c0 (String c1 (String c2 t))) 0) with (byte c0).
  change (at_ (String c0 (String c1 (String c2 t))) 1) with (byte c1).
  change (at_ (String c0 (String c1 (String c2 t))) 2) with (byte c2).
  cbv zeta. rewrite (first_three (byte c0)) by lia. rewrite !of_nat_S.
  destruct (Z.eqb_spec (byte c0) 224) as [E|N1].
  - change (240 <=? 19) with false. change (Z.land 19 7) with 3.
    change (acceptRanges (Z.shiftr 19 4)) with (160, 191). cbn [fst snd].
    destruct (Z.eqb_spec (byte c0) 237); [lia|]. cmp; try reflexivity.
  - destruct (Z.eqb_spec (byte c0) 237) as [E|N2].
    + change (240 <=? 35) with false. change (Z.land 35 7) with 3.
      change (acceptRanges (Z.shiftr 35 4)) with (128, 159). cbn [fst snd]. cmp;
      try reflexivity.
    + change (240 <=? 3) with false. change (Z.land 3 7) with 3.
      change (acceptRanges (Z.shiftr 3 4)) with (128, 191). cbn [fst snd]. cmp;
      try reflexivity.
Qed.

Lemma decode4 c0 c1 c2 c3 t :
  240 <= byte c0 < 245 ->
  (if byte c0 =? 240 then 144 else 128) <= byte c1
                                        <= (if byte c0 =? 244 then 143 else 191) ->
  128 <= byte c2 <= 191 -> 128 <= byte c3 <= 191 ->
  DecodeRuneInString (String c0 (String c1 (String c2 (String c3 t))))
  = (Z.lor (Z.lor (Z.lor (Z.shiftl (Z.land (byte c0) 7) 18)
                         (Z.shiftl (Z.land (byte c1) 63) 12))
                  (Z.shiftl (Z.land (byte c2) 63) 6))
           (Z.land (byte c3) 63), 4%nat).
Proof.
  intros H0 H1 H2 H3. unfold DecodeRuneInString.
  cbn [String.length Nat.ltb Nat.leb].
  change (at_ (String c0 (String c1 (String c2 (String c3 t)))) 0) with (byte c0).
  change (at_ (String c0 (String c1 (String c2 (String c3 t)))) 1) with (byte c1).
  change (at_ (String c0 (String c1 (String c2 (String c3 t)))) 2) with (byte c2).
  change (at_ (String c0 (String c1 (String c2 (String c3 t)))) 3) with (byte c3).
  cbv zeta. rewrite (first_four (byte c0)) by lia. rewrite !of_nat_S.
  destruct (Z.eqb_spec (byte c0) 240) as [E|N1].
  - change (240 <=? 52) with false. change (Z.land 52 7) with 4.
    change (acceptRanges (Z.shiftr 52 4)) with (144, 191). cbn [fst snd].
    destruct (Z.eqb_spec (byte c0) 244); [lia|]. cmp; try reflexivity.
  - destruct (Z.eqb_spec (byte c0) 244) as [E|N2].
    + change (240 <=? 68) with false. change (Z.land 68 7) with 4.
      change (acceptRanges (Z.shiftr 68 4)) with (128, 143). cbn [fst snd]. cmp;
      try reflexivity.
    + change (240 <=? 4) with false. change (Z.land 4 7) with 4.
      change (acceptRanges (Z.shiftr 4 4)) with (128, 191). cbn [fst snd]. cmp;
      try reflexivity.
Qed.


Ltac arith := Z.div_mod_to_equations; lia.

Lemma shiftr_6 x : Z.shiftr x 6 = x / 64.
Proof. rewrite Z.shiftr_div_pow2 by lia. reflexivity. Qed.

Lemma shiftr_12 x : Z.shiftr x 12 = x / 4096.
Proof. rewrite Z.shiftr_div_pow2 by lia. reflexivity. Qed.

Lemma shiftr_18 x : Z.shiftr x 18 = x / 262144.
Proof. rewrite Z.shiftr_div_pow2 by lia. reflexivity. Qed.

Lemma shiftl_6 x : Z.shiftl x 6 = x * 64.
Proof. rewrite Z.shiftl_mul_pow2 by lia. reflexivity. Qed.

Lemma shiftl_12 x : Z.shiftl x 12 = x * 4096.
Proof. rewrite Z.shiftl_mul_pow2 by lia. reflexivity. Qed.

Lemma shiftl_18 x : Z.shiftl x 18 = x * 262144.
Proof. rewrite Z.shiftl_mul_pow2 by lia. reflexivity. Qed.

(** The value of a continuation byte. *)
Lemma cont_byte x :
  byte (to_byte (Z.lor 128 (Z.land (Z.land x 255) 63))) = 128 + x mod 64.
Proof.
  rewrite <- Z.land_assoc. change (Z.land 255 63) with 63. rewrite land_ones_6.
  rewrite (lor_add 128 (x mod 64) 7) by (try reflexivity; arith).
  apply byte_to_byte. arith.
Qed.

(** The value of a leading byte. *)
Lemma lead_byte base k y :
  0 <= k -> base mod 2 ^ k = 0 -> 0 <= y < 2 ^ k -> 0 <= base -> base + 2 ^ k <= 256 ->
  byte (to_byte (Z.lor base (Z.land y 255))) = base + y.
Proof.
  intros Hk Hb Hy H0 H1.
  assert (2 ^ k <= 256) by lia.
  rewrite land_ones_8, (Z.mod_small y 256) by lia.
  rewrite (lor_add base y k) by assumption. apply byte_to_byte. lia.
Qed.

Lemma scalar_range r :
  scalar r = true -> 0 <= r <= 1114111 /\ (r < 55296 \/ 57343 < r).
Proof.
  unfold scalar. intros H. apply andb_prop in H. destruct H as [H H2].
  apply andb_prop in H. destruct H as [H0 H1].
  apply Z.leb_le in H0, H1. apply negb_true_iff, andb_false_iff in H2.
  split; [lia|]. destruct H2 as [H2|H2]; [apply Z.leb_gt in H2 | apply Z.leb_gt in H2]; lia.
Qed.

(** The bytes of a rune. *)
Lemma EncodeRune_cases r :
  scalar r = true ->
  (r <= 127 /\ EncodeRune r = String (to_byte r) "")
  \/ (128 <= r <= 2047
      /\ EncodeRune r
         = String (to_byte (Z.lor 192 (Z.land (Z.shiftr r 6) 255)))
             (String (to_byte (Z.lor 128 (Z.land (Z.land r 255) 63))) ""))
  \/ (2048 <= r <= 65535 /\ EncodeRune r = encode3 r)
  \/ (65536 <= r
      /\ EncodeRune r
         = String (to_byte (Z.lor 240 (Z.land (Z.shiftr r 18) 255)))
             (String (to_byte (Z.lor 128 (Z.land (Z.land (Z.shiftr r 12) 255) 63)))
                (String (to_byte (Z.lor 128 (Z.land (Z.land (Z.shiftr r 6) 255) 63)))
                   (String (to_byte (Z.lor 128 (Z.land (Z.land r 255) 63))) "")))).
Proof.
  intros H. destruct (scalar_range r H) as [Hr Hs]. unfold EncodeRune, MaxRune.
  rewrite (Z.mod_small r 4294967296) by lia. cbv zeta.
  destruct (Z.leb_spec r 127); [left; auto|].
  destruct (Z.leb_spec r 2047); [right; left; split; [lia | reflexivity]|].
  destruct (Z.ltb_spec 1114111 r); [lia|]. cbn [orb].
  destruct (Z.leb_spec 55296 r); destruct (Z.leb_spec r 57343); try lia; cbn [andb];
    (destruct (Z.leb_spec r 65535);
     [right; right; left; split; [lia | reflexivity]
     |right; right; right; split; [lia | reflexivity]]).
Qed.

(** Decoding finds a rune again in front of any text. *)
Lemma decode_encode r t :
  scalar r = true ->
  DecodeRuneInString (EncodeRune r +:+ t) = (r, String.length (EncodeRune r)).
Proof.
  intros H. destruct (scalar_range r H) as [Hr Hs].
  destruct (EncodeRune_cases r H) as [[H1 ->]|[[H2 ->]|[[H3 ->]|[H4 ->]]]].
  - rewrite sapp_cons, sapp_nil_l.
    assert (E : byte (to_byte r) = r) by (apply byte_to_byte; lia).
    rewrite decode1 by lia. rewrite E. reflexivity.
  - rewrite !sapp_cons, sapp_nil_l.
    assert (E0 : byte (to_byte (Z.lor 192 (Z.land (Z.shiftr r 6) 255))) = 192 + r / 64).
    { rewrite shiftr_6. apply (lead_byte 192 5); try reflexivity; try lia; arith. }
    assert (E1 : byte (to_byte (Z.lor 128 (Z.land (Z.land r 255) 63))) = 128 + r mod 64)
      by apply cont_byte.
    rewrite decode2 by (rewrite ?E0, ?E1; arith).
    rewrite E0, E1, land_ones_5, land_ones_6, shiftl_6.
    cbn [String.length]. f_equal.
    replace ((192 + r / 64) mod 32) with (r / 64) by arith.
    replace ((128 + r mod 64) mod 64) with (r mod 64) by arith.
    rewrite (lor_add (r / 64 * 64) (r mod 64) 6) by (try lia; arith). arith.
  - unfold encode3. rewrite !sapp_cons, sapp_nil_l.
    assert (E0 : byte (to_byte (Z.lor 224 (Z.land (Z.shiftr r 12) 255))) = 224 + r / 4096).
    { rewrite shiftr_12. apply (lead_byte 224 4); try reflexivity; try lia; arith. }
    assert (E1 : byte (to_byte (Z.lor 128 (Z.land (Z.land (Z.shiftr r 6) 255) 63)))
                 = 128 + (r / 64) mod 64)
      by (rewrite cont_byte, shiftr_6; reflexivity).
    assert (E2 : byte (to_byte (Z.lor 128 (Z.land (Z.land r 255) 63))) = 128 + r mod 64)
      by apply cont_byte.
    rewrite decode3.
    + rewrite E0, E1, E2, land_ones_4, !land_ones_6, shiftl_6, shiftl_12.
      cbn [String.length]. f_equal.
      replace ((224 + r / 4096) mod 16) with (r / 4096) by arith.
      replace ((128 + (r / 64) mod 64) mod 64) with ((r / 64) mod 64) by arith.
      replace ((128 + r mod 64) mod 64) with (r mod 64) by arith.
      rewrite (lor_add (r / 4096 * 4096) ((r / 64) mod 64 * 64) 12) by (try lia; arith).
      rewrite (lor_add _ (r mod 64) 6) by (try lia; arith). arith.
    + rewrite E0. arith.
    + rewrite E0, E1.
      destruct (Z.eqb_spec (224 + r / 4096) 224); destruct (Z.eqb_spec (224 + r / 4096) 237);
        arith.
    + rewrite E2. arith.
  - rewrite !sapp_cons, sapp_nil_l.
    assert (E0 : byte (to_byte (Z.lor 240 (Z.land (Z.shiftr r 18) 255))) = 240 + r / 262144).
    { rewrite shiftr_18. apply (lead_byte 240 3); try reflexivity; try lia; arith. }
    assert (E1 : byte (to_byte (Z.lor 128 (Z.land (Z.land (Z.shiftr r 12) 255) 63)))
                 = 128 + (r / 4096) mod 64)
      by (rewrite cont_byte, shiftr_12; reflexivity).
    assert (E2 : byte (to_byte (Z.lor 128 (Z.land (Z.land (Z.shiftr r 6) 255) 63)))
                 = 128 + (r / 64) mod 64)
      by (rewrite cont_byte, shiftr_6; reflexivity).
    assert (E3 : byte (to_byte (Z.lor 128 (Z.land (Z.land r 255) 63))) = 128 + r mod 64)
      by apply cont_byte.
    rewrite decode4.
    + rewrite E0, E1, E2, E3, land_ones_3, !land_ones_6, shiftl_6, shiftl_12, shiftl_18.
      cbn [String.length]. f_equal.
      replace ((240 + r / 262144) mod 8) with (r / 262144) by arith.
      replace ((128 + (r / 4096) mod 64) mod 64) with ((r / 4096) mod 64) by arith.
      replace ((128 + (r / 64) mod 64) mod 64) with ((r / 64) mod 64) by arith.
      replace ((128 + r mod 64) mod 64) with (r mod 64) by arith.
      rewrite (lor_add (r / 262144 * 262144) ((r / 4096) mod 64 * 4096) 18)
        by (try lia; arith).
      rewrite (lor_add _ ((r / 64) mod 64 * 64) 12) by (try lia; arith).
      rewrite (lor_add _ (r mod 64) 6) by (try lia; arith). arith.
    + rewrite E0. arith.
    + rewrite E0, E1.
      destruct (Z.eqb_spec (240 + r / 262144) 240);
        destruct (Z.eqb_spec (240 + r / 262144) 244); arith.
    + rewrite E2. arith.
    + rewrite E3. arith.
Qed.

End UTF8.
(** ** XML sanitizers: [removeInvalidXMLChars] and [sanitizeXML] *)

Section InvalidChars.

Import utf8.

Lemma drop_length w s : String.length (strings.drop w s) = (String.length s - w)%nat.
Proof.
  revert s. induction w as [|w IH]; intros s; cbn [strings.drop]; [lia|].
  destruct s as [|c s]; [reflexivity|]. cbn [String.length]. rewrite IH. lia.
Qed.

Lemma drop_app a t : strings.drop (String.length a) (a +:+ t) = t.
Proof. induction a as [|c a IH]; [reflexivity|]. rewrite sapp_cons. exact IH. Qed.

(** A rune takes a byte at least. *)
Lemma decode_width c s : (1 <= snd (DecodeRuneInString (String c s)))%nat.
Proof.
  unfold DecodeRuneInString. cbn [String.length Nat.ltb Nat.leb]. cbv zeta.
  repeat (lazymatch goal with
          | |- (1 <= snd (if ?b then _ else _))%nat => destruct b
          end; cbn [snd]; try lia).
Qed.

Lemma range_loop_fuel f1 :
  forall f2 s, (String.length s <= f1)%nat -> (String.length s <= f2)%nat ->
               range_loop f1 s = range_loop f2 s.
Proof.
  induction f1 as [|f1 IH]; intros f2 s H1 H2.
  - destruct s; [|cbn in H1; lia]. destruct f2; reflexivity.
  - destruct f2 as [|f2]; [destruct s; [reflexivity | cbn in H2; lia]|].
    destruct s as [|c s]; [reflexivity|]. cbn [range_loop].
    pose proof (decode_width c s) as Hw.
    destruct (DecodeRuneInString (String c s)) as [r w]. cbn [snd] in Hw.
    f_equal. cbn [String.length] in H1, H2.
    apply IH; rewrite drop_length; cbn [String.length]; lia.
Qed.

(** One turn of the loop over the runes. *)
Lemma range_step c s :
  range (String c s)
  = fst (DecodeRuneInString (String c s))
    :: range (strings.drop (snd (DecodeRuneInString (String c s))) (String c s)).
Proof.
  unfold range at 1. cbn [String.length range_loop].
  pose proof (decode_width c s) as Hw.
  destruct (DecodeRuneInString (String c s)) as [r w]. cbn [fst snd] in *.
  f_equal. apply range_loop_fuel; rewrite ?drop_length; cbn [String.length]; lia.
Qed.

Lemma EncodeRune_nonempty r : exists c e, EncodeRune r = String c e.
Proof.
  unfold EncodeRune, encode3. cbv zeta.
  repeat lazymatch goal with
         | |- exists c e, (if ?b then _ else _) = _ => destruct b
         end; eauto.
Qed.

Lemma range_encode r t : scalar r = true -> range (EncodeRune r +:+ t) = r :: range t.
Proof.
  intros H. pose proof (decode_encode r t H) as Hd.
  destruct (EncodeRune_nonempty r) as (c & e & E). rewrite E in *.
  rewrite sapp_cons in *. rewrite range_step, Hd. cbn [fst snd].
  rewrite <- sapp_cons, drop_app. reflexivity.
Qed.

Lemma encode_all_cons r l : encode_all (r :: l) = EncodeRune r +:+ encode_all l.
Proof. reflexivity. Qed.

Lemma range_encode_all l :
  Forall (fun r => scalar r = true) l -> range (encode_all l) = l.
Proof.
  induction 1 as [|r l Hr Hl IH]; [reflexivity|].
  rewrite encode_all_cons, range_encode, IH by assumption. reflexivity.
Qed.

Lemma xml_char_scalar r : xml_char r = true -> scalar r = true.
Proof.
  unfold xml_char, scalar.
  rewrite !orb_true_iff, !andb_true_iff, negb_true_iff, andb_false_iff.
  rewrite !Z.leb_le, !Z.eqb_eq, !Z.leb_gt. lia.
Qed.

Lemma removeInvalid_fold (l : list Z) out :
  fold_left (fun out r => if xml_char r then out +:+ EncodeRune r else out) l out
  = out +:+ encode_all (filter (fun r => xml_char r = true) l).
Proof.
  revert out. induction l as [|r l IH]; intros out; cbn [fold_left].
  - rewrite sapp_nil_r. reflexivity.
  - rewrite IH. destruct (xml_char r) eqn:E.
    + rewrite filter_cons_True by exact E. rewrite encode_all_cons, sapp_assoc. reflexivity.
    + rewrite filter_cons_False by congruence. reflexivity.
Qed.

Lemma removeInvalid_eq s :
  removeInvalidXMLChars s = encode_all (filter (fun r => xml_char r = true) (range s)).
Proof. unfold removeInvalidXMLChars. rewrite removeInvalid_fold. reflexivity. Qed.

Lemma filter_xml_scalar (l : list Z) :
  Forall (fun r => scalar r = true) (filter (fun r => xml_char r = true) l).
Proof.
  apply Forall_forall. intros r Hr. apply list_elem_of_filter in Hr.
  apply xml_char_scalar, Hr.
Qed.

Lemma filter_filter_xml (l : list Z) :
  filter (fun r => xml_char r = true) (filter (fun r => xml_char r = true) l)
  = filter (fun r => xml_char r = true) l.
Proof.
  induction l as [|r l IH]; [reflexivity|]. destruct (xml_char r) eqn:E.
  - rewrite !filter_cons_True by exact E. rewrite IH. reflexivity.
  - rewrite filter_cons_False by congruence. exact IH.
Qed.

(** A text made of XML characters stays as it is. *)
Lemma removeInvalid_encode_all l :
  Forall (fun r => xml_char r = true) l -> removeInvalidXMLChars (encode_all l) = encode_all l.
Proof.
  intros H. rewrite removeInvalid_eq, range_encode_all.
  - f_equal. induction H as [|r l Hr Hl IH]; [reflexivity|].
    rewrite filter_cons_True by exact Hr. rewrite IH. reflexivity.
  - eapply Forall_impl; [exact H|]. apply xml_char_scalar.
Qed.

(** X4: the result of [removeInvalidXMLChars] is valid UTF-8; its
    runes are the XML characters among the runes of the input, in
    their order; a second application changes nothing. *)
Theorem removeInvalidXMLChars_runes (s : string) :
  range (removeInvalidXMLChars s) = filter (fun r => xml_char r = true) (range s)
  /\ removeInvalidXMLChars s = encode_all (range (removeInvalidXMLChars s))
  /\ removeInvalidXMLChars (removeInvalidXMLChars s) = removeInvalidXMLChars s.
Proof.
  assert (E : range (removeInvalidXMLChars s)
              = filter (fun r => xml_char r = true) (range s)).
  { rewrite removeInvalid_eq. apply range_encode_all, filter_xml_scalar. }
  split; [exact E|]. split.
  - rewrite E. apply removeInvalid_eq.
  - rewrite (removeInvalid_eq (removeInvalidXMLChars s)), E, filter_filter_xml.
    symmetry. apply removeInvalid_eq.
Qed.

Lemma removeInvalid_cons c s :
  removeInvalidXMLChars (String c s)
  = (if xml_char (fst (DecodeRuneInString (String c s)))
     then EncodeRune (fst (DecodeRuneInString (String c s))) else "")
    +:+ removeInvalidXMLChars
          (strings.drop (snd (DecodeRuneInString (String c s))) (String c s)).
Proof.
  rewrite !removeInvalid_eq, range_step.
  destruct (xml_char (fst (DecodeRuneInString (String c s)))) eqn:E.
  - rewrite filter_cons_True by exact E. reflexivity.
  - rewrite filter_cons_False by congruence. reflexivity.
Qed.

Lemma is_ascii_byte c : is_ascii c = true -> 0 <= byte c < 128.
Proof.
  unfold is_ascii, byte. intros H. apply N.ltb_lt in H. lia.
Qed.

(** X5: of a text of ASCII bytes [removeInvalidXMLChars] deletes the
    control characters other than tab, line feed and carriage return,
    and nothing else. *)
Theorem removeInvalidXMLChars_ascii (s : string) :
  all_bytes is_ascii s = true ->
  removeInvalidXMLChars s
  = filter_bytes (fun c => (32 <=? byte c) || (byte c =? 9) || (byte c =? 10)
                           || (byte c =? 13)) s.
Proof.
  induction s as [|c s IH]; [reflexivity|]. cbn [all_bytes filter_bytes]. intros H.
  apply andb_prop in H. destruct H as [Hc Hs]. pose proof (is_ascii_byte c Hc) as Hb.
  rewrite removeInvalid_cons, decode1 by lia. cbn [fst snd strings.drop].
  rewrite (IH Hs).
  assert (E : xml_char (byte c)
              = (32 <=? byte c) || (byte c =? 9) || (byte c =? 10) || (byte c =? 13)).
  { unfold xml_char.
    repeat match goal with
           | |- context [?a <=? ?b] => destruct (Z.leb_spec a b)
           | |- context [?a =? ?b] => destruct (Z.eqb_spec a b)
           end; cbn; try reflexivity; lia. }
  rewrite <- E. destruct (xml_char (byte c)); [|reflexivity].
  unfold EncodeRune. rewrite Z.mod_small by lia. cbv zeta.
  destruct (Z.leb_spec (byte c) 127); [|lia]. rewrite to_byte_byte. reflexivity.
Qed.

(** X6: a byte that can start no rune is not removed: the
    replacement character U+FFFD takes its place. *)
Theorem removeInvalidXMLChars_replaces (c : ascii) (s : string) :
  128 <= byte c < 194 \/ 245 <= byte c ->
  removeInvalidXMLChars (String c s) = EncodeRune RuneError +:+ removeInvalidXMLChars s.
Proof.
  intros H. rewrite removeInvalid_cons.
  assert (E : DecodeRuneInString (String c s) = (RuneError, 1%nat)).
  { unfold DecodeRuneInString. cbn [String.length Nat.ltb Nat.leb].
    change (at_ (String c s) 0) with (byte c). cbv zeta.
    rewrite (first_invalid (byte c) H). reflexivity. }
  rewrite E. reflexivity.
Qed.

End InvalidChars.

(** ** XML sanitizers: [sanitizeXML] *)

Section Sanitize.

Import utf8.

Lemma byte_amp c : byte c <> 38 -> Ascii.eqb c "&" = false.
Proof.
  intros H. destruct (Ascii.eqb_spec c "&") as [->|]; [|reflexivity].
  exfalso. apply H. reflexivity.
Qed.

(** Only the ampersand has the byte of an ampersand in its
    encoding. *)
Lemma EncodeRune_no_amp r :
  scalar r = true -> r <> 38 -> strings.ContainsByte (EncodeRune r) "&" = false.
Proof.
  intros H Hr. destruct (scalar_range r H) as [Hs _].
  assert (Hc : forall x, strings.ContainsByte
                           (String (to_byte (Z.lor 128 (Z.land (Z.land x 255) 63))) "") "&"
                         = false).
  { intros x. cbn [strings.ContainsByte]. rewrite byte_amp; [reflexivity|].
    rewrite cont_byte. Z.div_mod_to_equations. lia. }
  assert (Hcons : forall c e, byte c <> 38 -> strings.ContainsByte e "&" = false ->
                              strings.ContainsByte (String c e) "&" = false).
  { intros c e H1 H2. cbn [strings.ContainsByte]. rewrite (byte_amp c H1), H2. reflexivity. }
  destruct (EncodeRune_cases r H) as [[H1 ->]|[[H2 ->]|[[H3 ->]|[H4 ->]]]].
  - apply Hcons; [|reflexivity]. rewrite byte_to_byte; lia.
  - apply Hcons; [|apply Hc]. rewrite shiftr_6.
    rewrite (lead_byte 192 5) by (try reflexivity; try lia; Z.div_mod_to_equations; lia).
    Z.div_mod_to_equations. lia.
  - unfold encode3. apply Hcons; [|apply Hcons; [|apply Hc]].
    + rewrite shiftr_12.
      rewrite (lead_byte 224 4) by (try reflexivity; try lia; Z.div_mod_to_equations; lia).
      Z.div_mod_to_equations. lia.
    + rewrite cont_byte. Z.div_mod_to_equations. lia.
  - apply Hcons; [|apply Hcons; [|apply Hcons; [|apply Hc]]].
    + rewrite shiftr_18.
      rewrite (lead_byte 240 3) by (try reflexivity; try lia; Z.div_mod_to_equations; lia).
      Z.div_mod_to_equations. lia.
    + rewrite cont_byte. Z.div_mod_to_equations. lia.
    + rewrite cont_byte. Z.div_mod_to_equations. lia.
Qed.

(** Escaping a text of XML characters gives a text of XML
    characters. *)
Lemma escape_encode_all l :
  Forall (fun r => xml_char r = true) l ->
  exists l', Forall (fun r => xml_char r = true) l' /\ escape (encode_all l) = encode_all l'.
Proof.
  induction 1 as [|r l Hr Hl (l' & Hl' & IH)].
  - exists []. split; [constructor | reflexivity].
  - rewrite encode_all_cons. destruct (Z.eq_dec r 38) as [->|Hne].
    + change (EncodeRune 38) with "&". rewrite sapp_cons, sapp_nil_l. cbn [escape].
      rewrite Ascii.eqb_refl. cbn [andb]. rewrite IH.
      destruct (negb (starts_entity (encode_all l))).
      * exists (38 :: 97 :: 109 :: 112 :: 59 :: l'). split; [|reflexivity].
        repeat (constructor; [reflexivity|]). exact Hl'.
      * exists (38 :: l'). split; [|reflexivity]. constructor; [reflexivity | exact Hl'].
    + rewrite escape_plain by (apply EncodeRune_no_amp; [apply xml_char_scalar, Hr | exact Hne]).
      rewrite IH. exists (r :: l'). split; [|reflexivity]. constructor; assumption.
Qed.

Lemma sanitizeXML_eq s : sanitizeXML s = escape (removeInvalidXMLChars s).
Proof. unfold sanitizeXML. cbv zeta. apply encodeAmpersands_is_escape. Qed.

(** X7: the result of [sanitizeXML] is valid UTF-8 made of XML
    characters, every ampersand in it starts an entity, and a second
    application changes nothing. *)
Theorem sanitizeXML_idempotent (s : string) :
  Forall (fun r => xml_char r = true) (range (sanitizeXML s))
  /\ sanitizeXML s = encode_all (range (sanitizeXML s))
  /\ well_escaped (sanitizeXML s) = true
  /\ sanitizeXML (sanitizeXML s) = sanitizeXML s.
Proof.
  rewrite !sanitizeXML_eq.
  destruct (escape_encode_all (filter (fun r => xml_char r = true) (range s))) as
    (l' & Hl' & E).
  { apply Forall_forall. intros r Hr. apply list_elem_of_filter in Hr. apply Hr. }
  rewrite <- removeInvalid_eq in E. rewrite E.
  assert (Hs : Forall (fun r => scalar r = true) l')
    by (eapply Forall_impl; [exact Hl' | apply xml_char_scalar]).
  rewrite (range_encode_all l' Hs). split; [exact Hl'|]. split; [reflexivity|].
  rewrite <- E. split; [apply escape_well_escaped|].
  rewrite E, (removeInvalid_encode_all l' Hl'), <- E.
  apply escape_fixed, escape_well_escaped.
Qed.

End Sanitize.

Lemma encodeAmpersands_escape_witness :
  encodeAmpersands "a & b &amp; c" = "a &amp; b &amp; c"
  /\ encodeAmpersands_loop 20 "a & b &amp; c" = encodeAmpersands "a & b &amp; c".
Proof.
  destruct (encodeAmpersands_escape "a & b &amp; c") as [H1 H2].
  split; [rewrite H1; reflexivity | apply H2; cbn; lia].
Defined.

Lemma encodeAmpersands_idempotent_witness :
  encodeAmpersands "&lt;p&gt; &#38; &#x26;" = "&lt;p&gt; &#38; &#x26;"
  /\ encodeAmpersands "no ampersand" = "no ampersand".
Proof.
  destruct (encodeAmpersands_idempotent "&lt;p&gt; &#38; &#x26;") as (H1 & _ & _).
  destruct (encodeAmpersands_idempotent "no ampersand") as (_ & H2 & _).
  split; [apply H1 | apply H2]; reflexivity.
Defined.

Lemma removeInvalidXMLChars_ascii_witness :
  removeInvalidXMLChars (String (chr 7) ("a" +:+ String (chr 9) (String (chr 127) "b")))
  = "a" +:+ String (chr 9) (String (chr 127) "b").
Proof.
  rewrite removeInvalidXMLChars_ascii; reflexivity.
Defined.

Lemma removeInvalidXMLChars_replaces_witness :
  removeInvalidXMLChars (String (chr 255) "a") = utf8.EncodeRune 65533 +:+ "a".
Proof.
  rewrite removeInvalidXMLChars_replaces; [reflexivity|]. right. vm_compute. discriminate.
Defined.

(** ** Paths and slugs *)

Section Slugs.

Variable MapToLower : string -> string.
Variable MapToUpper : string -> string.

Local Abbreviation slug := (slugify MapToLower MapToUpper).

(** X8: [ensureTrailingSlash] appends at most one slash, its result
    ends in a slash, and a second application changes nothing. *)
Theorem ensureTrailingSlash_slash (p : string) :
  strings.HasSuffix (ensureTrailingSlash p) "/" = true
  /\ (ensureTrailingSlash p = p \/ ensureTrailingSlash p = p +:+ "/")
  /\ ensureTrailingSlash (ensureTrailingSlash p) = ensureTrailingSlash p.
Proof.
  assert (H1 : strings.HasSuffix (ensureTrailingSlash p) "/" = true).
  { unfold ensureTrailingSlash. destruct (String.eqb p ""); [reflexivity|].
    destruct (strings.HasSuffix p "/") eqn:E; [exact E | apply HasSuffix_app]. }
  split; [exact H1|]. split.
  - unfold ensureTrailingSlash. destruct (String.eqb_spec p "") as [->|_]; [right; reflexivity|].
    destruct (strings.HasSuffix p "/"); auto.
  - unfold ensureTrailingSlash at 1. rewrite H1.
    destruct (String.eqb_spec (ensureTrailingSlash p) "") as [E|_]; [|reflexivity].
    rewrite E in H1. discriminate H1.
Qed.

(** *** [strings.Trim] *)

Lemma trimRightByte_all p s c :
  all_bytes p s = true -> all_bytes p (strings2.trimRightByte s c) = true.
Proof.
  induction s as [|a s IH]; [reflexivity|]. cbn [all_bytes strings2.trimRightByte].
  intros H. apply andb_prop in H. destruct H as [Ha Hs].
  destruct (Ascii.eqb a c && String.eqb (strings2.trimRightByte s c) ""); [reflexivity|].
  cbn [all_bytes]. rewrite Ha, (IH Hs). reflexivity.
Qed.

Lemma trimLeftByte_all p s c :
  all_bytes p s = true -> all_bytes p (strings2.trimLeftByte s c) = true.
Proof.
  induction s as [|a s IH]; [reflexivity|]. cbn [all_bytes strings2.trimLeftByte].
  intros H. destruct (Ascii.eqb a c); [|exact H].
  apply andb_prop in H. apply IH, H.
Qed.

Lemma trimRightByte_end s c :
  strings.HasSuffix (strings2.trimRightByte s c) (String c "") = false.
Proof.
  induction s as [|a s IH]; [reflexivity|]. cbn [strings2.trimRightByte].
  destruct (Ascii.eqb a c) eqn:Ea;
    destruct (String.eqb (strings2.trimRightByte s c) "") eqn:Er; cbn [andb];
    try reflexivity; cbn [strings.HasSuffix String.eqb]; rewrite ?Ea, ?Er, IH; reflexivity.
Qed.

Lemma trimLeftByte_end s c :
  strings.HasSuffix s (String c "") = false ->
  strings.HasSuffix (strings2.trimLeftByte s c) (String c "") = false.
Proof.
  induction s as [|a s IH]; [reflexivity|]. cbn [strings2.trimLeftByte]. intros H.
  destruct (Ascii.eqb a c); [|exact H]. apply IH.
  cbn [strings.HasSuffix] in H. apply orb_false_elim in H. apply H.
Qed.

Lemma trimLeftByte_start s c :
  strings.HasPrefix (strings2.trimLeftByte s c) (String c "") = false.
Proof.
  induction s as [|a s IH]; [reflexivity|]. cbn [strings2.trimLeftByte].
  destruct (Ascii.eqb a c) eqn:E; [exact IH|]. cbn [strings.HasPrefix].
  rewrite Ascii.eqb_sym, E. reflexivity.
Qed.

Lemma trimLeftByte_fixed s c :
  strings.HasPrefix s (String c "") = false -> strings2.trimLeftByte s c = s.
Proof.
  destruct s as [|a s]; [reflexivity|]. cbn [strings.HasPrefix strings2.trimLeftByte].
  rewrite Ascii.eqb_sym. destruct (Ascii.eqb a c); [|reflexivity].
  rewrite HasPrefix_nil. discriminate.
Qed.

Lemma trimRightByte_fixed s c :
  strings.HasSuffix s (String c "") = false -> strings2.trimRightByte s c = s.
Proof.
  induction s as [|a s IH]; [reflexivity|]. cbn [strings.HasSuffix String.eqb].
  intros H. apply orb_false_elim in H. destruct H as [H1 H2].
  cbn [strings2.trimRightByte]. rewrite (IH H2).
  destruct (Ascii.eqb a c); [rewrite H1|]; reflexivity.
Qed.

(** The result of [Trim] neither starts nor ends with the byte. *)
Lemma Trim_ends s c :
  strings.HasPrefix (strings2.Trim s c) (String c "") = false
  /\ strings.HasSuffix (strings2.Trim s c) (String c "") = false.
Proof.
  unfold strings2.Trim. split; [apply trimLeftByte_start|].
  apply trimLeftByte_end, trimRightByte_end.
Qed.

Lemma Trim_fixed s c :
  strings.HasPrefix s (String c "") = false -> strings.HasSuffix s (String c "") = false ->
  strings2.Trim s c = s.
Proof.
  intros H1 H2. unfold strings2.Trim. rewrite (trimRightByte_fixed s c H2).
  apply trimLeftByte_fixed, H1.
Qed.

(** *** [slugify] *)

Lemma slug_runs_bytes b s : all_bytes slug_byte (slug_runs b s) = true.
Proof.
  revert b. induction s as [|c s IH]; intros b; [reflexivity|]. cbn [slug_runs].
  destruct (slug_byte c) eqn:E.
  - cbn [all_bytes]. rewrite E, IH. reflexivity.
  - destruct b; [apply IH|]. cbn [all_bytes]. rewrite IH. reflexivity.
Qed.

Lemma slug_runs_fixed s : all_bytes slug_byte s = true -> slug_runs false s = s.
Proof.
  induction s as [|c s IH]; [reflexivity|]. cbn [all_bytes slug_runs]. intros H.
  apply andb_prop in H. destruct H as [Hc Hs]. rewrite Hc, (IH Hs). reflexivity.
Qed.

Lemma slug_shape (s : string) :
  all_bytes slug_byte (slug s) = true
  /\ strings.HasPrefix (slug s) "-" = false
  /\ strings.HasSuffix (slug s) "-" = false.
Proof.
  unfold slugify. cbv zeta. split; [|apply Trim_ends].
  unfold strings2.Trim. apply trimLeftByte_all, trimRightByte_all, slug_runs_bytes.
Qed.

(** X9: a slug is made of small letters, digits and hyphens, and
    neither starts nor ends with a hyphen, whatever the text. *)
Theorem slugify_alphabet (s : string) :
  all_bytes slug_byte (slug s) = true
  /\ strings.HasPrefix (slug s) "-" = false
  /\ strings.HasSuffix (slug s) "-" = false.
Proof. apply slug_shape. Qed.

Lemma slug_byte_facts c :
  slug_byte c = true ->
  is_ascii c = true /\ is_upper c = false /\ Ascii.eqb " " c = false.
Proof. destruct c as [[] [] [] [] [] [] [] []]; vm_compute; intros H; try discriminate H; auto. Qed.

Lemma replace_space_fixed s :
  all_bytes slug_byte s = true -> strings2.ReplaceAll s " " "-" = s.
Proof.
  unfold strings2.ReplaceAll. induction s as [|c s IH]; [reflexivity|].
  cbn [all_bytes strings2.replace_from strings.HasPrefix]. intros H.
  apply andb_prop in H. destruct H as [Hc Hs].
  destruct (slug_byte_facts c Hc) as (_ & _ & E). rewrite E. cbn [andb].
  rewrite (IH Hs). reflexivity.
Qed.

Lemma ToLower_fixed s : all_bytes slug_byte s = true -> strings_ToLower MapToLower s = s.
Proof.
  intros H. unfold strings_ToLower.
  assert (Ha : all_bytes is_ascii s = true).
  { revert H. apply all_bytes_impl. intros c Hc. apply (slug_byte_facts c Hc). }
  rewrite Ha. induction s as [|c s IH]; [reflexivity|]. cbn [all_bytes] in *.
  apply andb_prop in H. destruct H as [Hc Hs]. apply andb_prop in Ha.
  cbn [strings.ToLower]. rewrite (IH Hs) by apply Ha. unfold strings.to_lower.
  destruct (slug_byte_facts c Hc) as (_ & -> & _). reflexivity.
Qed.

Lemma replaceEmojis_fold l b :
  fold_left
    (fun b r =>
       if isEmojiRune r then (b +:+ "u") +:+ strings_ToUpper MapToUpper (Sprintf_X r)
       else if (r =? 8205) || (r =? 65039) then b
       else b +:+ utf8.EncodeRune r) l b
  = b +:+ fold_left
            (fun b r =>
               if isEmojiRune r then (b +:+ "u") +:+ strings_ToUpper MapToUpper (Sprintf_X r)
               else if (r =? 8205) || (r =? 65039) then b
               else b +:+ utf8.EncodeRune r) l "".
Proof.
  revert b. induction l as [|r l IH]; intros b; cbn [fold_left].
  - rewrite sapp_nil_r. reflexivity.
  - rewrite IH. symmetry. rewrite IH. symmetry.
    destruct (isEmojiRune r); [rewrite !sapp_assoc; reflexivity|].
    destruct ((r =? 8205) || (r =? 65039)); [reflexivity|].
    rewrite !sapp_assoc. reflexivity.
Qed.

(** A text of ASCII bytes has no emoji. *)
Lemma replaceEmojis_ascii s :
  all_bytes is_ascii s = true -> replaceEmojisWithCode MapToUpper s = s.
Proof.
  induction s as [|c s IH]; [reflexivity|]. cbn [all_bytes]. intros H.
  apply andb_prop in H. destruct H as [Hc Hs]. pose proof (is_ascii_byte c Hc) as Hb.
  unfold replaceEmojisWithCode in *. rewrite range_step, decode1 by lia.
  cbn [fst snd strings.drop fold_left]. rewrite replaceEmojis_fold, (IH Hs).
  assert (E1 : isEmojiRune (utf8.byte c) = false).
  { unfold isEmojiRune.
    repeat match goal with
           | |- context [?a <=? utf8.byte c] => destruct (Z.leb_spec a (utf8.byte c)); [lia|]
           end. reflexivity. }
  rewrite E1.
  destruct (Z.eqb_spec (utf8.byte c) 8205); [lia|].
  destruct (Z.eqb_spec (utf8.byte c) 65039); [lia|]. cbn [orb].
  unfold utf8.EncodeRune. rewrite Z.mod_small by lia. cbv zeta.
  destruct (Z.leb_spec (utf8.byte c) 127); [|lia]. rewrite to_byte_byte. reflexivity.
Qed.

(** X10: a slug is its own slug. *)
Theorem slugify_idempotent (s : string) :
  slugify MapToLower MapToUpper (slugify MapToLower MapToUpper s)
  = slugify MapToLower MapToUpper s.
Proof.
  destruct (slug_shape s) as (Hb & Hp & Hs).
  generalize dependent (slug s). intros t Hb Hp Hs.
  unfold slugify. cbv zeta.
  rewrite replaceEmojis_ascii
    by (revert Hb; apply all_bytes_impl; intros c Hc; apply (slug_byte_facts c Hc)).
  rewrite (ToLower_fixed t Hb), (replace_space_fixed t Hb), (slug_runs_fixed t Hb).
  apply Trim_fixed; assumption.
Qed.


(** *** [extractPathParts] *)

Lemma SplitByte_elems s sep :
  Forall (fun e => strings.ContainsByte e sep = false) (strings.SplitByte s sep).
Proof.
  induction s as [|c s IH]; cbn [strings.SplitByte].
  - constructor; [reflexivity | constructor].
  - destruct (Ascii.eqb c sep) eqn:E; [constructor; [reflexivity | exact IH]|].
    destruct (strings.SplitByte s sep) as [|x l]; inversion IH; subst.
    + constructor; [|constructor]. cbn [strings.ContainsByte]. rewrite E. reflexivity.
    + constructor; [|assumption]. cbn [strings.ContainsByte]. rewrite E. assumption.
Qed.

Lemma SplitByte_length s sep :
  length (strings.SplitByte s sep) = S (strings.CountByte s sep).
Proof.
  induction s as [|c s IH]; [reflexivity|]. cbn [strings.SplitByte strings.CountByte].
  destruct (Ascii.eqb c sep); [cbn [length]; rewrite IH; reflexivity|].
  destruct (strings.SplitByte s sep) as [|x l]; cbn [length] in *; lia.
Qed.

Lemma trimRightByte_trail x trail c :
  all_bytes (Ascii.eqb c) trail = true ->
  strings2.trimRightByte (x +:+ trail) c = strings2.trimRightByte x c.
Proof.
  intros Ht. induction x as [|a x IH].
  - rewrite sapp_nil_l. induction trail as [|b trail IHt]; [reflexivity|].
    cbn [all_bytes] in Ht. apply andb_prop in Ht. destruct Ht as [Hb Ht].
    cbn [strings2.trimRightByte]. rewrite (IHt Ht). rewrite Ascii.eqb_sym in Hb.
    rewrite Hb. reflexivity.
  - rewrite sapp_cons. cbn [strings2.trimRightByte]. rewrite IH. reflexivity.
Qed.

Lemma no_byte_ends e c :
  e <> "" -> strings.ContainsByte e c = false ->
  strings.HasPrefix e (String c "") = false /\ strings.HasSuffix e (String c "") = false.
Proof.
  intros Hne H. split.
  - destruct e as [|a e]; [contradiction|]. cbn [strings.ContainsByte] in H.
    apply orb_false_elim in H. cbn [strings.HasPrefix]. rewrite Ascii.eqb_sym.
    destruct H as [-> _]. reflexivity.
  - clear Hne. induction e as [|a e IH]; [reflexivity|].
    cbn [strings.ContainsByte] in H. apply orb_false_elim in H. destruct H as [Ha He].
    cbn [strings.HasSuffix String.eqb]. rewrite Ha, (IH He). reflexivity.
Qed.

Lemma HasSuffix_tail a b c :
  b <> "" -> strings.HasSuffix (a +:+ b) (String c "") = strings.HasSuffix b (String c "").
Proof.
  intros Hb. induction a as [|x a IH]; [reflexivity|]. rewrite sapp_cons.
  cbn [strings.HasSuffix String.eqb]. rewrite IH.
  destruct (Ascii.eqb x c); [|reflexivity].
  destruct (String.eqb_spec (a +:+ b) "") as [E|_]; [|reflexivity].
  destruct a; [contradiction | discriminate E].
Qed.

Lemma extractPathParts_segments (y m d t trail : string) :
  strings.ContainsByte y "/" = false -> strings.ContainsByte m "/" = false ->
  strings.ContainsByte d "/" = false -> strings.ContainsByte t "/" = false ->
  y <> "" -> t <> "" -> all_bytes (Ascii.eqb "/") trail = true ->
  extractPathParts ("/" +:+ y +:+ "/" +:+ m +:+ "/" +:+ d +:+ "/" +:+ t +:+ trail)
  = (y, m, t).
Proof.
  intros Hy Hm Hd Ht Hyn Htn Htr. unfold extractPathParts.
  set (body := y +:+ "/" +:+ m +:+ "/" +:+ d +:+ "/" +:+ t).
  assert (E : "/" +:+ y +:+ "/" +:+ m +:+ "/" +:+ d +:+ "/" +:+ t +:+ trail
              = String "/" (body +:+ trail)).
  { unfold body. rewrite !sapp_assoc. reflexivity. }
  rewrite E. clear E.
  assert (Hp : strings.HasPrefix body "/" = false).
  { unfold body. destruct y as [|a y]; [contradiction|]. rewrite sapp_cons.
    cbn [strings.ContainsByte] in Hy. apply orb_false_elim in Hy.
    cbn [strings.HasPrefix]. rewrite Ascii.eqb_sym. destruct Hy as [-> _]. reflexivity. }
  assert (Hs : strings.HasSuffix body "/" = false).
  { unfold body. rewrite <- !sapp_assoc. rewrite HasSuffix_tail by exact Htn.
    apply (no_byte_ends t "/" Htn Ht). }
  assert (Hb : body <> "").
  { unfold body. destruct y; [contradiction | discriminate]. }
  assert (T : strings2.Trim (String "/" (body +:+ trail)) "/" = body).
  { unfold strings2.Trim. cbn [strings2.trimRightByte].
    rewrite (trimRightByte_trail body trail "/" Htr), (trimRightByte_fixed body "/" Hs).
    destruct (String.eqb_spec body ""); [contradiction|]. cbn [Ascii.eqb Bool.eqb andb].
    cbn [strings2.trimLeftByte Ascii.eqb Bool.eqb]. apply trimLeftByte_fixed, Hp. }
  rewrite T. unfold body.
  change ("/" +:+ m +:+ "/" +:+ d +:+ "/" +:+ t)
    with (String "/" (m +:+ "/" +:+ d +:+ "/" +:+ t)).
  rewrite (SplitByte_app y _ "/" Hy).
  change ("/" +:+ d +:+ "/" +:+ t) with (String "/" (d +:+ "/" +:+ t)).
  rewrite (SplitByte_app m _ "/" Hm).
  change ("/" +:+ t) with (String "/" t).
  rewrite (SplitByte_app d _ "/" Hd), (SplitByte_plain t "/" Ht). reflexivity.
Qed.

(** X11: of a WordPress permalink path [/year/month/day/name/]
    [extractPathParts] yields the year, the month and the name; the
    day is passed over and nothing is checked to be a number. *)
Theorem extractPathParts_permalink (y m d t trail : string) :
  strings.ContainsByte y "/" = false -> strings.ContainsByte m "/" = false ->
  strings.ContainsByte d "/" = false -> strings.ContainsByte t "/" = false ->
  y <> "" -> t <> "" -> all_bytes (Ascii.eqb "/") trail = true ->
  extractPathParts ("/" +:+ y +:+ "/" +:+ m +:+ "/" +:+ d +:+ "/" +:+ t +:+ trail)
  = (y, m, t).
Proof. apply extractPathParts_segments. Qed.

(** X12: the parts that [extractPathParts] yields hold no slash,
    and a path of fewer than four elements yields three empty
    parts. *)
Theorem extractPathParts_parts (p : string) :
  strings.ContainsByte (extractPathParts p).1.1 "/" = false
  /\ strings.ContainsByte (extractPathParts p).1.2 "/" = false
  /\ strings.ContainsByte (extractPathParts p).2 "/" = false
  /\ ((strings.CountByte (strings2.Trim p "/") "/" < 3)%nat ->
      extractPathParts p = ("", "", "")).
Proof.
  unfold extractPathParts. cbv zeta.
  pose proof (SplitByte_elems (strings2.Trim p "/") "/") as H.
  pose proof (SplitByte_length (strings2.Trim p "/") "/") as L.
  destruct (strings.SplitByte (strings2.Trim p "/") "/") as [|y [|m [|d [|t l]]]];
    cbn [fst snd]; try (repeat split; reflexivity).
  cbn [length] in L. inversion H as [|? ? Hy H1]; subst.
  inversion H1 as [|? ? Hm H2]; subst. inversion H2 as [|? ? Hd H3]; subst.
  inversion H3 as [|? ? Ht H4]; subst. repeat split; try assumption. intros Hc. lia.
Qed.

End Slugs.

Lemma extractPathParts_permalink_witness :
  extractPathParts "/2024/01/15/my-post/" = ("2024", "01", "my-post").
Proof.
  apply (extractPathParts_permalink "2024" "01" "15" "my-post" "/");
    try reflexivity; discriminate.
Defined.

Lemma extractPathParts_parts_witness :
  extractPathParts "/2024/01/my-post/" = ("", "", "").
Proof.
  destruct (extractPathParts_parts "/2024/01/my-post/") as (_ & _ & _ & H).
  apply H. vm_compute. lia.
Defined.

(** ** Tags and categories *)

Section Sorting.

(** *** The order of strings *)

Lemma string_lt_irrefl a : string_lt a a = false.
Proof.
  induction a as [|x a IH]; [reflexivity|]. cbn [string_lt].
  rewrite N.ltb_irrefl, N.eqb_refl, IH. reflexivity.
Qed.

Lemma code_inj x y : code x = code y -> x = y.
Proof.
  unfold code. intros H. rewrite <- (ascii_N_embedding x), <- (ascii_N_embedding y), H.
  reflexivity.
Qed.

Lemma string_lt_trans a :
  forall b c, string_lt a b = true -> string_lt b c = true -> string_lt a c = true.
Proof.
  induction a as [|x a IH]; intros [|y b] [|z c]; cbn [string_lt]; try discriminate;
    try reflexivity.
  intros H1 H2. apply orb_prop in H1, H2. apply orb_true_iff.
  destruct H1 as [H1|H1], H2 as [H2|H2].
  - left. apply N.ltb_lt in H1, H2. apply N.ltb_lt. lia.
  - apply andb_prop in H2. destruct H2 as [H2 _]. apply N.eqb_eq in H2. left.
    rewrite <- H2. exact H1.
  - apply andb_prop in H1. destruct H1 as [H1 _]. apply N.eqb_eq in H1. left.
    rewrite H1. exact H2.
  - apply andb_prop in H1, H2. destruct H1 as [E1 H1], H2 as [E2 H2]. right.
    apply N.eqb_eq in E1, E2. rewrite E1, E2, N.eqb_refl. apply (IH b c H1 H2).
Qed.

Lemma string_lt_total a :
  forall b, string_lt a b = true \/ a = b \/ string_lt b a = true.
Proof.
  induction a as [|x a IH]; intros [|y b]; cbn [string_lt]; auto.
  destruct (N.lt_trichotomy (code x) (code y)) as [H|[H|H]].
  - left. apply N.ltb_lt in H. rewrite H. reflexivity.
  - apply code_inj in H. subst y. rewrite N.ltb_irrefl, N.eqb_refl. cbn [orb andb].
    destruct (IH b) as [H|[->|H]]; auto.
  - right. right. apply N.ltb_lt in H. rewrite H. reflexivity.
Qed.

(** *** [sort.Strings] *)

Lemma sort_insert_elems x l z : z ∈ sort_insert x l <-> z = x \/ z ∈ l.
Proof.
  induction l as [|y l IH]; cbn [sort_insert].
  - rewrite list_elem_of_singleton, elem_of_nil. tauto.
  - destruct (string_lt y x); rewrite !elem_of_cons; [rewrite IH|]; tauto.
Qed.

Lemma sort_insert_head x l :
  match sort_insert x l, l with
  | h :: _, y :: _ => h = x \/ h = y
  | h :: _, [] => h = x
  | [], _ => False
  end.
Proof. destruct l as [|y l]; cbn [sort_insert]; [reflexivity|]. destruct (string_lt y x); auto. Qed.

Lemma sort_insert_sorted x l :
  strictly_sorted l = true -> x ∉ l -> strictly_sorted (sort_insert x l) = true.
Proof.
  induction l as [|y l IH]; intros Hs Hx; [reflexivity|].
  apply not_elem_of_cons in Hx. destruct Hx as [Hxy Hx]. cbn [sort_insert].
  destruct (string_lt y x) eqn:E.
  - assert (Hl : strictly_sorted l = true).
    { destruct l as [|z l]; [reflexivity|]. cbn [strictly_sorted] in Hs.
      apply andb_prop in Hs. apply Hs. }
    specialize (IH Hl Hx). pose proof (sort_insert_head x l) as Hh.
    destruct (sort_insert x l) as [|h r] eqn:Ei; [reflexivity|].
    change (strictly_sorted (y :: h :: r)) with (string_lt y h && strictly_sorted (h :: r)).
    rewrite IH, andb_true_r.
    destruct l as [|z l]; [subst h; exact E|]. destruct Hh as [->| ->]; [exact E|].
    cbn [strictly_sorted] in Hs. apply andb_prop in Hs. apply Hs.
  - change (strictly_sorted (x :: y :: l)) with (string_lt x y && strictly_sorted (y :: l)).
    rewrite andb_true_iff. split; [|exact Hs].
    destruct (string_lt_total x y) as [H|[H|H]]; [exact H | contradiction | congruence].
Qed.

Lemma sort_Strings_elems l z : z ∈ sort_Strings l <-> z ∈ l.
Proof.
  induction l as [|x l IH]; [reflexivity|]. cbn [sort_Strings fold_right].
  fold (sort_Strings l). rewrite sort_insert_elems, elem_of_cons, IH. reflexivity.
Qed.

Lemma sort_Strings_sorted l : NoDup l -> strictly_sorted (sort_Strings l) = true.
Proof.
  induction 1 as [|x l Hx Hl IH]; [reflexivity|]. cbn [sort_Strings fold_right].
  fold (sort_Strings l). apply sort_insert_sorted; [exact IH|].
  rewrite sort_Strings_elems. exact Hx.
Qed.

Lemma setToSortedSlice_elems (m : gset string) z : z ∈ setToSortedSlice m <-> z ∈ m.
Proof. unfold setToSortedSlice. rewrite sort_Strings_elems. apply elem_of_elements. Qed.

Lemma setToSortedSlice_sorted (m : gset string) :
  strictly_sorted (setToSortedSlice m) = true.
Proof. apply sort_Strings_sorted, NoDup_elements. Qed.

End Sorting.

Section Categories.

Variable fold_runes : string -> string -> bool.

Local Abbreviation split := (splitTagsAndCategories fold_runes).
Local Abbreviation step := (splitTagsAndCategories_step fold_runes).

(** *** [splitTagsAndCategories] *)

(** The two sets after the loop. *)
Lemma split_fold cats :
  forall acc n,
    (n ∈ (fold_left step cats acc).1
     <-> n ∈ acc.1 \/ exists c, c ∈ cats /\ category_name c = n
                                /\ listed fold_runes c = true
                                /\ is_tag fold_runes c = true)
    /\ (n ∈ (fold_left step cats acc).2
        <-> n ∈ acc.2 \/ exists c, c ∈ cats /\ category_name c = n
                                   /\ listed fold_runes c = true
                                   /\ is_tag fold_runes c = false).
Proof.
  induction cats as [|c cats IH]; intros acc n; cbn [fold_left].
  - split; (split; [auto | intros [H|(c & Hc & _)]; [exact H | inversion Hc]]).
  - destruct (IH (step acc c) n) as [IH1 IH2]. rewrite IH1, IH2. clear IH IH1 IH2.
    assert (E : forall (P : Category -> Prop),
               (exists c', c' ∈ c :: cats /\ P c') <-> P c \/ exists c', c' ∈ cats /\ P c').
    { intros P. split.
      - intros (c' & Hc & HP). apply elem_of_cons in Hc. destruct Hc as [->|Hc]; eauto.
      - intros [HP|(c' & Hc & HP)]; [exists c | exists c']; split; auto; [left | right; auto]. }
    rewrite (E (fun c => category_name c = n /\ listed fold_runes c = true
                         /\ is_tag fold_runes c = true)).
    rewrite (E (fun c => category_name c = n /\ listed fold_runes c = true
                         /\ is_tag fold_runes c = false)).
    clear E. destruct acc as [mTags mCats].
    unfold splitTagsAndCategories_step, listed, is_tag, category_name. cbn [fst snd].
    destruct (String.eqb (strings.TrimSpace (htmlUnescape (Value c))) "");
      cbn [negb andb fst snd]; [intuition congruence|].
    destruct (strings2.EqualFold fold_runes (strings.TrimSpace (htmlUnescape (Value c)))
                "Allgemein"); cbn [negb fst snd]; [intuition congruence|].
    destruct (strings2.EqualFold fold_runes (Domain c) "post_tag"); cbn [fst snd];
      rewrite ?elem_of_union, ?elem_of_singleton; intuition congruence.
Qed.

(** X13: the tags and the categories come out in strictly ascending
    order of their bytes, so no name twice. *)
Theorem splitTagsAndCategories_sorted (cats : list Category) :
  strictly_sorted (split cats).1 = true /\ strictly_sorted (split cats).2 = true.
Proof.
  unfold splitTagsAndCategories.
  destruct (fold_left step cats (∅, ∅)) as [mTags mCats]. cbn [fst snd].
  split; apply setToSortedSlice_sorted.
Qed.

(** X14: a name is a tag when a category with this name, not empty
    and not the default category, has the domain [post_tag], and a
    category when one has another domain; the name is the value
    without no-break spaces and trimmed. *)
Theorem splitTagsAndCategories_elems (cats : list Category) (n : string) :
  (n ∈ (split cats).1
   <-> exists c, c ∈ cats /\ category_name c = n /\ listed fold_runes c = true
                 /\ is_tag fold_runes c = true)
  /\ (n ∈ (split cats).2
      <-> exists c, c ∈ cats /\ category_name c = n /\ listed fold_runes c = true
                    /\ is_tag fold_runes c = false).
Proof.
  unfold splitTagsAndCategories. destruct (split_fold cats (∅, ∅) n) as [H1 H2].
  destruct (fold_left step cats (∅, ∅)) as [mTags mCats]. cbn [fst snd] in *.
  rewrite !setToSortedSlice_elems, H1, H2. split; split; intros H; auto;
    destruct H as [H|H]; auto; apply elem_of_empty in H; contradiction.
Qed.

(** X15: without a domain there is no tag: categories whose domain
    is empty all end up as categories. *)
Theorem splitTagsAndCategories_no_domain (cats : list Category) :
  (forall c, c ∈ cats -> Domain c = "") -> (split cats).1 = [].
Proof.
  intros H. destruct (split cats).1 as [|n l] eqn:E; [reflexivity|]. exfalso.
  assert (Hn : n ∈ (split cats).1) by (rewrite E; left).
  destruct (split_fold cats (∅, ∅) n) as [H1 _].
  unfold splitTagsAndCategories in Hn.
  destruct (fold_left step cats (∅, ∅)) as [mTags mCats]. cbn [fst snd] in *.
  rewrite setToSortedSlice_elems in Hn. apply H1 in Hn.
  destruct Hn as [Hn|(c & Hc & _ & _ & Ht)]; [apply elem_of_empty in Hn; exact Hn|].
  unfold is_tag in Ht. rewrite (H c Hc) in Ht. discriminate Ht.
Qed.

End Categories.

Lemma splitTagsAndCategories_no_domain_witness :
  (splitTagsAndCategories (fun _ _ => false)
     [mkCategory "" "Reisen"; mkCategory "" "Berlin"]).1 = [].
Proof.
  apply splitTagsAndCategories_no_domain. intros c Hc.
  apply elem_of_cons in Hc. destruct Hc as [->|Hc]; [reflexivity|].
  apply list_elem_of_singleton in Hc. subst c. reflexivity.
Defined.

Lemma splitTagsAndCategories_elems_witness :
  "Berlin" ∈ (splitTagsAndCategories (fun _ _ => false) [mkCategory "post_tag" " Berlin "]).1.
Proof.
  refine (proj2 (proj1 (splitTagsAndCategories_elems (fun _ _ => false)
                          [mkCategory "post_tag" " Berlin "] "Berlin")) _).
  exists (mkCategory "post_tag" " Berlin ").
  split; [left|]. repeat split; vm_compute; reflexivity.
Defined.

(** ** More about the media locator and the downloads *)

Section Locator.

Lemma strip_suffix_shape full s :
  exists r, s = strip_suffix_match full s +:+ r /\ optional_suffix full r = true.
Proof.
  unfold optional_suffix. induction s as [|c s (r & E & Hr)]; cbn [strip_suffix_match].
  - destruct (full "") eqn:F; exists ""; split; reflexivity.
  - destruct (full (String c s)) eqn:F.
    + exists (String c s). split; [reflexivity|]. rewrite F. apply orb_true_r.
    + exists r. split; [rewrite sapp_cons, <- E; reflexivity | exact Hr].
Qed.

(** X18: what [stripWPSuffixes] cuts off a name is a scaled suffix
    or none, followed by a size suffix or none; the rest of the name
    stays. *)
Theorem stripWPSuffixes_shape (name : string) :
  exists sc sz,
    name = stripWPSuffixes name +:+ sc +:+ sz
    /\ optional_suffix wpScaledSuffixRe_full sc = true
    /\ optional_suffix wpSizeSuffixRe_full sz = true.
Proof.
  unfold stripWPSuffixes. cbv zeta.
  destruct (strip_suffix_shape wpSizeSuffixRe_full name) as (sz & E1 & H1).
  destruct (strip_suffix_shape wpScaledSuffixRe_full
              (strip_suffix_match wpSizeSuffixRe_full name)) as (sc & E2 & H2).
  exists sc, sz. split; [|auto]. rewrite <- sapp_assoc, <- E2. exact E1.
Qed.

Lemma CutLast_after s sep b r :
  strings.CutLast s sep = Some (b, r) -> strings.ContainsByte r sep = false.
Proof.
  revert b r. induction s as [|c s IH]; intros b r; cbn [strings.CutLast]; [discriminate|].
  destruct (strings.CutLast s sep) as [[b' r']|] eqn:E.
  - intros H. injection H as <- <-. apply (IH b' r' eq_refl).
  - destruct (Ascii.eqb c sep); [|discriminate]. intros H. injection H as <- <-.
    clear IH. induction s as [|x s IHs]; [reflexivity|]. cbn [strings.CutLast] in E.
    destruct (strings.CutLast s sep) as [[? ?]|]; [discriminate|].
    destruct (Ascii.eqb x sep) eqn:Ex; [discriminate|].
    cbn [strings.ContainsByte]. rewrite Ex, IHs; reflexivity.
Qed.

Lemma CutLast_none s sep :
  strings.CutLast s sep = None -> strings.ContainsByte s sep = false.
Proof.
  induction s as [|x s IHs]; [reflexivity|]. cbn [strings.CutLast].
  destruct (strings.CutLast s sep) as [[? ?]|]; [discriminate|].
  destruct (Ascii.eqb x sep) eqn:Ex; [discriminate|]. intros _.
  cbn [strings.ContainsByte]. rewrite Ex, IHs; reflexivity.
Qed.

(** A base name is the root or holds no slash. *)
Lemma Base_element p : path.Base p = "/" \/ strings.ContainsByte (path.Base p) "/" = false.
Proof.
  unfold path.Base. destruct (String.eqb p ""); [right; reflexivity|].
  destruct (strings.CutLast (path.strip_slashes p) "/") as [[d f]|] eqn:E.
  - destruct (String.eqb f ""); [left; reflexivity|]. right. apply (CutLast_after _ _ _ _ E).
  - destruct (String.eqb (path.strip_slashes p) ""); [left; reflexivity|]. right.
    apply CutLast_none, E.
Qed.

(** X17: a file name is never empty, and that of a URL that parses
    holds no slash: it is one element of a path. *)
Theorem filenameFromURL_element (raw : string) :
  filenameFromURL raw <> ""
  /\ (forall u, url.Parse raw = Some u ->
        strings.ContainsByte (filenameFromURL raw) "/" = false)
  /\ (url.Parse raw = None ->
        filenameFromURL raw = "/" \/ strings.ContainsByte (filenameFromURL raw) "/" = false).
Proof.
  unfold filenameFromURL. destruct (url.Parse raw) as [u|]; cbv zeta.
  - pose proof (Base_nonempty (url.Path u)) as Hn.
    assert (H : (if String.eqb (path.Base (url.Path u)) ""
                    || String.eqb (path.Base (url.Path u)) "/"
                 then "image" else path.Base (url.Path u)) <> ""
                /\ strings.ContainsByte
                     (if String.eqb (path.Base (url.Path u)) ""
                         || String.eqb (path.Base (url.Path u)) "/"
                      then "image" else path.Base (url.Path u)) "/" = false).
    { destruct (String.eqb_spec (path.Base (url.Path u)) ""); [contradiction|].
      destruct (String.eqb_spec (path.Base (url.Path u)) "/") as [E2|N2]; cbn [orb].
      - split; [discriminate | reflexivity].
      - split; [exact Hn|]. destruct (Base_element (url.Path u)); [contradiction | assumption]. }
    destruct H as [H1 H2]. split; [exact H1|]. split; [intros; exact H2 | discriminate].
  - split; [apply Base_nonempty|]. split; [discriminate|]. intros _. apply Base_element.
Qed.

End Locator.

Lemma filenameFromURL_element_witness :
  strings.ContainsByte (filenameFromURL "https://x/a/b.jpg?v=1") "/" = false.
Proof.
  destruct (filenameFromURL_element "https://x/a/b.jpg?v=1") as (_ & H & _).
  apply (H (url.mkURL "https" "" None "x" "/a/b.jpg" "" false false "v=1" "" "")).
  vm_compute. reflexivity.
Defined.

Section DownloadFrame.

Variable world : Z -> attempt_world.
Variables rawURL dest : string.

Lemma attempt_files_frame w fs p :
  p <> dest -> p ∈ attempt_files w dest fs <-> p ∈ fs.
Proof.
  intros Hp. destruct (fs_events_cases dest w) as [[_ E]|[(_ & _ & E)|(_ & _ & E)]];
    rewrite E; rewrite ?elem_of_difference, ?elem_of_union, ?elem_of_singleton; tauto.
Qed.

Lemma attempt_files_done w fs :
  attempt_verdict w = Done -> dest ∈ attempt_files w dest fs.
Proof.
  intros H. destruct (fs_events_cases dest w) as [[Ev E]|[(_ & _ & E)|(_ & Hn & _)]];
    [|rewrite E; apply elem_of_union; left; apply elem_of_singleton; reflexivity
     | contradiction].
  exfalso. unfold fs_events in Ev. destruct (attempt_creates w) eqn:C; [discriminate|].
  destruct w as [|s m c p]; [discriminate|]. unfold attempt_verdict in H.
  unfold attempt_creates in C.
  destruct (Z.leb_spec 500 s); [discriminate|]. destruct (Z.leb_spec 400 s); [discriminate|].
  destruct (Z.ltb_spec s 400); [|lia]. destruct m, c, p; discriminate.
Qed.

Lemma attempt_events_ok a w e :
  1 <= a <= 3 -> e ∈ attempt_events a w dest -> task_event dest e.
Proof.
  intros Ha. unfold attempt_events.
  destruct (fs_events_cases dest w) as [[-> _]|[(-> & _)|(-> & _)]]; intros H;
    repeat (apply elem_of_cons in H; destruct H as [->|H]; [cbn; auto|]);
    apply elem_of_nil in H; contradiction.
Qed.

(** X16: a task creates and removes no file but its destination
    (the directories that [os.MkdirAll] makes for it are no files of
    the model), which exists when the task has succeeded; its
    requests are numbered from 1 to 3 and its pauses take two or
    four seconds; and a URL that is no URL ends the task before any
    request. *)
Theorem downloadFile_touches_only_dest (files0 : gset string) :
  let res := fst (run_task world rawURL dest files0) in
  let st := snd (run_task world rawURL dest files0) in
  (forall p, p <> dest -> p ∈ files st <-> p ∈ files0)
  /\ (res = None -> dest ∈ files st)
  /\ (forall e, e ∈ trace st -> task_event dest e)
  /\ (url.Parse rawURL = None -> res = Some ErrNewRequest /\ st = mkOs files0 []).
Proof.
  cbv zeta. destruct (url.Parse rawURL) as [u|] eqn:Hp.
  - rewrite (run_task_eq world rawURL dest files0 u Hp). cbv zeta.
    assert (H1 : forall e, e ∈ attempt_events 1 (world 1) dest -> task_event dest e)
      by (intros e; apply attempt_events_ok; lia).
    assert (H2 : forall e, e ∈ attempt_events 2 (world 2) dest -> task_event dest e)
      by (intros e; apply attempt_events_ok; lia).
    assert (H3 : forall e, e ∈ attempt_events 3 (world 3) dest -> task_event dest e)
      by (intros e; apply attempt_events_ok; lia).
    assert (Hev : forall e (l1 l2 : list event) n,
               (n = 2 \/ n = 4) ->
               (forall e, e ∈ l1 -> task_event dest e) ->
               (forall e, e ∈ l2 -> task_event dest e) ->
               e ∈ (l1 ++ Sleep n :: l2)%list -> task_event dest e).
    { intros e l1 l2 n Hn Hl1 Hl2 He. apply elem_of_app in He. destruct He as [He|He]; auto.
      apply elem_of_cons in He. destruct He as [->|He]; [exact Hn | auto]. }
    destruct (attempt_verdict (world 1)) eqn:V1; cbn [fst snd files trace].
    + split; [intros p Hne; apply attempt_files_frame, Hne|].
      split; [intros _; apply attempt_files_done, V1|]. split; [exact H1 | discriminate].
    + split; [intros p Hne; apply attempt_files_frame, Hne|].
      split; [discriminate|]. split; [exact H1 | discriminate].
    + destruct (attempt_verdict (world 2)) eqn:V2; cbn [fst snd files trace].
      * split; [intros p Hne; rewrite !attempt_files_frame by exact Hne; reflexivity|].
        split; [intros _; apply attempt_files_done, V2|].
        split; [|discriminate]. intros e0. apply Hev; auto.
      * split; [intros p Hne; rewrite !attempt_files_frame by exact Hne; reflexivity|].
        split; [discriminate|]. split; [|discriminate]. intros e1. apply Hev; auto.
      * assert (H12 : forall e2, e2 ∈ (attempt_events 1 (world 1) dest
                                        ++ Sleep 2 :: attempt_events 2 (world 2) dest)%list ->
                                 task_event dest e2) by (intros e2; apply Hev; auto).
        destruct (attempt_verdict (world 3)) eqn:V3; cbn [fst snd files trace];
          (split; [intros p Hne; rewrite !attempt_files_frame by exact Hne; reflexivity|]);
          (split; [first [discriminate | intros _; apply attempt_files_done, V3]|]);
          (split; [|discriminate]); intros e2; apply Hev; auto.
  - rewrite (run_task_bad_url world rawURL dest files0 Hp). cbn [fst snd files trace].
    split; [reflexivity|]. split; [discriminate|].
    split; [intros e He; apply elem_of_nil in He; contradiction | auto].
Qed.

End DownloadFrame.

Lemma downloadFile_touches_only_dest_witness :
  "static/images/s/a.jpg"
  ∈ files (snd (run_task (fun _ => Responds 200 true true true) "https://x/a.jpg"
                  "static/images/s/a.jpg" {["static/images/s/old.jpg"]}))
  /\ "static/images/s/old.jpg"
     ∈ files (snd (run_task (fun _ => Responds 200 true true true) "https://x/a.jpg"
                     "static/images/s/a.jpg" {["static/images/s/old.jpg"]})).
Proof.
  destruct (downloadFile_touches_only_dest (fun _ => Responds 200 true true true)
              "https://x/a.jpg" "static/images/s/a.jpg" {["static/images/s/old.jpg"]})
    as (H1 & H2 & _).
  split.
  - apply H2. vm_compute. reflexivity.
  - apply H1; [discriminate|]. apply elem_of_singleton. reflexivity.
Defined.

(** ** The rewriter and the coordinator *)

Section Scheduling.

Import goquery.

Variable staticDir : string.
Variable ParseFragment : string -> string -> list tree.
Variable slug : string.

Local Abbreviation img := (rewriteImg staticDir ParseFragment slug).
Local Abbreviation video := (rewriteVideo staticDir slug).

Lemma grows_refl dl : grows dl dl.
Proof. split; [auto|]. exists []. rewrite app_nil_r. reflexivity. Qed.

Lemma grows_trans d1 d2 d3 : grows d1 d2 -> grows d2 d3 -> grows d1 d3.
Proof.
  intros [S1 (m1 & E1)] [S2 (m2 & E2)]. split; [auto|].
  exists (m1 ++ m2)%list. rewrite E2, E1, app_assoc. reflexivity.
Qed.

Lemma Schedule_grows u dest dl : grows dl (Schedule u dest dl).
Proof.
  unfold Schedule. case_bool_decide; [apply grows_refl|]. split; cbn [seen spawned].
  - intros u' Hu. apply elem_of_union. right. exact Hu.
  - eauto.
Qed.

Lemma Schedule_seen_self u dest dl : u ∈ seen (Schedule u dest dl).
Proof.
  unfold Schedule. case_bool_decide; [assumption|]. cbn [seen].
  apply elem_of_union. left. apply elem_of_singleton. reflexivity.
Qed.

(** What the callback of the images does to the coordinator. *)
Lemma rewriteImg_dl d dl k :
  snd (img (d, dl) k)
  = if relocated d k
    then Schedule (toOriginalURL (image_best d k))
           (local_dest staticDir (image_area d k) slug (toOriginalURL (image_best d k))) dl
    else dl.
Proof.
  unfold relocated, is_emoji, image_best, local_dest, image_area, rewriteImg. cbv zeta.
  destruct (strings.Contains (AttrOr d k "class") "wp-smiley"
            || strings.Contains (AttrOr d k "src") "/s.w.org/images/core/emoji/").
  - cbn [negb andb].
    destruct (Attr d k "alt") as [alt|];
      [destruct (negb (String.eqb (strings.TrimSpace alt) ""))|]; reflexivity.
  - cbn [negb andb].
    destruct (String.eqb (pickBestSrc (AttrOr d k "src") (AttrOr d k "srcset")) "");
      [reflexivity|]. cbn [negb].
    match goal with
    | |- snd (match ?l with _ => _ end) = _ => destruct l
    end; reflexivity.
Qed.

Lemma rewriteImg_grows st k : grows (snd st) (snd (img st k)).
Proof.
  destruct st as [d dl]. rewrite rewriteImg_dl. cbn [snd].
  destruct (relocated d k); [apply Schedule_grows | apply grows_refl].
Qed.

Lemma rewriteVideo_grows st v : grows (snd st) (snd (video st v)).
Proof.
  destruct st as [d dl]. unfold rewriteVideo. cbv zeta.
  destruct (String.eqb (strings.TrimSpace (video_src d v)) ""); cbn [snd];
    [apply grows_refl | apply Schedule_grows].
Qed.

Lemma images_grow l st : grows (snd st) (snd (fold_left img l st)).
Proof.
  revert st. induction l as [|k l IH]; intros st; [apply grows_refl|].
  cbn [fold_left]. eapply grows_trans; [apply rewriteImg_grows | apply IH].
Qed.

Lemma videos_grow l st : grows (snd st) (snd (fold_left video l st)).
Proof.
  revert st. induction l as [|k l IH]; intros st; [apply grows_refl|].
  cbn [fold_left]. eapply grows_trans; [apply rewriteVideo_grows | apply IH].
Qed.

Lemma rewriteAndDownloadImages_dl html dl :
  snd (rewriteAndDownloadImages staticDir ParseFragment html slug dl)
  = snd (rewriteDocument staticDir ParseFragment slug (NewDocument html, dl)).
Proof.
  unfold rewriteAndDownloadImages.
  destruct (rewriteDocument staticDir ParseFragment slug (NewDocument html, dl)).
  reflexivity.
Qed.

(** X19: for every image that is relocated a download of its
    original URL has been started when the rewriter returns, by the
    image's callback or before.  The callback starts it with the
    destination below the static directory that has the area and the
    file name of the path written into the document; when the URL
    was seen before, it starts nothing, whatever destination the
    earlier download has.  No task is ever taken back. *)
Theorem rewriteAndDownloadImages_schedules html dl before i after :
  let doc := NewDocument html in
  Find doc (root doc) [Tag "img"] = (before ++ i :: after)%list ->
  relocated doc i = true ->
  let visit := fold_left img before (doc, dl) in
  let u := toOriginalURL (image_best doc i) in
  let area := image_area (fst visit) i in
  let final := snd (rewriteAndDownloadImages staticDir ParseFragment html slug dl) in
  u ∈ seen final
  /\ image_rel (fst visit) slug i = local_path area slug u
  /\ (u ∉ seen (snd visit) ->
      spawned (snd (img visit i))
      = (spawned (snd visit) ++ [(u, local_dest staticDir area slug u)])%list)
  /\ (u ∈ seen (snd visit) -> snd (img visit i) = snd visit)
  /\ (exists more, spawned final = (spawned (snd (img visit i)) ++ more)%list)
  /\ (exists more, spawned final = (spawned dl ++ more)%list).
Proof.
  cbv zeta. intros Himgs Hr.
  destruct (images_relocated staticDir ParseFragment slug (NewDocument html, dl)
              before i after Himgs Hr) as (Hr' & Hb & _).
  cbn [fst] in *.
  set (visit := fold_left img before (NewDocument html, dl)) in *.
  assert (Hfinal : grows (snd (img visit i))
                     (snd (rewriteAndDownloadImages staticDir ParseFragment html slug dl))).
  { rewrite rewriteAndDownloadImages_dl. unfold rewriteDocument, rewriteImages, rewriteVideos.
    cbn [fst]. rewrite Himgs, fold_left_app. cbn [fold_left]. fold visit.
    eapply grows_trans; [apply images_grow | apply videos_grow]. }
  assert (Hdl : snd (img visit i)
                = Schedule (toOriginalURL (image_best (NewDocument html) i))
                    (local_dest staticDir (image_area (fst visit) i) slug
                       (toOriginalURL (image_best (NewDocument html) i))) (snd visit)).
  { destruct visit as [d dl0]. rewrite rewriteImg_dl. cbn [fst snd] in *.
    rewrite Hr', Hb. reflexivity. }
  split; [|split; [|split; [|split; [|split]]]].
  - apply Hfinal. rewrite Hdl. apply Schedule_seen_self.
  - unfold image_rel. rewrite Hb. reflexivity.
  - intros Hn. rewrite Hdl. unfold Schedule. rewrite bool_decide_eq_false_2 by exact Hn.
    reflexivity.
  - intros Hs. rewrite Hdl. unfold Schedule. rewrite bool_decide_eq_true_2 by exact Hs.
    reflexivity.
  - apply Hfinal.
  - assert (G : grows dl (snd (rewriteAndDownloadImages staticDir ParseFragment html slug dl))).
    { eapply grows_trans; [|exact Hfinal].
      eapply grows_trans; [apply (images_grow before (NewDocument html, dl))|].
      fold visit. apply rewriteImg_grows. }
    apply G.
Qed.

End Scheduling.

Lemma rewriteAndDownloadImages_schedules_witness :
  let final := snd (rewriteAndDownloadImages "static" parse_text linked_image_and_video "s"
                      (newDownloader 6)) in
  "https://x/a.jpg" ∈ seen final
  /\ exists more,
       spawned final
       = (("https://x/a.jpg", "static/images/s/a.jpg") :: more)%list.
Proof.
  cbv zeta.
  assert (Hf : goquery.Find (goquery.NewDocument linked_image_and_video)
                 (goquery.root (goquery.NewDocument linked_image_and_video))
                 [goquery.Tag "img"] = ([] ++ 5%nat :: [])%list)
    by (vm_compute; reflexivity).
  assert (Hr : relocated (goquery.NewDocument linked_image_and_video) 5 = true)
    by (vm_compute; reflexivity).
  destruct (rewriteAndDownloadImages_schedules "static" parse_text "s"
              linked_image_and_video (newDownloader 6) [] 5%nat [] Hf Hr)
    as (Hseen & _ & Hnew & _ & (more & Hmore) & _).
  split.
  - assert (Hu : toOriginalURL (image_best (goquery.NewDocument linked_image_and_video) 5)
                 = "https://x/a.jpg") by (vm_compute; reflexivity).
    rewrite Hu in Hseen. exact Hseen.
  - exists more. rewrite Hmore, Hnew.
    + vm_compute. reflexivity.
    + cbn [fold_left snd newDownloader seen]. apply not_elem_of_empty.
Defined.

(** ** Feed items *)

Section ItemFacts.

Variable MapToLower : string -> string.
Variable MapToUpper : string -> string.
Variable fold_runes : string -> string -> bool.
Variable Time : Type.
Variable Year : Time -> Z.
Variable Month : Time -> Z.
Variable Format_RFC1123Z : Time -> string.
Variable parsePubDate : string -> option Time.
Variable now : Time.

Local Abbreviation slug := (slugify MapToLower MapToUpper).
Local Abbreviation slug_of :=
  (processItem_slug MapToLower MapToUpper Time Year Month parsePubDate now).
Local Abbreviation year_month := (pubDateYearMonth Time Year Month parsePubDate now).
Local Abbreviation item_of := (loadRSS_item Time Format_RFC1123Z).

(** *** Numbers *)

Lemma zeros_no_slash n : strings.ContainsByte (zeros n) "/" = false.
Proof.
  unfold zeros. induction n as [|n IH]; [reflexivity|]. cbn [repeat].
  rewrite concat_all_cons, ContainsByte_app, IH. reflexivity.
Qed.

Lemma digits_no_slash d :
  strings.ContainsByte (DecimalString.NilEmpty.string_of_uint d) "/" = false.
Proof.
  induction d; cbn [DecimalString.NilEmpty.string_of_uint strings.ContainsByte];
    [reflexivity | rewrite IHd; reflexivity ..].
Qed.

Lemma Sprintf_0d_no_slash w n : strings.ContainsByte (Sprintf_0d w n) "/" = false.
Proof.
  unfold Sprintf_0d. cbv zeta.
  assert (D : forall d, strings.ContainsByte (DecimalString.NilZero.string_of_uint d) "/"
                        = false).
  { intros d. destruct d; try apply digits_no_slash. reflexivity. }
  destruct (n <? 0); rewrite !ContainsByte_app, ?zeros_no_slash, D; reflexivity.
Qed.

Lemma pubDateYearMonth_no_slash p :
  strings.ContainsByte (year_month p).1 "/" = false
  /\ strings.ContainsByte (year_month p).2 "/" = false.
Proof.
  unfold pubDateYearMonth. destruct (parsePubDate p); cbn [fst snd];
    split; apply Sprintf_0d_no_slash.
Qed.

(** *** Slugs *)

Lemma slug_no_slash s : strings.ContainsByte (slug s) "/" = false.
Proof.
  apply (no_byte slug_byte); [|apply slug_shape].
  intros c. destruct c as [[] [] [] [] [] [] [] []]; vm_compute; intros H;
    try discriminate H; reflexivity.
Qed.

Lemma extractPathParts_no_slash p :
  strings.ContainsByte (extractPathParts p).1.1 "/" = false
  /\ strings.ContainsByte (extractPathParts p).1.2 "/" = false
  /\ strings.ContainsByte (extractPathParts p).2 "/" = false.
Proof.
  unfold extractPathParts. cbv zeta.
  pose proof (SplitByte_elems (strings2.Trim p "/") "/") as H.
  destruct (strings.SplitByte (strings2.Trim p "/") "/") as [|y [|m [|d [|t l]]]];
    cbn [fst snd]; try (repeat split; reflexivity).
  inversion H as [|? ? Hy H1]; subst.
  inversion H1 as [|? ? Hm H2]; subst. inversion H2 as [|? ? Hd H3]; subst.
  inversion H3 as [|? ? Ht H4]; subst. repeat split; assumption.
Qed.

Lemma hyphenated_element a b c :
  strings.ContainsByte a "/" = false -> strings.ContainsByte b "/" = false ->
  strings.ContainsByte c "/" = false ->
  path_element (a +:+ "-" +:+ b +:+ "-" +:+ c) = true.
Proof.
  intros Ha Hb Hc. unfold path_element.
  rewrite !ContainsByte_app, Ha, Hb, Hc. cbn [strings.ContainsByte Ascii.eqb Bool.eqb orb negb andb].
  assert (H2 : forall x y, strings.ContainsByte (x +:+ "-" +:+ y) "-" = true).
  { intros x y. rewrite !ContainsByte_app. cbn [strings.ContainsByte].
    rewrite Ascii.eqb_refl. cbn [orb]. apply orb_true_r. }
  assert (N : forall s r, strings.ContainsByte s "-" = true ->
                     strings.ContainsByte r "-" = false -> String.eqb s r = false).
  { intros s r Hs Hr. destruct (String.eqb_spec s r) as [->|]; [congruence | reflexivity]. }
  rewrite !(N _ _ (H2 a _)) by reflexivity. reflexivity.
Qed.

Lemma ensureTrailingSlash_ends p : strings.HasSuffix (ensureTrailingSlash p) "/" = true.
Proof.
  unfold ensureTrailingSlash. destruct (String.eqb p ""); [reflexivity|].
  destruct (strings.HasSuffix p "/") eqn:E; [exact E|].
  rewrite HasSuffix_tail by discriminate. reflexivity.
Qed.

(** X20: the slug of a post is the name of a file that stays in its
    directory, whatever the link of the item: it holds no slash and
    is not empty, [.] or [..]; the alias ends with a slash. *)
Theorem processItem_slug_element (item : Item) (alias name : string) :
  slug_of item = Some (alias, name) ->
  path_element name = true /\ strings.HasSuffix alias "/" = true.
Proof.
  unfold processItem_slug. intros H.
  destruct (url.Parse (strings.TrimSpace (Link item))) as [u|]; [|discriminate H].
  cbn [mbind option_bind] in H.
  destruct (extractPathParts_no_slash (url.Path u)) as (Hy & Hm & Ht).
  destruct (pubDateYearMonth_no_slash (PubDate item)) as (Hy' & Hm').
  destruct (extractPathParts (url.Path u)) as [[y m] t]. cbn [fst snd] in *.
  destruct (year_month (PubDate item)) as [y' m']. cbn [fst snd] in *.
  destruct (String.eqb y "" || String.eqb m "" || String.eqb t "");
    inversion H; subst; clear H;
    (split; [apply hyphenated_element; auto using slug_no_slash
            | apply ensureTrailingSlash_ends]).
Qed.

(** X21: the link of a WordPress permalink
    [https://host/year/month/day/name/] gives the alias
    [/year/month/day/name/] and the slug [year-month-] and the
    slugified name; the date of the item is not looked at. *)
Theorem processItem_slug_permalink (item : Item) (host y m d t trail : string) :
  plain host = true -> plain y = true -> plain m = true -> plain d = true ->
  plain t = true -> y <> "" -> m <> "" -> t <> "" -> trail = "" \/ trail = "/" ->
  strings.TrimSpace (Link item)
  = "https://" +:+ host +:+ "/" +:+ y +:+ "/" +:+ m +:+ "/" +:+ d +:+ "/" +:+ t +:+ trail ->
  slug_of item
  = Some ("/" +:+ y +:+ "/" +:+ m +:+ "/" +:+ d +:+ "/" +:+ t +:+ "/",
          y +:+ "-" +:+ m +:+ "-" +:+ slug t).
Proof.
  intros Hh Hy Hm Hd Ht Hyn Hmn Htn Htr Hlink. unfold processItem_slug. rewrite Hlink.
  assert (S : forall s, plain s = true -> strings.ContainsByte s "/" = false).
  { intros s Hs. apply (no_byte plain_byte); [|exact Hs].
    intros c Hc. apply (plain_byte_facts c Hc). }
  assert (Hq : all_bytes path_byte
                 (y +:+ "/" +:+ m +:+ "/" +:+ d +:+ "/" +:+ t +:+ trail) = true).
  { rewrite !all_bytes_app, (plain_path y Hy), (plain_path m Hm), (plain_path d Hd),
      (plain_path t Ht).
    destruct Htr as [-> | ->]; reflexivity. }
  rewrite (Parse_https host _ Hh Hq). cbn [mbind option_bind https_URL url.Path].
  assert (Htrail : all_bytes (Ascii.eqb "/") trail = true)
    by (destruct Htr as [-> | ->]; reflexivity).
  rewrite (extractPathParts_segments y m d t trail (S y Hy) (S m Hm) (S d Hd) (S t Ht)
             Hyn Htn Htrail).
  destruct (String.eqb_spec y ""); [contradiction|].
  destruct (String.eqb_spec m ""); [contradiction|].
  destruct (String.eqb_spec t ""); [contradiction|]. cbn [orb]. f_equal. f_equal.
  unfold ensureTrailingSlash.
  destruct (String.eqb_spec ("/" +:+ y +:+ "/" +:+ m +:+ "/" +:+ d +:+ "/" +:+ t +:+ trail) "")
    as [E|_]; [discriminate E|].
  destruct Htr as [-> | ->].
  - rewrite sapp_nil_r.
    replace ("/" +:+ y +:+ "/" +:+ m +:+ "/" +:+ d +:+ "/" +:+ t)
      with (("/" +:+ y +:+ "/" +:+ m +:+ "/" +:+ d +:+ "/") +:+ t)
      by (rewrite !sapp_assoc; reflexivity).
    rewrite (HasSuffix_tail _ t "/" Htn).
    destruct (no_byte_ends t "/" Htn (S t Ht)) as [_ ->].
    rewrite !sapp_assoc. reflexivity.
  - replace ("/" +:+ y +:+ "/" +:+ m +:+ "/" +:+ d +:+ "/" +:+ t +:+ "/")
      with (("/" +:+ y +:+ "/" +:+ m +:+ "/" +:+ d +:+ "/" +:+ t) +:+ "/")
      by (rewrite !sapp_assoc; reflexivity).
    rewrite HasSuffix_tail by discriminate. reflexivity.
Qed.

(** *** Short paths *)

Lemma Trim_slashes body trail :
  body <> "" -> strings.HasPrefix body "/" = false -> strings.HasSuffix body "/" = false ->
  all_bytes (Ascii.eqb "/") trail = true ->
  strings2.Trim (String "/" (body +:+ trail)) "/" = body.
Proof.
  intros Hb Hp Hs Htr. unfold strings2.Trim. cbn [strings2.trimRightByte].
  rewrite (trimRightByte_trail body trail "/" Htr), (trimRightByte_fixed body "/" Hs).
  destruct (String.eqb_spec body ""); [contradiction|]. cbn [Ascii.eqb Bool.eqb andb].
  cbn [strings2.trimLeftByte Ascii.eqb Bool.eqb]. apply trimLeftByte_fixed, Hp.
Qed.

Lemma SplitByte_Join_elems l :
  l <> [] -> Forall (fun e => strings.ContainsByte e "/" = false) l ->
  strings.SplitByte (strings.Join l "/") "/" = l.
Proof.
  induction l as [|x l IH]; [contradiction|]. intros _ H.
  inversion H as [|? ? Hx Hl]; subst. destruct l as [|y l].
  - cbn [strings.Join]. apply SplitByte_plain, Hx.
  - rewrite Join_cons2. change ("/" +:+ strings.Join (y :: l) "/")
      with (String "/" (strings.Join (y :: l) "/")).
    rewrite (SplitByte_app x _ "/" Hx), IH; [reflexivity | discriminate | exact Hl].
Qed.

Lemma segments_no_slash segs :
  forallb segment segs = true ->
  Forall (fun e => strings.ContainsByte e "/" = false) segs.
Proof.
  induction segs as [|x l IH]; [constructor|]. cbn [forallb]. intros H.
  apply andb_prop in H. destruct H as [Hx Hl]. constructor; [|apply IH, Hl].
  apply (segment_facts x Hx).
Qed.

Lemma Join_ends segs t :
  forallb segment segs = true -> segment t = true ->
  strings.Join (segs ++ [t]) "/" <> ""
  /\ strings.HasPrefix (strings.Join (segs ++ [t]) "/") "/" = false
  /\ strings.HasSuffix (strings.Join (segs ++ [t]) "/") "/" = false
  /\ path.Base (strings.Join (segs ++ [t]) "/") = t.
Proof.
  intros Hs Ht. destruct (segment_facts t Ht) as (Htn & _ & Hts).
  destruct (no_byte_ends t "/" Htn Hts) as [Hp He].
  destruct segs as [|x l].
  - cbn [app strings.Join]. repeat split; try assumption.
    unfold path.Base. destruct (String.eqb_spec t ""); [contradiction|].
    rewrite (strip_slashes_plain t Hts), (CutLast_absent t "/" Hts).
    destruct (String.eqb_spec t ""); [contradiction | reflexivity].
  - rewrite Join_snoc by discriminate.
    cbn [forallb] in Hs. apply andb_prop in Hs. destruct Hs as [Hx Hl].
    destruct (segment_facts x Hx) as (Hxn & _ & Hxs).
    destruct (no_byte_ends x "/" Hxn Hxs) as [Hxp _].
    split; [|split; [|split]].
    + destruct l as [|y l]; [cbn [strings.Join]|rewrite Join_cons2];
        destruct x; try contradiction; discriminate.
    + destruct l as [|y l]; [cbn [strings.Join]|rewrite Join_cons2];
        (destruct x as [|a x]; [contradiction|]); rewrite !sapp_cons;
        cbn [strings.ContainsByte] in Hxs; apply orb_false_elim in Hxs;
        destruct Hxs as [Hax _]; cbn [strings.HasPrefix];
        rewrite Ascii.eqb_sym, Hax; reflexivity.
    + rewrite <- sapp_assoc, (HasSuffix_tail _ t "/" Htn). exact He.
    + change ("/" +:+ t) with (String "/" t). apply Base_file; assumption.
Qed.

(** X22: a link whose path has fewer than four elements, as
    [https://host/name/] or [https://host/year/month/name/], gives
    the slug of the year and the month of the publication date, or
    of the present time when the date does not parse, and the
    slugified last element; the elements before it are not used. *)
Theorem processItem_slug_fallback (item : Item) (host : string) (segs : list string)
    (t trail : string) :
  plain host = true -> forallb segment segs = true -> segment t = true ->
  (length segs <= 2)%nat -> trail = "" \/ trail = "/" ->
  strings.TrimSpace (Link item) = https_url host segs t +:+ trail ->
  let tm := match parsePubDate (PubDate item) with Some tm => tm | None => now end in
  slug_of item
  = Some (dir_of segs +:+ "/" +:+ t +:+ "/",
          Sprintf_0d 4 (Year tm) +:+ "-" +:+ Sprintf_0d 2 (Month tm) +:+ "-" +:+ slug t).
Proof.
  intros Hh Hs Ht Hlen Htr Hlink. cbv zeta. unfold processItem_slug. rewrite Hlink.
  destruct (Join_ends segs t Hs Ht) as (Hbn & Hbp & Hbs & Hbase).
  set (body := strings.Join (segs ++ [t]) "/") in *.
  assert (E : https_url host segs t +:+ trail = "https://" +:+ host +:+ "/" +:+ (body +:+ trail)).
  { rewrite https_url_eq. fold body. rewrite !sapp_assoc. reflexivity. }
  assert (Htrail : all_bytes (Ascii.eqb "/") trail = true)
    by (destruct Htr as [-> | ->]; reflexivity).
  assert (Hq : all_bytes path_byte (body +:+ trail) = true).
  { rewrite all_bytes_app. unfold body. rewrite (path_bytes segs t Hs Ht).
    destruct Htr as [-> | ->]; reflexivity. }
  rewrite E, (Parse_https host _ Hh Hq). cbn [mbind option_bind https_URL url.Path].
  change ("/" +:+ (body +:+ trail)) with (String "/" (body +:+ trail)).
  assert (Hsplit : strings.SplitByte body "/" = (segs ++ [t])%list).
  { apply SplitByte_Join_elems; [destruct segs; discriminate|].
    apply Forall_app. split; [apply segments_no_slash, Hs|].
    constructor; [apply (segment_facts t Ht) | constructor]. }
  assert (Hparts : extractPathParts (String "/" (body +:+ trail)) = ("", "", "")).
  { unfold extractPathParts. rewrite (Trim_slashes body trail Hbn Hbp Hbs Htrail), Hsplit.
    destruct segs as [|a [|b [|c l]]]; try reflexivity. cbn [length] in Hlen. lia. }
  rewrite Hparts, (Trim_slashes body trail Hbn Hbp Hbs Htrail), Hbase.
  cbn [String.eqb orb]. unfold pubDateYearMonth.
  assert (Ha : ensureTrailingSlash (String "/" (body +:+ trail))
               = dir_of segs +:+ "/" +:+ t +:+ "/").
  { transitivity (String "/" (body +:+ "/")).
    2:{ transitivity ((dir_of segs +:+ "/" +:+ t) +:+ "/");
        [rewrite dir_of_Join; reflexivity | rewrite !sapp_assoc; reflexivity]. }
    unfold ensureTrailingSlash. cbn [String.eqb].
    destruct Htr as [-> | ->].
    - rewrite sapp_nil_r. change (String "/" body) with ("/" +:+ body).
      rewrite (HasSuffix_tail "/" body "/" Hbn), Hbs. reflexivity.
    - change (String "/" (body +:+ "/")) with (("/" +:+ body) +:+ "/").
      rewrite HasSuffix_tail by discriminate. reflexivity. }
  rewrite Ha. destruct (parsePubDate (PubDate item)); reflexivity.
Qed.

(** *** Items as [loadRSS] hands them on *)

Lemma loadRSS_categories_fold cs :
  forall acc c',
    c' ∈ fold_left
           (fun cats c =>
              let c := strings.TrimSpace c in
              if String.eqb c "" then cats else (cats ++ [mkCategory "" c])%list)
           cs acc
    <-> c' ∈ acc
        \/ exists c, c ∈ cs /\ strings.TrimSpace c <> ""
                     /\ c' = mkCategory "" (strings.TrimSpace c).
Proof.
  induction cs as [|x cs IH]; intros acc c'; cbn [fold_left].
  - split; [auto | intros [H|(c & Hc & _)]; [exact H | inversion Hc]].
  - rewrite IH. cbv zeta. split.
    + intros [H|(c & Hc & Hn & E)].
      * destruct (String.eqb_spec (strings.TrimSpace x) "") as [Ex|Ex]; [auto|].
        apply elem_of_app in H. destruct H as [H|H]; [auto|].
        apply list_elem_of_singleton in H. right. exists x. split; [left | auto].
      * right. exists c. split; [right; exact Hc | auto].
    + intros [H|(c & Hc & Hn & E)].
      * left. destruct (String.eqb (strings.TrimSpace x) ""); [exact H|].
        apply elem_of_app. auto.
      * apply elem_of_cons in Hc. destruct Hc as [->|Hc]; [|right; eauto].
        left. destruct (String.eqb_spec (strings.TrimSpace x) ""); [contradiction|].
        apply elem_of_app. right. subst c'. left.
Qed.

Lemma loadRSS_categories it c' :
  c' ∈ Categories (item_of it)
  <-> exists c, c ∈ gofeed.Categories it /\ strings.TrimSpace c <> ""
                /\ c' = mkCategory "" (strings.TrimSpace c).
Proof.
  unfold loadRSS_item. cbv zeta. cbn [Categories]. rewrite loadRSS_categories_fold.
  split; [intros [H|H]; [inversion H | exact H] | auto].
Qed.

(** X23: the items that [loadRSS] builds have categories without
    domain, so [splitTagsAndCategories] finds no tag in them: every
    category of the feed whose name is not empty and not the default
    one is listed as a category.  The content that [processItem]
    takes from such an item is the trimmed content of the feed, or
    the trimmed description when the content is blank. *)
Theorem loadRSS_item_no_tags (it : gofeed.Item Time) :
  (splitTagsAndCategories fold_runes (Categories (item_of it))).1 = []
  /\ (forall n,
        n ∈ (splitTagsAndCategories fold_runes (Categories (item_of it))).2
        <-> exists c, c ∈ gofeed.Categories it
                      /\ n = strings.TrimSpace (htmlUnescape (strings.TrimSpace c))
                      /\ n <> ""
                      /\ strings2.EqualFold fold_runes n "Allgemein" = false)
  /\ processItem_content (item_of it)
     = if String.eqb (strings.TrimSpace (gofeed.Content it)) ""
       then strings.TrimSpace (gofeed.Description it)
       else strings.TrimSpace (gofeed.Content it).
Proof.
  pose proof (loadRSS_categories it) as Hcats.
  set (cats := Categories (item_of it)) in *.
  assert (Hsplit := fun n => split_fold fold_runes cats (∅, ∅) n).
  unfold splitTagsAndCategories.
  destruct (fold_left (splitTagsAndCategories_step fold_runes) cats (∅, ∅))
    as [mTags mCats]. cbn [fst snd] in *.
  assert (Hdom : forall c', c' ∈ cats -> is_tag fold_runes c' = false).
  { intros c' Hc'. apply Hcats in Hc'. destruct Hc' as (c & _ & _ & ->). reflexivity. }
  split; [|split].
  - destruct (setToSortedSlice mTags) as [|n l] eqn:E; [reflexivity|]. exfalso.
    assert (Hn : n ∈ setToSortedSlice mTags) by (rewrite E; left).
    rewrite setToSortedSlice_elems in Hn. apply (proj1 (Hsplit n)) in Hn.
    destruct Hn as [Hn|(c' & Hc' & _ & _ & Ht)]; [apply elem_of_empty in Hn; exact Hn|].
    rewrite (Hdom c' Hc') in Ht. discriminate Ht.
  - intros n. rewrite setToSortedSlice_elems. rewrite (proj2 (Hsplit n)). split.
    + intros [H|(c' & Hc' & Hname & Hl & _)]; [apply elem_of_empty in H; contradiction|].
      apply Hcats in Hc'. destruct Hc' as (c & Hc & _ & ->).
      unfold listed, category_name in *. cbn [Value] in *. subst n.
      apply andb_prop in Hl. destruct Hl as [H1 H2].
      apply negb_true_iff in H1, H2. apply String.eqb_neq in H1. eauto.
    + intros (c & Hc & -> & Hne & Hf). right.
      exists (mkCategory "" (strings.TrimSpace c)).
      assert (Hc' : mkCategory "" (strings.TrimSpace c) ∈ cats).
      { apply Hcats. exists c. split; [exact Hc|]. split; [|reflexivity].
        intros E. apply Hne. rewrite E. reflexivity. }
      split; [exact Hc'|]. split; [reflexivity|]. split; [|apply (Hdom _ Hc')].
      unfold listed, category_name. cbn [Value]. rewrite Hf.
      apply String.eqb_neq in Hne. rewrite Hne. reflexivity.
  - unfold processItem_content, loadRSS_item. cbv zeta. cbn [ContentEncoded Description].
    destruct (String.eqb (strings.TrimSpace (gofeed.Content it)) "") eqn:E.
    + destruct (String.eqb (strings.TrimSpace (gofeed.Description it)) "") eqn:E';
        reflexivity.
    + rewrite E. reflexivity.
Qed.

End ItemFacts.

Lemma processItem_slug_element_witness :
  path_element "2024-01-my-post" = true
  /\ strings.HasSuffix "/2024/01/15/my-post/" "/" = true.
Proof.
  apply (processItem_slug_element (fun s => s) (fun s => s) (Z * Z)%type fst snd
           (fun _ => None) (2024, 5)
           (mkItem "My post" " https://example.com/2024/01/15/my-post/ " "" "" "" "" "" [] "")).
  vm_compute. reflexivity.
Defined.

Lemma processItem_slug_permalink_witness :
  processItem_slug (fun s => s) (fun s => s) (Z * Z)%type fst snd (fun _ => None) (2024, 5)
    (mkItem "My post" " https://example.com/2024/01/15/my-post/ " "" "" "" "" "" [] "")
  = Some ("/2024/01/15/my-post/", "2024-01-my-post").
Proof.
  apply (processItem_slug_permalink (fun s => s) (fun s => s) (Z * Z)%type fst snd
           (fun _ => None) (2024, 5)
           (mkItem "My post" " https://example.com/2024/01/15/my-post/ " "" "" "" "" "" [] "")
           "example.com" "2024" "01" "15" "my-post" "/");
    try reflexivity; try discriminate.
  right. reflexivity.
Defined.

Lemma processItem_slug_fallback_witness :
  processItem_slug (fun s => s) (fun s => s) (Z * Z)%type fst snd (fun _ => None) (2024, 5)
    (mkItem "My post" "https://example.com/my-post/" "" "" "" "" "" [] "")
  = Some ("/my-post/", "2024-05-my-post").
Proof.
  apply (processItem_slug_fallback (fun s => s) (fun s => s) (Z * Z)%type fst snd
           (fun _ => None) (2024, 5)
           (mkItem "My post" "https://example.com/my-post/" "" "" "" "" "" [] "")
           "example.com" [] "my-post" "/");
    try reflexivity.
  - cbn [length]. lia.
  - right. reflexivity.
Defined.

Lemma loadRSS_item_no_tags_witness :
  "News" ∈ (splitTagsAndCategories (fun _ _ => false)
              (Categories (loadRSS_item (Z * Z)%type (fun _ => "")
                 (gofeed.mkItem (Z * Z)%type "My post" "" "" "" "" None None "" [" News "; " "] ∅)))).2.
Proof.
  refine (proj2 (proj1 (proj2 (loadRSS_item_no_tags (fun _ _ => false) (Z * Z)%type
                                 (fun _ => "")
                                 (gofeed.mkItem (Z * Z)%type "My post" "" "" "" "" None None ""
                                    [" News "; " "] ∅))) "News") _).
  exists " News ". split; [left|]. repeat split; vm_compute; congruence.
Defined.

(** ** Emojis in slugs *)

Section Emoji.

Variable MapToLower : string -> string.
Variable MapToUpper : string -> string.

Local Abbreviation slug := (slugify MapToLower MapToUpper).
Local Abbreviation emojis := (replaceEmojisWithCode MapToUpper).

Lemma emoji_scalar r : isEmojiRune r = true -> scalar r = true /\ 9728 <= r <= 129791.
Proof.
  unfold isEmojiRune, scalar. intros H.
  assert (R : 9728 <= r <= 129791).
  { repeat (apply orb_prop in H; destruct H as [H|H]);
      apply andb_prop in H; destruct H as [H1 H2]; apply Z.leb_le in H1, H2; lia. }
  split; [|exact R].
  destruct (Z.leb_spec 0 r), (Z.leb_spec r 1114111), (Z.leb_spec 55296 r),
    (Z.leb_spec r 57343); try reflexivity; lia.
Qed.

Lemma hex_digit_upper d : 0 <= d < 16 -> hex_upper (hex_digit d) = true.
Proof.
  intros H.
  assert (E : d = 0 \/ d = 1 \/ d = 2 \/ d = 3 \/ d = 4 \/ d = 5 \/ d = 6 \/ d = 7
              \/ d = 8 \/ d = 9 \/ d = 10 \/ d = 11 \/ d = 12 \/ d = 13 \/ d = 14
              \/ d = 15) by lia.
  repeat (destruct E as [->|E]; [reflexivity|]). subst d. reflexivity.
Qed.

Lemma hex_digits_upper fuel :
  forall n acc, 0 <= n -> all_bytes hex_upper acc = true ->
                all_bytes hex_upper (hex_digits fuel n acc) = true.
Proof.
  induction fuel as [|fuel IH]; intros n acc Hn Hacc; [exact Hacc|].
  cbn [hex_digits]. cbv zeta.
  assert (Hacc' : all_bytes hex_upper (String (hex_digit (n mod 16)) acc) = true).
  { cbn [all_bytes]. rewrite hex_digit_upper, Hacc by (apply Z.mod_pos_bound; lia).
    reflexivity. }
  destruct (n / 16 =? 0); [exact Hacc'|]. apply IH; [|exact Hacc'].
  apply Z.div_pos; lia.
Qed.

Lemma hex_upper_facts c :
  hex_upper c = true ->
  is_ascii c = true /\ strings2.to_upper c = c /\ slug_byte (strings.to_lower c) = true.
Proof.
  destruct c as [[] [] [] [] [] [] [] []]; vm_compute; intros H; try discriminate H; auto.
Qed.

Lemma upper_bytes_fixed s : all_bytes hex_upper s = true -> strings2.upper_bytes s = s.
Proof.
  induction s as [|c s IH]; [reflexivity|]. cbn [all_bytes strings2.upper_bytes].
  intros H. apply andb_prop in H. destruct H as [Hc Hs].
  destruct (hex_upper_facts c Hc) as (_ & -> & _). rewrite (IH Hs). reflexivity.
Qed.

Lemma ToLower_hex s :
  all_bytes hex_upper s = true -> all_bytes slug_byte (strings.ToLower s) = true.
Proof.
  induction s as [|c s IH]; [reflexivity|]. cbn [all_bytes strings.ToLower].
  intros H. apply andb_prop in H. destruct H as [Hc Hs].
  destruct (hex_upper_facts c Hc) as (_ & _ & ->). rewrite (IH Hs). reflexivity.
Qed.

Lemma ToLower_app a b : strings.ToLower (a +:+ b) = strings.ToLower a +:+ strings.ToLower b.
Proof.
  induction a as [|c a IH]; [reflexivity|]. rewrite sapp_cons. cbn [strings.ToLower].
  rewrite IH, sapp_cons. reflexivity.
Qed.

Lemma ToLower_slug s : all_bytes slug_byte s = true -> strings.ToLower s = s.
Proof.
  induction s as [|c s IH]; [reflexivity|]. cbn [all_bytes strings.ToLower].
  intros H. apply andb_prop in H. destruct H as [Hc Hs]. rewrite (IH Hs).
  unfold strings.to_lower. destruct (slug_byte_facts c Hc) as (_ & -> & _). reflexivity.
Qed.

Lemma slug_ascii s : all_bytes slug_byte s = true -> all_bytes is_ascii s = true.
Proof. apply all_bytes_impl. intros c Hc. apply (slug_byte_facts c Hc). Qed.

(** The loop of [replaceEmojisWithCode] behind ASCII bytes. *)
Lemma replaceEmojis_app a t :
  all_bytes is_ascii a = true -> emojis (a +:+ t) = a +:+ emojis t.
Proof.
  induction a as [|c a IH]; [reflexivity|]. cbn [all_bytes]. intros H.
  apply andb_prop in H. destruct H as [Hc Ha]. pose proof (is_ascii_byte c Hc) as Hb.
  rewrite !sapp_cons. unfold replaceEmojisWithCode in *.
  rewrite range_step, decode1 by lia.
  cbn [fst snd strings.drop fold_left]. rewrite replaceEmojis_fold, (IH Ha).
  assert (E1 : isEmojiRune (utf8.byte c) = false).
  { unfold isEmojiRune.
    repeat match goal with
           | |- context [?a <=? utf8.byte c] => destruct (Z.leb_spec a (utf8.byte c)); [lia|]
           end. reflexivity. }
  rewrite E1.
  destruct (Z.eqb_spec (utf8.byte c) 8205); [lia|].
  destruct (Z.eqb_spec (utf8.byte c) 65039); [lia|]. cbn [orb].
  unfold utf8.EncodeRune. rewrite Z.mod_small by lia. cbv zeta.
  destruct (Z.leb_spec (utf8.byte c) 127); [|lia]. rewrite to_byte_byte. reflexivity.
Qed.

Lemma replaceEmojis_rune r t :
  scalar r = true ->
  emojis (utf8.EncodeRune r +:+ t)
  = (if isEmojiRune r then "u" +:+ strings_ToUpper MapToUpper (Sprintf_X r)
     else if (r =? 8205) || (r =? 65039) then ""
     else utf8.EncodeRune r) +:+ emojis t.
Proof.
  intros Hr. unfold replaceEmojisWithCode. rewrite (range_encode r t Hr).
  cbn [fold_left]. rewrite replaceEmojis_fold.
  destruct (isEmojiRune r); [rewrite !sapp_assoc; reflexivity|].
  destruct ((r =? 8205) || (r =? 65039)); reflexivity.
Qed.

(** X24: an emoji between texts of slug characters becomes [u] and
    the hexadecimal digits of its code point, small letters, in the
    slug; a zero-width joiner or a variation selector behind it
    leaves no trace. *)
Theorem slugify_emoji (r : Z) (a b : string) (sel : Z) :
  isEmojiRune r = true -> all_bytes slug_byte a = true -> all_bytes slug_byte b = true ->
  sel = 8205 \/ sel = 65039 ->
  all_bytes hex_upper (Sprintf_X r) = true
  /\ slug (a +:+ utf8.EncodeRune r +:+ b)
     = strings2.Trim (a +:+ "u" +:+ strings.ToLower (Sprintf_X r) +:+ b) "-"
  /\ slug (a +:+ utf8.EncodeRune r +:+ utf8.EncodeRune sel +:+ b)
     = slug (a +:+ utf8.EncodeRune r +:+ b).
Proof.
  intros He Ha Hb Hsel. destruct (emoji_scalar r He) as [Hr Hrange].
  assert (Hx : all_bytes hex_upper (Sprintf_X r) = true).
  { unfold Sprintf_X. apply hex_digits_upper; [lia | reflexivity]. }
  assert (Hsc : scalar sel = true) by (destruct Hsel as [-> | ->]; reflexivity).
  assert (Hse : isEmojiRune sel = false) by (destruct Hsel as [-> | ->]; reflexivity).
  assert (Hsd : (sel =? 8205) || (sel =? 65039) = true)
    by (destruct Hsel as [-> | ->]; reflexivity).
  assert (E : emojis (a +:+ utf8.EncodeRune r +:+ b) = a +:+ "u" +:+ Sprintf_X r +:+ b).
  { rewrite (replaceEmojis_app a _ (slug_ascii a Ha)), (replaceEmojis_rune r b Hr), He.
    rewrite (replaceEmojis_ascii MapToUpper b (slug_ascii b Hb)).
    unfold strings_ToUpper.
    assert (Hxa : all_bytes is_ascii (Sprintf_X r) = true).
    { revert Hx. apply all_bytes_impl. intros c Hc. apply (hex_upper_facts c Hc). }
    rewrite Hxa, (upper_bytes_fixed _ Hx), !sapp_assoc. reflexivity. }
  assert (E' : emojis (a +:+ utf8.EncodeRune r +:+ utf8.EncodeRune sel +:+ b)
               = emojis (a +:+ utf8.EncodeRune r +:+ b)).
  { rewrite !(replaceEmojis_app a _ (slug_ascii a Ha)).
    rewrite (replaceEmojis_rune r (utf8.EncodeRune sel +:+ b) Hr).
    rewrite (replaceEmojis_rune sel b Hsc), Hse, Hsd, sapp_nil_l.
    rewrite (replaceEmojis_rune r b Hr). reflexivity. }
  split; [exact Hx|]. split.
  - unfold slugify. cbv zeta. rewrite E.
    set (low := a +:+ "u" +:+ strings.ToLower (Sprintf_X r) +:+ b).
    assert (Hlow : all_bytes slug_byte low = true).
    { unfold low. rewrite !all_bytes_app, Ha, Hb, (ToLower_hex _ Hx). reflexivity. }
    assert (Hl : strings_ToLower MapToLower (a +:+ "u" +:+ Sprintf_X r +:+ b) = low).
    { unfold strings_ToLower.
      assert (Hasc : all_bytes is_ascii (a +:+ "u" +:+ Sprintf_X r +:+ b) = true).
      { rewrite !all_bytes_app, (slug_ascii a Ha), (slug_ascii b Hb).
        assert (Hxa : all_bytes is_ascii (Sprintf_X r) = true).
        { revert Hx. apply all_bytes_impl. intros c Hc. apply (hex_upper_facts c Hc). }
        rewrite Hxa. reflexivity. }
      rewrite Hasc, !ToLower_app, (ToLower_slug a Ha), (ToLower_slug b Hb). reflexivity. }
    rewrite Hl, (replace_space_fixed low Hlow), (slug_runs_fixed low Hlow). reflexivity.
  - unfold slugify. cbv zeta. rewrite E'. reflexivity.
Qed.

End Emoji.

Lemma slugify_emoji_witness :
  slugify (fun s => s) (fun s => s) ("hi-" +:+ utf8.EncodeRune 128512 +:+ "") = "hi-u1f600".
Proof.
  destruct (slugify_emoji (fun s => s) (fun s => s) 128512 "hi-" "" 8205
              eq_refl eq_refl eq_refl (or_introl eq_refl)) as (_ & H & _).
  rewrite H. vm_compute. reflexivity.
Defined.

Module pathTests.
Example Clean1 : path.Clean "a//b/./c/.." = "a/b". Proof. reflexivity. Qed.
Example Clean2 : path.Clean "/../a/" = "/a". Proof. reflexivity. Qed.
Example Clean3 : path.Clean "../../a/../.." = "../../..". Proof. reflexivity. Qed.
Example Clean4 : path.Clean "a/.." = ".". Proof. reflexivity. Qed.
Example Clean5 : path.Clean "///" = "/". Proof. reflexivity. Qed.
Example Base1 : path.Base "/a/b.jpg" = "b.jpg". Proof. reflexivity. Qed.
Example Base2 : path.Base "/a/b/" = "b". Proof. reflexivity. Qed.
Example Base3 : path.Base "//" = "/". Proof. reflexivity. Qed.
Example Base4 : path.Base "" = ".". Proof. reflexivity. Qed.
Example Dir1 : path.Dir "/a/b.jpg" = "/a". Proof. reflexivity. Qed.
Example Dir2 : path.Dir "b.jpg" = ".". Proof. reflexivity. Qed.
Example Ext1 : path.Ext "a.b/c.tar.gz" = ".gz". Proof. reflexivity. Qed.
Example Ext2 : path.Ext "a.b/c" = "". Proof. reflexivity. Qed.
Example Join1 : path.Join ["/images"; "2024-01-test"] = "/images/2024-01-test".
Proof. reflexivity. Qed.
Example Trim1 : strings.TrimSpace ("  a b" +:+ nl +:+ " ") = "a b".
Proof. reflexivity. Qed.
End pathTests.

Module locatorTests.
Example pick1 : pickBestSrc "x.jpg" "a.jpg 300w, b.jpg 1024w, c.jpg 768w" = "b.jpg".
Proof. reflexivity. Qed.
Example orig1 : toOriginalURL "https://x/a-300x200.jpg" = "https://x/a.jpg".
Proof. vm_compute. reflexivity. Qed.
Example orig2 : toOriginalURL "https://x/a-300x200-scaled.jpg" = "https://x/a-300x200.jpg".
Proof. vm_compute. reflexivity. Qed.
Example orig3 : toOriginalURL "https://x/p/a-scaled-1-300x200-2.jpg?x=1#f" = "https://x/p/a.jpg?x=1#f".
Proof. vm_compute. reflexivity. Qed.
Example orig4 : toOriginalURL "https://x" = "https://x/.".
Proof. vm_compute. reflexivity. Qed.
Example fn1 : filenameFromURL "https://x/a/b.jpg?q=1#f" = "b.jpg".
Proof. vm_compute. reflexivity. Qed.
Example fn2 : filenameFromURL "https://x/" = "image".
Proof. vm_compute. reflexivity. Qed.
Example fn3 : filenameFromURL "https://x" = ".".
Proof. vm_compute. reflexivity. Qed.
Example p1 : url.Parse "http://u:p@h.com:80/a%20b?x#y" =
  Some (url.mkURL "http" "" (Some (url.mkUserinfo "u" "p" true)) "h.com:80" "/a b" "" false false "x" "y" "").
Proof. vm_compute. reflexivity. Qed.
Example p2 : url.String (url.mkURL "http" "" (Some (url.mkUserinfo "u" "p" true)) "h.com:80" "/a b" "" false false "x" "y" "") = "http://u:p@h.com:80/a%20b?x#y".
Proof. vm_compute. reflexivity. Qed.
End locatorTests.

